(** * riftoracle: the ranked-match scraper ([data-collection/match-scraper-aws.py])

    A shallow embedding of the scraper and the properties of its rate
    limiter, retrying API client, PUUID cache, checkpoint store, match
    archive and collection loop.

    Conventions of the embedding.
    - Python values that come out of [response.json()] or [json.load] are
      [json] terms; Python's [None] is [JNull].  JSON numbers are integers
      (floats do not occur in the fields the scraper touches).
    - The interpreter is CPython 3.11 with its default settings, on
      Linux: [int] refuses texts of more than 4300 digits, and
      [time.sleep] refuses a number of seconds that does not fit a signed
      64-bit count of nanoseconds.
    - Text is a [string] of code points below 256.
    - Time is an integer number of microseconds, the resolution of
      [datetime]; [time.sleep d] advances the clock by exactly [d], and
      nothing else takes time unless a client says so.
    - The file system is a finite map from paths to the records written
      to each file.  Directories are not tracked: [os.makedirs] is only
      recorded in the trace, [os.path.exists] asks for a file, and
      [open] finds the directory of the file.  A path is a key as it is
      spelt: the map is the disk for paths that are spelt in one way
      only and lie in a directory that exists, as the state file, the
      index and the file of a match whose id names a file do
      ([names_a_file]).  What is proved of one match file is therefore
      proved for such ids; an id with a separator ([a/b], [./x]) may
      lead [open] to a directory that does not exist or to the file of
      another id, which [resolve] makes precise.
    - A request is the endpoint and the values interpolated into its
      URL; the HTTP server is a script, the list of the outcomes of the
      [requests.get] calls to come, taken one per call.
    - The outside world (clock, module globals, file system, the responses
      the HTTP server is going to give, and the log of what the program
      did) is an explicit [World] threaded through a state-and-exception
      monad [M].  An uncaught Python exception is [Raise]; [Stuck] means
      the scripted responses ran out before the program finished. *)

From Stdlib Require Import ZArith Lia Ascii String.
From stdpp Require Import base gmap sets list strings pretty sorting.

Local Open Scope Z_scope.
Set Warnings "-register-all".

(** ** JSON / Python values *)

Inductive json : Type :=
| JNull
| JBool (b : bool)
| JNum (n : Z)
| JStr (s : string)
| JArr (items : list json)
| JObj (fields : list (string * json)).

(** Python truth value ([if data:], [if not players:], [x or []]). *)
Definition truthy (v : json) : bool :=
  match v with
  | JNull => false
  | JBool b => b
  | JNum n => negb (n =? 0)
  | JStr s => negb (String.eqb s "")
  | JArr items => match items with [] => false | _ => true end
  | JObj fields => match fields with [] => false | _ => true end
  end.

Inductive exn : Type :=
| ConfigError      (* the plain [Exception] raised for a missing key *)
| TypeError
| ValueError
| KeyError
| IndexError
| AttributeError
| OverflowError
| JSONDecodeError
| RequestException (* [requests.get] could not complete *)
| HTTPError.       (* [raise_for_status] *)

Inductive result (A : Type) : Type :=
| Ret (a : A)
| Raise (e : exn)
| Stuck.
Arguments Ret {A} a.
Arguments Raise {A} e.
Arguments Stuck {A}.

(** Dictionaries keep insertion order, as Python's do. *)
Fixpoint assoc_get (k : string) (kvs : list (string * json)) : option json :=
  match kvs with
  | [] => None
  | (k', v) :: rest => if String.eqb k k' then Some v else assoc_get k rest
  end.

(** [d[k] = v] on a dict: overwrite in place, or add at the end. *)
Fixpoint assoc_set (k : string) (v : json) (kvs : list (string * json))
  : list (string * json) :=
  match kvs with
  | [] => [(k, v)]
  | (k', v') :: rest =>
      if String.eqb k k' then (k', v) :: rest else (k', v') :: assoc_set k v rest
  end.

(** [d.get(k, default)]; only dicts have [.get]. *)
Definition py_dict_get (d : json) (k : string) (default : json) : result json :=
  match d with
  | JObj fields =>
      match assoc_get k fields with Some v => Ret v | None => Ret default end
  | _ => Raise AttributeError
  end.

(** [v[k]] with a string subscript. *)
Definition py_getitem (v : json) (k : string) : result json :=
  match v with
  | JObj fields =>
      match assoc_get k fields with Some x => Ret x | None => Raise KeyError end
  | _ => Raise TypeError
  end.

Definition chars_of (s : string) : list json :=
  map (fun c => JStr (String c EmptyString)) (list_ascii_of_string s).

(** The items a [for x in v] loop visits. *)
Definition py_iter (v : json) : result (list json) :=
  match v with
  | JArr items => Ret items
  | JObj fields => Ret (map (fun kv => JStr (fst kv)) fields)
  | JStr s => Ret (chars_of s)
  | _ => Raise TypeError
  end.

(** [v[:n]]. *)
Definition py_slice_to (n : nat) (v : json) : result json :=
  match v with
  | JArr items => Ret (JArr (take n items))
  | JStr s => Ret (JStr (string_of_list_ascii (take n (list_ascii_of_string s))))
  | _ => Raise TypeError
  end.

(** [v += 1]. *)
Definition py_add1 (v : json) : result json :=
  match v with
  | JNum n => Ret (JNum (n + 1))
  | JBool b => Ret (JNum ((if b then 1 else 0) + 1))
  | _ => Raise TypeError
  end.

(** *** [int(...)] *)

(** The characters [int] skips around a number: ASCII white space, and
    the two further spaces below 256 (NEL, NBSP). *)
Definition is_py_space (c : ascii) : bool :=
  let n := nat_of_ascii c in
  ((9 <=? n) && (n <=? 13) || (n =? 32) || (n =? 133) || (n =? 160))%nat.

Definition is_digit (c : ascii) : bool :=
  let n := nat_of_ascii c in ((48 <=? n) && (n <=? 57))%nat.

Definition digit_value (c : ascii) : Z := Z.of_nat (nat_of_ascii c) - 48.

(** Decimal digits, single underscores allowed between two digits. *)
Fixpoint digits_value (cs : list ascii) (acc : Z) (after_digit : bool) : option Z :=
  match cs with
  | [] => if after_digit then Some acc else None
  | c :: rest =>
      if is_digit c then digits_value rest (10 * acc + digit_value c) true
      else if Ascii.eqb c "_" then
        if after_digit then digits_value rest acc false else None
      else None
  end.

Fixpoint drop_spaces (cs : list ascii) : list ascii :=
  match cs with
  | c :: rest => if is_py_space c then drop_spaces rest else cs
  | [] => []
  end.

Definition strip (cs : list ascii) : list ascii :=
  rev (drop_spaces (rev (drop_spaces cs))).

(** [int] gives up on a text with more digits than
    [sys.get_int_max_str_digits()], 4300 unless it has been changed. *)
Definition INT_MAX_STR_DIGITS : Z := 4300.

Fixpoint count_digits (cs : list ascii) : Z :=
  match cs with
  | [] => 0
  | c :: rest => (if is_digit c then 1 else 0) + count_digits rest
  end.

Definition int_of_string (s : string) : option Z :=
  let cs := strip (list_ascii_of_string s) in
  if INT_MAX_STR_DIGITS <? count_digits cs then None
  else
    match cs with
    | c :: rest =>
        if Ascii.eqb c "-" then Z.opp <$> digits_value rest 0 false
        else if Ascii.eqb c "+" then digits_value rest 0 false
        else digits_value (c :: rest) 0 false
    | [] => None
    end.

(** What [int] can be applied to in this program: a decoded value, or a
    builtin function object such as [input]. *)
Inductive pyobj : Type :=
| PVal (v : json)
| PBuiltin (name : string).

Definition py_int (o : pyobj) : result Z :=
  match o with
  | PVal (JNum n) => Ret n
  | PVal (JBool b) => Ret (if b then 1 else 0)
  | PVal (JStr s) =>
      match int_of_string s with Some n => Ret n | None => Raise ValueError end
  | PVal _ => Raise TypeError
  | PBuiltin _ => Raise TypeError
  end.

(** *** Strings *)

Definition lower_char (c : ascii) : ascii :=
  let n := nat_of_ascii c in
  if ((65 <=? n) && (n <=? 90)
      || (192 <=? n) && (n <=? 222) && negb (n =? 215))%nat
  then ascii_of_nat (n + 32) else c.

(** [s.lower()] *)
Definition lower (s : string) : string :=
  string_of_list_ascii (map lower_char (list_ascii_of_string s)).

Definition starts_with_sep (s : string) : bool :=
  match s with String c _ => Ascii.eqb c "/" | EmptyString => false end.

Fixpoint ends_with_sep (s : string) : bool :=
  match s with
  | EmptyString => false
  | String c EmptyString => Ascii.eqb c "/"
  | String _ rest => ends_with_sep rest
  end.

(** [os.path.join(a, b)] (POSIX). *)
Definition path_join (a b : string) : string :=
  if starts_with_sep b then b
  else if String.eqb a "" || ends_with_sep a then a +:+ b
  else a +:+ "/" +:+ b.

(** ** Dictionary keys

    A decoded value used as a [dict] key: [True]/[False] are the same keys
    as [1]/[0]; lists and dicts are unhashable. *)
Abbreviation pykey := (option (Z + string)).

Definition key_of (v : json) : result pykey :=
  match v with
  | JNull => Ret None
  | JBool b => Ret (Some (inl (if b then 1 else 0)))
  | JNum n => Ret (Some (inl n))
  | JStr s => Ret (Some (inr s))
  | JArr _ | JObj _ => Raise TypeError
  end.

(** ** The world *)

(** The four endpoints, by the values interpolated into the URL:
    [.../lol/league/v4/entries/RANKED_SOLO_5x5/{tier}/{division}?page={page}],
    [.../lol/summoner/v4/summoners/{summoner_id}],
    [.../lol/match/v5/matches/by-puuid/{puuid}/ids?queue=420&count={count}],
    [.../lol/match/v5/matches/{match_id}]. *)
Inductive request : Type :=
| LeagueEntries (tier division : string) (page : json)
| SummonerById (summoner_id : json)
| MatchIdsByPuuid (puuid : json) (count : Z)
| MatchDetail (match_id : json).

(** What one [requests.get] meets: an exception, or a response with its
    status, its [Retry-After] header if it has one, and its body decoded
    as JSON if it can be. *)
Inductive http_outcome : Type :=
| ConnectionFailed
| Response (status_code : Z) (retry_after : option string) (body : option json).

Inductive sleep_site : Type := RateLimitSleep | ThrottleSleep | PageSleep.
Inductive write_site : Type := StateWrite | MatchWrite.

Inductive log_message : Type :=
| LogRateLimit (micros : Z)
| Log429 (seconds : Z)
| LogApiError (e : exn)
| LogSaved (match_id : json) (tier division : string)
| LogProcessing (tier division : string)
| LogCollected (collected quota : Z) (tier division : string)
| LogFinishedDiamondI.

(** A file is the sequence of records written to it. *)
Inductive chunk : Type :=
| CJson (v : json)
| CRow (cells : list json).

(** What the program does to the outside, as recorded in the trace. *)
Inductive event : Type :=
| EAdmit                                  (* [rate_limit_sleep()] is entered *)
| ESleep (site : sleep_site) (micros : Z) (* [time.sleep(...)] *)
| ECall (r : request)                     (* [make_api_call(url)] is entered *)
| EGet (r : request)                      (* [requests.get(url, ...)] *)
| EMakedirs (path : string)               (* [os.makedirs(path, exist_ok=True)] *)
| EWrite (site : write_site) (path : string) (content : json)
                                          (* [open(path, "w")], [json.dump] *)
| EAppendRow (path : string) (cells : list json)  (* [writer.writerow(cells)] *)
| EPrint (text : string)                  (* [print(text)] *)
| ELog (m : log_message).                 (* [logging.info/warning/error] *)

Record World : Type := mkWorld {
  clock : Z;                          (* [datetime.now()], microseconds *)
  request_timestamps : list Z;
  puuid_cache : gmap pykey json;
  files : gmap string (list chunk);
  network : list http_outcome;        (* responses still to come *)
  trace : list event                  (* what has been done, oldest first *)
}.

Definition set_clock (c : Z) (w : World) : World :=
  mkWorld c (request_timestamps w) (puuid_cache w) (files w) (network w) (trace w).
Definition set_request_timestamps (ts : list Z) (w : World) : World :=
  mkWorld (clock w) ts (puuid_cache w) (files w) (network w) (trace w).
Definition set_puuid_cache (c : gmap pykey json) (w : World) : World :=
  mkWorld (clock w) (request_timestamps w) c (files w) (network w) (trace w).
Definition set_files (f : gmap string (list chunk)) (w : World) : World :=
  mkWorld (clock w) (request_timestamps w) (puuid_cache w) f (network w) (trace w).
Definition set_network (n : list http_outcome) (w : World) : World :=
  mkWorld (clock w) (request_timestamps w) (puuid_cache w) (files w) n (trace w).
Definition set_trace (t : list event) (w : World) : World :=
  mkWorld (clock w) (request_timestamps w) (puuid_cache w) (files w) (network w) t.

(** ** The monad *)

Definition M (A : Type) : Type := World -> result A * World.

#[global] Instance M_ret : MRet M := fun A a w => (Ret a, w).

#[global] Instance M_bind : MBind M := fun A B f m w =>
  match m w with
  | (Ret a, w') => f a w'
  | (Raise e, w') => (Raise e, w')
  | (Stuck, w') => (Stuck, w')
  end.

Definition raise {A} (e : exn) : M A := fun w => (Raise e, w).
Definition stuck {A} : M A := fun w => (Stuck, w).
Definition lift {A} (r : result A) : M A := fun w => (r, w).
Definition gets {A} (f : World -> A) : M A := fun w => (Ret (f w), w).
Definition modify (f : World -> World) : M unit := fun w => (Ret tt, f w).

(** [try: m except Exception as e: h e] *)
Definition try_except {A} (m : M A) (h : exn -> M A) : M A := fun w =>
  match m w with
  | (Raise e, w') => h e w'
  | r => r
  end.

Definition emit (e : event) : M unit :=
  modify (fun w => set_trace (trace w ++ [e]) w).

(** [time.sleep] on a duration, in microseconds, that the interpreter
    can hold, as those of the rate limiter (at most the window, for
    timestamps that are not in the future) and of the page loop are:
    negative durations are a [ValueError]. *)
Definition sleep (site : sleep_site) (micros : Z) : M unit :=
  if micros <? 0 then raise ValueError
  else emit (ESleep site micros);;
       modify (fun w => set_clock (clock w + micros) w).

Definition MICROS : Z := 1000000.

(** The largest number of seconds that fits, in nanoseconds, the signed
    64 bits in which the interpreter holds a duration. *)
Definition SLEEP_MAX_SECONDS : Z := 9223372036.

(** [time.sleep(seconds)] on an [int] that comes from outside the
    program: the number is converted to a duration first, an
    [OverflowError] when it does not fit, and only then tested for its
    sign. *)
Definition sleep_seconds (site : sleep_site) (seconds : Z) : M unit :=
  if (seconds <? - SLEEP_MAX_SECONDS) || (SLEEP_MAX_SECONDS <? seconds)
  then raise OverflowError
  else sleep site (seconds * MICROS).

(** ** Rate limiting *)

Definition REQUEST_LIMIT : nat := 100.
Definition WINDOW_SECONDS : Z := 120.

Definition rate_limit_sleep : M unit :=
  emit EAdmit;;
  now ← gets clock;
  modify (fun w =>
    set_request_timestamps
      (filter (fun t => now - WINDOW_SECONDS * MICROS < t) (request_timestamps w)) w);;
  ts ← gets request_timestamps;
  (if (REQUEST_LIMIT <=? length ts)%nat then
     match ts with
     | oldest :: _ =>
         let sleep_time := oldest + WINDOW_SECONDS * MICROS - now in
         emit (ELog (LogRateLimit sleep_time));;
         sleep RateLimitSleep (Z.max sleep_time 0)
     | [] => raise IndexError
     end
   else mret tt);;
  modify (fun w => set_request_timestamps (request_timestamps w ++ [now]) w).

(** ** API call with iterative retry *)

Inductive attempt : Type :=
| Retry              (* [continue] *)
| Return (v : json). (* [return ...] *)

(** The body of the [try] for one response. *)
Definition handle_response (o : http_outcome) : M attempt :=
  match o with
  | ConnectionFailed => raise RequestException
  | Response status_code retry_after body =>
      if status_code =? 429 then
        retry_after ← lift (py_int (PVal (from_option JStr (JNum 10) retry_after)));
        emit (ELog (Log429 retry_after));;
        sleep_seconds ThrottleSleep retry_after;;
        mret Retry
      else
        (if (400 <=? status_code) && (status_code <? 600)
         then raise HTTPError else mret tt);;
        match body with
        | Some v => mret (Return v)
        | None => raise JSONDecodeError
        end
  end.

(** The [while True] loop; every turn takes the next scripted response. *)
Fixpoint api_loop (script : list http_outcome) (req : request) : M json :=
  rate_limit_sleep;;
  match script with
  | [] => stuck
  | o :: rest =>
      modify (set_network rest);;
      emit (EGet req);;
      r ← try_except (handle_response o)
            (fun e => emit (ELog (LogApiError e));; mret (Return JNull));
      match r with
      | Retry => api_loop rest req
      | Return v => mret v
      end
  end.

Definition make_api_call (req : request) : M json :=
  emit (ECall req);;
  script ← gets network;
  api_loop script req.

(** ** The scraper proper

    [BASE_DIR] is the directory of the script.  [py_repr] is Python's
    [repr] of a list or dict, which [str()] falls back on. *)

Section Scraper.

Variable BASE_DIR : string.
Variable py_repr : json -> string.

Definition TIERS : list string :=
  ["IRON"; "BRONZE"; "SILVER"; "GOLD"; "PLATINUM"; "EMERALD"; "DIAMOND"].
Definition DIVISIONS : list string := ["I"; "II"; "III"; "IV"].

Definition STATE_FILE : string := path_join BASE_DIR "state.json".
Definition CSV_FILE : string := path_join BASE_DIR "match_ids.csv".
Definition MATCHES_DIR : string := path_join BASE_DIR "matches".

(** [f"{v}"] *)
Definition py_str (v : json) : string :=
  match v with
  | JStr s => s
  | JNum n => pretty n
  | JBool b => if b then "True" else "False"
  | JNull => "None"
  | _ => py_repr v
  end.

(** *** File system primitives

    Files are looked up by their path as it is spelt; see the
    conventions at the head of the file for the paths on which this is
    what [os.path.exists] and [open] do. *)

(** [os.path.exists(path)] *)
Definition path_exists (path : string) : M bool :=
  gets (fun w => bool_decide (is_Some (files w !! path))).

(** [with open(path, "w") as f: json.dump(v, f)] *)
Definition write_json (site : write_site) (path : string) (v : json) : M unit :=
  emit (EWrite site path v);;
  modify (fun w => set_files (<[path := [CJson v]]> (files w)) w).

(** [writer.writerow(cells)] on a file opened in append mode. *)
Definition append_row (path : string) (cells : list json) : M unit :=
  emit (EAppendRow path cells);;
  modify (fun w =>
    set_files (<[path := default [] (files w !! path) ++ [CRow cells]]> (files w)) w).

(** *** State management *)

Definition load_state : M json :=
  present ← path_exists STATE_FILE;
  if (present : bool) then
    content ← gets (fun w => files w !! STATE_FILE);
    match content with
    | Some [CJson v] => mret v
    | _ => raise JSONDecodeError
    end
  else mret (JObj []).

Definition save_state (state : json) : M unit :=
  write_json StateWrite STATE_FILE state.

(** *** API helpers *)

Definition get_players (tier division : string) (page : json) : M json :=
  make_api_call (LeagueEntries tier division page).

Definition get_puuid (summoner_id : json) : M json :=
  key ← lift (key_of summoner_id);
  cached ← gets (fun w => puuid_cache w !! key);
  match cached with
  | Some puuid => mret puuid
  | None =>
      data ← make_api_call (SummonerById summoner_id);
      puuid ← (if truthy data then lift (py_dict_get data "puuid" JNull)
               else mret JNull);
      modify (fun w => set_puuid_cache (<[key := puuid]> (puuid_cache w)) w);;
      mret puuid
  end.

Definition get_matches (puuid : json) (count : Z) : M json :=
  r ← make_api_call (MatchIdsByPuuid puuid count);
  mret (if truthy r then r else JArr []).

Definition save_match_id_csv (match_id : json) (tier division : string) : M unit :=
  file_exists ← path_exists CSV_FILE;
  (if negb (file_exists : bool)
   then append_row CSV_FILE [JStr "match_id"; JStr "tier"; JStr "division"]
   else mret tt);;
  append_row CSV_FILE [match_id; JStr tier; JStr division].

Definition save_match (match_id : json) (tier division : string) : M bool :=
  let folder_path := path_join (path_join MATCHES_DIR (lower tier)) division in
  emit (EMakedirs folder_path);;
  let file_path := path_join folder_path (py_str match_id +:+ ".json") in
  present ← path_exists file_path;
  if (present : bool) then mret false
  else
    data ← make_api_call (MatchDetail match_id);
    if truthy data then
      write_json MatchWrite file_path data;;
      save_match_id_csv match_id tier division;;
      emit (ELog (LogSaved match_id tier division));;
      mret true
    else mret false.

(** *** The collection loop *)

(** [state.setdefault(tier, {})[division] = page] *)
Definition set_checkpoint (state : json) (tier division : string) (page : json)
  : result json :=
  match state with
  | JObj fields =>
      match assoc_get tier fields with
      | Some (JObj inner) =>
          Ret (JObj (assoc_set tier (JObj (assoc_set division page inner)) fields))
      | Some _ => Raise TypeError
      | None => Ret (JObj (assoc_set tier (JObj [(division, page)]) fields))
      end
  | _ => Raise AttributeError
  end.

(** [for match_id in matches[:5]: ...]; the loop variables are
    [(collected, done)]. *)
Fixpoint for_matches (tier division : string) (matches_per_tier : Z)
    (ids : list json) (collected : Z) (done : bool) : M (Z * bool) :=
  match ids with
  | [] => mret (collected, done)
  | match_id :: rest =>
      if matches_per_tier <=? collected then mret (collected, true)
      else
        saved ← save_match match_id tier division;
        if (saved : bool) then
          emit (ELog (LogCollected (collected + 1) matches_per_tier tier division));;
          for_matches tier division matches_per_tier rest (collected + 1) done
        else for_matches tier division matches_per_tier rest collected done
  end.

(** [for player in players: ...] *)
Fixpoint for_players (tier division : string) (matches_per_tier : Z)
    (players : list json) (collected : Z) (done : bool) : M (Z * bool) :=
  match players with
  | [] => mret (collected, done)
  | player :: rest =>
      if matches_per_tier <=? collected then mret (collected, true)
      else
        summoner_id ← lift (py_getitem player "summonerId");
        puuid ← get_puuid summoner_id;
        if negb (truthy puuid)
        then for_players tier division matches_per_tier rest collected done
        else
          matches ← get_matches puuid 10;
          first5 ← lift (py_slice_to 5 matches);
          ids ← lift (py_iter first5);
          '(collected', done') ←
            for_matches tier division matches_per_tier ids collected done;
          for_players tier division matches_per_tier rest collected' done'
  end.

(** [while collected < matches_per_tier and not done: ...].  Every turn
    that does not leave the loop takes at least one scripted response,
    so [fuel] beyond the length of the script is never used up. *)
Fixpoint while_pages (fuel : nat) (tier division : string) (matches_per_tier : Z)
    (page : json) (collected : Z) (done : bool) (state : json) : M json :=
  match fuel with
  | O => stuck
  | S fuel' =>
      if (collected <? matches_per_tier) && negb done then
        players ← get_players tier division page;
        if negb (truthy players) then mret state
        else
          items ← lift (py_iter players);
          '(collected', done') ←
            for_players tier division matches_per_tier items collected done;
          state' ← lift (set_checkpoint state tier division page);
          save_state state';;
          page' ← lift (py_add1 page);
          sleep PageSleep 500000;;
          while_pages fuel' tier division matches_per_tier page' collected' done' state'
      else mret state
  end.

(** One [(tier, division)] bucket: the body of the inner [for] up to the
    Diamond check. *)
Definition process_bucket (tier division : string) (matches_per_tier : Z)
    (state : json) : M json :=
  emit (ELog (LogProcessing tier division));;
  by_tier ← lift (py_dict_get state tier (JObj []));
  page ← lift (py_dict_get by_tier division (JNum 1));
  fuel ← gets (fun w => S (length (network w)));
  while_pages fuel tier division matches_per_tier page 0 false state.

(** [for division in divisions_to_process: ...]; [true] when the function
    has executed [return]. *)
Fixpoint for_divisions (tier : string) (matches_per_tier : Z)
    (divisions : list string) (state : json) : M (bool * json) :=
  match divisions with
  | [] => mret (false, state)
  | division :: rest =>
      state' ← process_bucket tier division matches_per_tier state;
      if String.eqb tier "DIAMOND" && String.eqb division "I" then
        emit (ELog LogFinishedDiamondI);;
        mret (true, state')
      else for_divisions tier matches_per_tier rest state'
  end.

Definition divisions_to_process (tier : string) : list string :=
  if String.eqb tier "DIAMOND" then rev DIVISIONS else DIVISIONS.

Fixpoint for_tiers (matches_per_tier : Z) (tiers : list string) (state : json)
  : M unit :=
  match tiers with
  | [] => mret tt
  | tier :: rest =>
      '(returned, state') ←
        for_divisions tier matches_per_tier (divisions_to_process tier) state;
      if (returned : bool) then mret tt
      else for_tiers matches_per_tier rest state'
  end.

Definition collect_data (matches_per_tier : Z) : M unit :=
  state ← load_state;
  for_tiers matches_per_tier TIERS state.

(** *** Module level

    The statements the interpreter runs on [python match-scraper-aws.py]
    that can stop it: the credential check, the prompt, [x = int(input)]
    and the [__main__] guard.  [api_key] is [os.getenv("RIOT_API_KEY")]. *)
Definition module_body (api_key : option string) (is_main : bool) : M unit :=
  (if negb (truthy (from_option JStr JNull api_key))
   then raise ConfigError else mret tt);;
  emit (EPrint "Input desired number of matches per tier: ");;
  x ← lift (py_int (PBuiltin "input"));
  if is_main then collect_data 100 else mret tt.

(** * Vocabulary of the specifications *)

(** ** Rate limiter *)

(** The length of the window in clock units. *)
Definition WINDOW : Z := WINDOW_SECONDS * MICROS.

(** The timestamps still inside the window that ends at [now]. *)
Definition in_window (now : Z) (ts : list Z) : list Z :=
  filter (fun t => now - WINDOW < t) ts.

(** The world one call of [rate_limit_sleep] leaves behind. *)
Definition after_admit (w : World) : World :=
  let now := clock w in
  let ts := in_window now (request_timestamps w) in
  if (REQUEST_LIMIT <=? length ts)%nat then
    let sleep_time := default now (head ts) + WINDOW - now in
    mkWorld (now + Z.max sleep_time 0) (ts ++ [now]) (puuid_cache w) (files w)
      (network w)
      (trace w ++ [EAdmit; ELog (LogRateLimit sleep_time);
                   ESleep RateLimitSleep (Z.max sleep_time 0)])
  else
    mkWorld now (ts ++ [now]) (puuid_cache w) (files w) (network w)
      (trace w ++ [EAdmit]).

(** A client of the limiter: before each call some time [gap] passes; the
    result lists, per call, the instant it was made and the instant it
    returned. *)
Fixpoint admit_calls (gaps : list Z) : M (list (Z * Z)) :=
  match gaps with
  | [] => mret []
  | gap :: rest =>
      modify (fun w => set_clock (clock w + gap) w);;
      called ← gets clock;
      rate_limit_sleep;;
      returned ← gets clock;
      log ← admit_calls rest;
      mret ((called, returned) :: log)
  end.

(** The instants at which the calls are made when none of them sleeps. *)
Fixpoint arrivals (start : Z) (gaps : list Z) : list Z :=
  match gaps with
  | [] => []
  | gap :: rest => (start + gap) :: arrivals (start + gap) rest
  end.

(** The state of the limiter after [k] calls of a burst whose first call
    was stamped [first]: nothing older than [first] is recorded, and
    either every call is still recorded or the window of the first call
    is already over. *)
Definition burst_state (first : Z) (k : nat) (w : World) : Prop :=
  Forall (fun t => first <= t) (request_timestamps w) /\
  first <= clock w /\
  (length (request_timestamps w) <= k)%nat /\
  ((exists tail, request_timestamps w = first :: tail /\
                 length (request_timestamps w) = k)
   \/ first + WINDOW <= clock w).

(** ** API client *)

(** The number of seconds a [Retry-After] header asks for. *)
Definition retry_after_seconds (header : option string) : option Z :=
  match header with
  | None => Some 10
  | Some text => int_of_string text
  end.

(** The largest delay a server is taken to ask for: the 31 bits that a
    recipient of HTTP delta-seconds is expected to hold, some 68 years.
    [time.sleep] takes every such number.  From there up to
    [SLEEP_MAX_SECONDS] whether it does depends on how long the machine
    has been up; beyond, it never does. *)
Definition RETRY_AFTER_MAX : Z := 2147483647.

(** A throttling response the client sleeps [seconds] on. *)
Definition throttled (o : http_outcome) (seconds : Z) : Prop :=
  exists header body,
    o = Response 429 header body /\
    retry_after_seconds header = Some seconds /\
    0 <= seconds <= RETRY_AFTER_MAX.

(** A 429 whose header reads as a number of seconds that the interpreter
    takes for a duration. *)
Definition slept_on (o : http_outcome) (seconds : Z) : Prop :=
  exists header body,
    o = Response 429 header body /\
    retry_after_seconds header = Some seconds /\
    0 <= seconds <= SLEEP_MAX_SECONDS.

(** A response that carries a decoded body and no error status. *)
Definition succeeds (o : http_outcome) (payload : json) : Prop :=
  exists status_code header,
    o = Response status_code header (Some payload) /\
    status_code <> 429 /\ ~ (400 <= status_code < 600).

(** The value a response makes the call return, when it does not make it
    go round again: the decoded body, or [None] for any failure. *)
Definition final_value (o : http_outcome) : option json :=
  match o with
  | ConnectionFailed => Some JNull
  | Response status_code header body =>
      if status_code =? 429 then
        match retry_after_seconds header with
        | Some seconds =>
            if (seconds <? 0) || (SLEEP_MAX_SECONDS <? seconds) then Some JNull
            else None
        | None => Some JNull
        end
      else if (400 <=? status_code) && (status_code <? 600) then Some JNull
      else Some (default JNull body)
  end.

(** The log lines of a failed attempt. *)
Definition log_event (e : event) : Prop :=
  match e with ELog (Log429 _) | ELog (LogApiError _) => True | _ => False end.

(** Projections of a trace. *)
Definition throttle_sleeps (tr : list event) : list Z :=
  omap (fun e => match e with ESleep ThrottleSleep d => Some d | _ => None end) tr.
Definition admissions (tr : list event) : nat :=
  length (omap (fun e => match e with EAdmit => Some tt | _ => None end) tr).
Definition http_requests (tr : list event) : list request :=
  omap (fun e => match e with EGet r => Some r | _ => None end) tr.
Definition api_calls (tr : list event) : list request :=
  omap (fun e => match e with ECall r => Some r | _ => None end) tr.

(** What the inside of [make_api_call] may add to the trace. *)
Definition transport_event (e : event) : Prop :=
  match e with
  | EAdmit | ESleep RateLimitSleep _ | ESleep ThrottleSleep _ | EGet _
  | ELog (LogRateLimit _) | ELog (Log429 _) | ELog (LogApiError _) => True
  | _ => False
  end.

(** [w'] differs from [w] by events satisfying [P] only, and possibly in
    clock, limiter state and remaining script. *)
Definition transport_step (P : event -> Prop) (w w' : World) : Prop :=
  files w' = files w /\ puuid_cache w' = puuid_cache w /\
  (exists used, network w = used ++ network w') /\
  exists added, trace w' = trace w ++ added /\ Forall P added.

(** ** PUUID cache *)

(** [data.get("puuid") if data else None] on a well-typed payload. *)
Definition puuid_of (data : json) : json :=
  match data with
  | JObj fields => default JNull (assoc_get "puuid" fields)
  | _ => JNull
  end.

(** The lookup answered with an object or with nothing usable. *)
Definition object_or_falsy (data : json) : Prop :=
  truthy data = true -> exists fields, data = JObj fields.

(** ** Path components *)

Fixpoint has_sep (s : string) : bool :=
  match s with
  | EmptyString => false
  | String c rest => Ascii.eqb c "/" || has_sep rest
  end.

(** A non-empty name without separator, as the tiers and the divisions
    are. *)
Definition plain (s : string) : Prop := s <> "" /\ has_sep s = false.

Fixpoint has_nul (s : string) : bool :=
  match s with
  | EmptyString => false
  | String c rest => Ascii.eqb c "000" || has_nul rest
  end.

(** The length of a text in bytes, as a file name (UTF-8): a code point
    from 128 on takes two. *)
Fixpoint utf8_length (s : string) : nat :=
  match s with
  | EmptyString => 0
  | String c rest => (if (nat_of_ascii c <? 128)%nat then 1 else 2) + utf8_length rest
  end.

(** The longest file name, in bytes. *)
Definition NAME_MAX : nat := 255.

(** What lies between the separators of a path. *)
Fixpoint components (path : string) : list string :=
  match path with
  | EmptyString => [""]
  | String c rest =>
      if Ascii.eqb c "/" then "" :: components rest
      else match components rest with
           | first :: others => String c first :: others
           | [] => [String c ""]
           end
  end.

(** Following a path on a disk without symbolic links, one component at
    a time; [stack] holds the directories entered, the last one first.
    An empty component and [.] stay where they are, [..] goes up, and
    stays at the root when there is nowhere to go up to. *)
Definition resolve_step (absolute : bool) (stack : list string) (c : string)
  : list string :=
  if String.eqb c "" || String.eqb c "." then stack
  else if String.eqb c ".." then
    match stack with
    | top :: below => if String.eqb top ".." then c :: stack else below
    | [] => if absolute then [] else [c]
    end
  else c :: stack.

(** Where a path leads: whether it starts at the root, and the names to
    follow from there (or from the working directory), the last one
    first.  Two paths lead to the same file when these are the same. *)
Definition resolve (path : string) : bool * list string :=
  (starts_with_sep path,
   foldl (resolve_step (starts_with_sep path)) [] (components path)).

(** ** Match archive *)

Definition match_folder (tier division : string) : string :=
  path_join (path_join MATCHES_DIR (lower tier)) division.

Definition match_file (match_id : json) (tier division : string) : string :=
  path_join (match_folder tier division) (py_str match_id +:+ ".json").

(** A match id after which a file can be named in the folder of a
    bucket: its text, with the extension, holds neither a separator nor
    a NUL and is no longer than a file name may be.  (For such an id the
    path of the match file is written in one way only, and [open] finds
    the folder that [os.makedirs] has made.) *)
Definition names_a_file (match_id : json) : Prop :=
  let name := py_str match_id +:+ ".json" in
  has_sep name = false /\ has_nul name = false /\ (utf8_length name <= NAME_MAX)%nat.

Definition csv_header : list json := [JStr "match_id"; JStr "tier"; JStr "division"].

(** The index after one more match has been recorded. *)
Definition index_with (row : list json) (index : option (list chunk)) : list chunk :=
  match index with
  | Some rows => rows ++ [CRow row]
  | None => [CRow csv_header; CRow row]
  end.

Definition file_writes (tr : list event) : list (string * json) :=
  omap (fun e => match e with EWrite _ path v => Some (path, v) | _ => None end) tr.
Definition csv_rows (tr : list event) : list (list json) :=
  omap (fun e => match e with EAppendRow _ cells => Some cells | _ => None end) tr.

Fixpoint last_char (s : string) : option ascii :=
  match s with
  | EmptyString => None
  | String c EmptyString => Some c
  | String _ rest => last_char rest
  end.

(** ** How the world evolves under the scraper *)

(** [w'] comes after [w]: part of the script has been used up and the
    trace has grown by events that satisfy [P]. *)
Definition evolves (P : event -> Prop) (w w' : World) : Prop :=
  (exists used, network w = used ++ network w') /\
  exists added, trace w' = trace w ++ added /\ Forall P added.

Definition keeps (P : event -> Prop) {A} (m : M A) : Prop :=
  forall w, evolves P w (snd (m w)).

(** What happens inside a page, between the listing call and the
    checkpoint: lookups, match downloads and their bookkeeping. *)
Definition inner_event (e : event) : Prop :=
  match e with
  | ECall (LeagueEntries _ _ _) => False
  | EWrite StateWrite _ _ => False
  | ESleep PageSleep _ => False
  | ELog (LogProcessing _ _) => False
  | ELog LogFinishedDiamondI => False
  | EPrint _ => False
  | _ => True
  end.

(** ** Checkpoints and pages *)

(** The page a bucket starts from under [state]:
    [state.get(tier, {}).get(division, 1)]. *)
Definition start_page (state : json) (tier division : string) : result json :=
  match py_dict_get state tier (JObj []) with
  | Ret by_tier => py_dict_get by_tier division (JNum 1)
  | Raise e => Raise e
  | Stuck => Stuck
  end.

(** The pages asked of the listing endpoint for one bucket, in order. *)
Definition listing_pages (tier division : string) (tr : list event) : list json :=
  omap (fun e =>
          match e with
          | ECall (LeagueEntries t d page) =>
              if String.eqb t tier && String.eqb d division then Some page else None
          | _ => None
          end) tr.

(** Listing calls and checkpoint writes, in the order they happen. *)
Inductive page_event : Type :=
| Listed (tier division : string) (page : json)
| Saved (state : json).

Definition page_events (tr : list event) : list page_event :=
  omap (fun e =>
          match e with
          | ECall (LeagueEntries t d page) => Some (Listed t d page)
          | EWrite StateWrite _ state => Some (Saved state)
          | _ => None
          end) tr.

(** From page [n] on: each page is listed, then saved as the bucket's
    checkpoint, then the next page is listed; the last listing may stay
    without a save. *)
Inductive page_schedule (tier division : string) : Z -> list page_event -> Prop :=
| schedule_nil n : page_schedule tier division n []
| schedule_listed n : page_schedule tier division n [Listed tier division (JNum n)]
| schedule_page n state rest :
    start_page state tier division = Ret (JNum n) ->
    page_schedule tier division (n + 1) rest ->
    page_schedule tier division n
      (Listed tier division (JNum n) :: Saved state :: rest).


(** What the processing of one bucket may add after its first log line. *)
Definition bucket_event (tier division : string) (e : event) : Prop :=
  match e with
  | ECall (LeagueEntries t d _) => t = tier /\ d = division
  | ELog (LogProcessing _ _) => False
  | ELog LogFinishedDiamondI => False
  | EPrint _ => False
  | _ => True
  end.

(** The states written as checkpoints, in order. *)
Definition saved_states (tr : list event) : list json :=
  omap (fun e => match e with EWrite StateWrite _ state => Some state | _ => None end) tr.

(** [state'] differs from [state] in the entry of one bucket at most. *)
Definition same_elsewhere (tier division : string) (state state' : json) : Prop :=
  forall t d, (t, d) <> (tier, division) ->
    start_page state' t d = start_page state t d.

(** The state a loop hands back is the last one it saved, or the one it
    was given when it saved none. *)
Definition hands_back_last_saved (state : json) (saved : list json)
    (r : result json) : Prop :=
  forall state', r = Ret state' ->
    last saved = Some state' \/ (saved = [] /\ state' = state).

(** What one run of the page loop of a bucket looks like from outside. *)
Definition page_loop_spec (tier division : string) (page : json) (state : json)
    (must_list : Prop) (w : World) (r : result json) (w' : World) : Prop :=
  exists added,
    trace w' = trace w ++ added /\
    (exists used, network w = used ++ network w') /\
    Forall (bucket_event tier division) added /\
    (listing_pages tier division added = [] \/
     head (listing_pages tier division added) = Some page) /\
    (must_list -> head (listing_pages tier division added) = Some page) /\
    (hands_back_last_saved state (saved_states added) r /\
     Forall (same_elsewhere tier division state) (saved_states added)) /\
    (forall n, page = JNum n ->
       page_schedule tier division n (page_events added)).

(** ** Buckets *)

Definition buckets_processed (tr : list event) : list (string * string) :=
  omap (fun e => match e with
                 | ELog (LogProcessing t d) => Some (t, d)
                 | _ => None
                 end) tr.

Definition is_diamond_I (tier division : string) : bool :=
  String.eqb tier "DIAMOND" && String.eqb division "I".

(** The two nested [for] loops as one loop over the buckets they visit;
    [k] is what follows the loops when no [return] was executed. *)
Fixpoint run_plan (matches_per_tier : Z) (plan : list (string * string))
    (k : json -> M unit) (state : json) : M unit :=
  match plan with
  | [] => k state
  | (tier, division) :: rest =>
      state' ← process_bucket tier division matches_per_tier state;
      if is_diamond_I tier division then
        emit (ELog LogFinishedDiamondI);; mret tt
      else run_plan matches_per_tier rest k state'
  end.

Definition plan_of (tiers : list string) : list (string * string) :=
  flat_map (fun tier => map (pair tier) (divisions_to_process tier)) tiers.

(** The buckets of a plan up to and including the first Diamond I. *)
Fixpoint visited (plan : list (string * string)) : list (string * string) :=
  match plan with
  | [] => []
  | (tier, division) :: rest =>
      (tier, division) :: (if is_diamond_I tier division then [] else visited rest)
  end.

(** The order of section 4.6 of the specification: every tier below
    the topmost with divisions I to IV, the topmost from IV down to I. *)
Definition specified_order : list (string * string) :=
  flat_map (fun tier => map (pair tier) ["I"; "II"; "III"; "IV"])
    ["IRON"; "BRONZE"; "SILVER"; "GOLD"; "PLATINUM"; "EMERALD"]
  ++ map (pair "DIAMOND") ["IV"; "III"; "II"; "I"].

(** One bucket: the log line, then the page loop from the start page. *)
Definition bucket_spec (tier division : string) (quota : Z) (state : json)
    (w : World) (r : result json) (w' : World) (added : list event) : Prop :=
  trace w' = trace w ++ ELog (LogProcessing tier division) :: added /\
  (exists used, network w = used ++ network w') /\
  Forall (bucket_event tier division) added /\
  (quota <= 0 -> added = []) /\
  (forall state', r = Ret state' -> same_elsewhere tier division state state') /\
  (hands_back_last_saved state (saved_states added) r /\
   Forall (same_elsewhere tier division state) (saved_states added)) /\
  forall page, start_page state tier division = Ret page ->
    (listing_pages tier division added = [] \/
     head (listing_pages tier division added) = Some page) /\
    (0 < quota -> head (listing_pages tier division added) = Some page) /\
    (forall n, page = JNum n ->
       page_schedule tier division n (page_events added)).




(** ** The limiter's list *)

(** Entries are in the order they were stamped. *)
Definition oldest_first (ts : list Z) : Prop := StronglySorted Z.le ts.

(** The list as [rate_limit_sleep] relies on it: oldest first, nothing
    stamped in the future, and at most one entry beyond the limit, which
    is there only while the oldest entry has already left the window. *)
Definition limiter_ok (w : World) : Prop :=
  oldest_first (request_timestamps w) /\
  Forall (fun t => t <= clock w) (request_timestamps w) /\
  ((length (request_timestamps w) <= REQUEST_LIMIT)%nat \/
   (length (request_timestamps w) = S REQUEST_LIMIT /\
    exists oldest, head (request_timestamps w) = Some oldest /\
                   oldest + WINDOW <= clock w)).

(** ** Failures of a request *)

(** The exception a response raises inside the [try] of [make_api_call],
    if it raises one: [requests.get] itself, [int] on the [Retry-After]
    header, [time.sleep] on a number that is out of range or negative,
    [raise_for_status], or [response.json]. *)
Definition failure_of (o : http_outcome) : option exn :=
  match o with
  | ConnectionFailed => Some RequestException
  | Response status_code header body =>
      if status_code =? 429 then
        match retry_after_seconds header with
        | Some seconds =>
            if (seconds <? - SLEEP_MAX_SECONDS) || (SLEEP_MAX_SECONDS <? seconds)
            then Some OverflowError
            else if seconds <? 0 then Some ValueError else None
        | None => Some ValueError
        end
      else if (400 <=? status_code) && (status_code <? 600) then Some HTTPError
      else match body with Some _ => None | None => Some JSONDecodeError end
  end.

(** ** Clients of the match index *)

(** Recording a sequence of matches, one [save_match_id_csv] each. *)
Fixpoint record_all (rows : list (json * string * string)) : M unit :=
  match rows with
  | [] => mret tt
  | (match_id, tier, division) :: rest =>
      save_match_id_csv match_id tier division;; record_all rest
  end.

(** The line of the index for one match. *)
Definition index_row (row : json * string * string) : chunk :=
  CRow [row.1.1; JStr row.1.2; JStr row.2].

(** The log line that opens a bucket. *)
Definition processing (bucket : string * string) : event :=
  ELog (LogProcessing bucket.1 bucket.2).

(** ** Counting what a bucket collects *)

(** The match files written, in order. *)
Definition match_writes (tr : list event) : list string :=
  omap (fun e => match e with EWrite MatchWrite path _ => Some path | _ => None end) tr.

Definition matches_saved (tr : list event) : Z := Z.of_nat (length (match_writes tr)).

Definition no_match_write (e : event) : Prop :=
  match e with EWrite MatchWrite _ _ => False | _ => True end.

(** ** Properties that hold of any sequence of steps *)

Definition returned {A} (r : result A) : bool :=
  match r with Ret _ => true | _ => false end.

(** [S w ok w']: a relation between the world before a computation, the
    world after it, and whether the computation returned; [m] satisfies
    it when it relates every world to the outcome of [m] in it. *)
Definition satisfies (S : World -> bool -> World -> Prop) {A} (m : M A) : Prop :=
  forall w, S w (returned (fst (m w))) (snd (m w)).

(** The relations that pass from the steps of a computation to the
    whole. *)
Record sequential (S : World -> bool -> World -> Prop) : Prop := {
  sequential_refl : forall w, S w true w;
  sequential_trans : forall w1 w2 w3 ok,
    S w1 true w2 -> S w2 ok w3 -> S w1 ok w3;
  sequential_fail : forall w1 w2, S w1 true w2 -> S w1 false w2
}.

(** ** Lookups over a run *)

(** The summoner ids looked up at the API, in order. *)
Definition summoner_lookups (tr : list event) : list json :=
  omap (fun e => match e with ECall (SummonerById id) => Some id | _ => None end) tr.

Definition quiet_event (e : event) : Prop :=
  match e with ECall (SummonerById _) => False | _ => True end.

(** Between [w] and [w'] the cache has only grown, no two lookups were
    for the same key, every lookup was for a key that [w] had not
    cached, and, if the computation returned, has cached by [w']. *)
Definition lookups_once (w : World) (ok : bool) (w' : World) : Prop :=
  puuid_cache w ⊆ puuid_cache w' /\
  exists added,
    trace w' = trace w ++ added /\
    NoDup (key_of <$> summoner_lookups added) /\
    Forall (fun id => exists key,
              key_of id = Ret key /\ puuid_cache w !! key = None /\
              (ok = true -> is_Some (puuid_cache w' !! key)))
      (summoner_lookups added).

(** ** The files over a run *)

(** Between [w] and [w'] no file has been removed: a file other than the
    checkpoint and the index holds what it held, the index has only
    got longer, and the checkpoint still holds one JSON document. *)
Definition disk_grows (w w' : World) : Prop :=
  (forall path content,
      path <> STATE_FILE -> path <> CSV_FILE ->
      files w !! path = Some content -> files w' !! path = Some content) /\
  (forall old, files w !! CSV_FILE = Some old ->
      exists more, files w' !! CSV_FILE = Some (old ++ more)) /\
  (forall state, files w !! STATE_FILE = Some [CJson state] ->
      exists state', files w' !! STATE_FILE = Some [CJson state']).

(** ** The checkpoint on disk *)

Definition no_state_write (e : event) : Prop :=
  match e with EWrite StateWrite _ _ => False | _ => True end.

(** Between [w] and [w'] the checkpoint file has followed the
    checkpoints written: it holds the last of them, and when none was
    written, a checkpoint file that existed is as it was. *)
Definition checkpoint_on_disk (w w' : World) : Prop :=
  exists added,
    trace w' = trace w ++ added /\
    (forall state, last (saved_states added) = Some state ->
       files w' !! STATE_FILE = Some [CJson state]) /\
    (saved_states added = [] -> is_Some (files w !! STATE_FILE) ->
     files w' !! STATE_FILE = files w !! STATE_FILE).

(** ** The limiter and the requests *)

(** The passes through [rate_limit_sleep] ([true]) and the
    [requests.get] ([false]) of a trace, in the order they happen. *)
Definition limiter_marks (tr : list event) : list bool :=
  omap (fun e => match e with
                 | EAdmit => Some true
                 | EGet _ => Some false
                 | _ => None
                 end) tr.

(** [n] times: one pass through the limiter, then one request. *)
Fixpoint rounds (n : nat) : list bool :=
  match n with
  | O => []
  | S n => true :: false :: rounds n
  end.

Definition unmarked (e : event) : Prop :=
  match e with EAdmit | EGet _ => False | _ => True end.

(** Between [w] and [w'] passes through the limiter and requests have
    alternated, the limiter first; a computation that did not return
    may have passed the limiter once more. *)
Definition requests_follow_limiter (w : World) (ok : bool) (w' : World) : Prop :=
  exists added n,
    trace w' = trace w ++ added /\
    (limiter_marks added = rounds n \/
     (ok = false /\ limiter_marks added = rounds n ++ [true])).

(** ** Match lists and downloads *)

(** The players whose match list was asked for, and the matches whose
    details were asked for, in order. *)
Definition match_listings (tr : list event) : list json :=
  omap (fun e => match e with ECall (MatchIdsByPuuid puuid _) => Some puuid | _ => None end)
    tr.

Definition match_downloads (tr : list event) : list json :=
  omap (fun e => match e with ECall (MatchDetail match_id) => Some match_id | _ => None end)
    tr.

Definition no_match_call (e : event) : Prop :=
  match e with ECall (MatchIdsByPuuid _ _) | ECall (MatchDetail _) => False | _ => True end.

(** ** After the quota *)

(** In [added], which starts with [collected] matches already counted:
    from the moment [quota] matches are counted, no API call is made. *)
Definition quiet_after_quota (quota collected : Z) (added : list event) : Prop :=
  forall before after,
    added = before ++ after ->
    quota <= collected + matches_saved before ->
    api_calls after = [].

(** ** Inputs of the concrete runs *)

Definition example_base_dir : string := "/home/ec2-user/riftoracle/data-collection".

(** Stands for [repr]; no example formats a list or a dict. *)
Definition example_repr (v : json) : string := "<repr>".

(** A process that has just started: clock 0, empty limiter, cache and
    disk, and the responses in [script] to come. *)
Definition fresh_world (script : list http_outcome) : World :=
  mkWorld 0 [] ∅ ∅ script [].

Definition ok (payload : json) : http_outcome := Response 200 None (Some payload).

Definition sample_match : json :=
  JObj [("metadata", JObj [("matchId", JStr "NA1_1")])].

Definition sample_players : json := JArr [JObj [("summonerId", JStr "s1")]].

(** A disk that holds only a checkpoint file. *)
Definition world_with_state (state : json) (script : list http_outcome) : World :=
  mkWorld 0 [] ∅ (<[path_join example_base_dir "state.json" := [CJson state]]> ∅) script [].

Definition silver_II_at_7 : json := JObj [("SILVER", JObj [("II", JNum 7)])].

(** * Properties *)

Opaque REQUEST_LIMIT WINDOW_SECONDS MICROS SLEEP_MAX_SECONDS RETRY_AFTER_MAX
  INT_MAX_STR_DIGITS.

Ltac run :=
  unfold mbind, M_bind, mret, M_ret, emit, modify, gets, lift, raise, stuck in *;
  simpl in *.

(** ** Rate limiter *)

Lemma REQUEST_LIMIT_pos : (0 < REQUEST_LIMIT)%nat.
Proof. Transparent REQUEST_LIMIT. unfold REQUEST_LIMIT. lia. Opaque REQUEST_LIMIT. Qed.

Lemma WINDOW_pos : 0 < WINDOW.
Proof.
  Transparent WINDOW_SECONDS MICROS. unfold WINDOW, WINDOW_SECONDS, MICROS. lia.
  Opaque WINDOW_SECONDS MICROS.
Qed.

Lemma rate_limit_sleep_run w :
  rate_limit_sleep w = (Ret tt, after_admit w).
Proof.
  unfold rate_limit_sleep, after_admit, in_window, WINDOW. run.
  destruct (Nat.leb REQUEST_LIMIT _) eqn:Hlim; simpl; [|reflexivity].
  destruct (filter _ _) as [|oldest rest] eqn:Hf; simpl.
  - apply Nat.leb_le in Hlim. simpl in Hlim. pose proof REQUEST_LIMIT_pos. lia.
  - unfold sleep. destruct (Z.max _ 0 <? 0) eqn:Hneg; [lia|].
    run. rewrite <- !app_assoc. reflexivity.
Qed.

Lemma admit_calls_cons gap rest w :
  admit_calls (gap :: rest) w =
  let w1 := set_clock (clock w + gap) w in
  let w2 := after_admit w1 in
  match admit_calls rest w2 with
  | (Ret log, w') => (Ret ((clock w1, clock w2) :: log), w')
  | (Raise e, w') => (Raise e, w')
  | (Stuck, w') => (Stuck, w')
  end.
Proof.
  simpl. unfold mbind at 1, M_bind at 1, modify at 1.
  unfold mbind at 1, M_bind at 1, gets at 1.
  unfold mbind at 1, M_bind at 1. rewrite rate_limit_sleep_run.
  unfold mbind at 1, M_bind at 1, gets at 1.
  unfold mbind at 1, M_bind at 1.
  destruct (admit_calls rest _) as [[log| |] w']; reflexivity.
Qed.

Lemma admit_calls_returns gaps w :
  exists log w', admit_calls gaps w = (Ret log, w').
Proof.
  revert w. induction gaps as [|gap rest IH]; intros w.
  - eexists _, _. reflexivity.
  - rewrite admit_calls_cons. cbv zeta.
    destruct (IH (after_admit (set_clock (clock w + gap) w))) as (log & w' & ->).
    eexists _, _. reflexivity.
Qed.

Lemma in_window_all_or_expired now ts :
  in_window now ts = ts \/ exists t, t ∈ ts /\ t + WINDOW <= now.
Proof.
  unfold in_window. induction ts as [|t ts IH]; [left; reflexivity|].
  rewrite filter_cons. destruct (decide (now - WINDOW < t)) as [Hin|Hout].
  - destruct IH as [->|(t' & Hel & Hle)]; [left; reflexivity|].
    right. exists t'. split; [right; exact Hel|exact Hle].
  - right. exists t. split; [left|lia].
Qed.

Lemma in_window_length now ts : (length (in_window now ts) <= length ts)%nat.
Proof. apply length_filter. Qed.

Lemma sublist_in_window now ts hist :
  ts `sublist_of` hist -> in_window now ts `sublist_of` in_window now hist.
Proof.
  unfold in_window. induction 1 as [|x l1 l2 Hs IH|x l1 l2 Hs IH].
  - constructor.
  - rewrite !filter_cons. destruct (decide _); [constructor|]; exact IH.
  - rewrite filter_cons. destruct (decide _); [constructor|]; exact IH.
Qed.

Lemma burst_state_first gap w :
  request_timestamps w = [] ->
  burst_state (clock w + gap) 1 (after_admit (set_clock (clock w + gap) w)).
Proof.
  intros Hts. unfold after_admit, burst_state. simpl. rewrite Hts.
  unfold in_window. rewrite filter_nil. simpl.
  destruct (Nat.leb REQUEST_LIMIT 0) eqn:Hlim.
  - apply Nat.leb_le in Hlim. pose proof REQUEST_LIMIT_pos. lia.
  - simpl. repeat split; try lia.
    + constructor; [lia|constructor].
    + left. exists []. split; reflexivity.
Qed.

Lemma burst_state_next first k gap w :
  burst_state first k w -> 0 <= gap -> (k < REQUEST_LIMIT)%nat ->
  let w2 := after_admit (set_clock (clock w + gap) w) in
  burst_state first (S k) w2 /\ clock w2 = clock w + gap.
Proof.
  intros (Hge & Hclock & Hlen & Hcase) Hgap Hk. cbv zeta.
  unfold after_admit. simpl.
  pose proof (in_window_length (clock w + gap) (request_timestamps w)) as Hwl.
  destruct (Nat.leb REQUEST_LIMIT _) eqn:Hlim.
  { apply Nat.leb_le in Hlim. lia. }
  simpl. split; [|reflexivity]. unfold burst_state. simpl.
  repeat split.
  - apply Forall_app. split.
    + rewrite Forall_forall in Hge |- *. intros t Ht.
      apply list_elem_of_filter in Ht as [_ Ht]. apply Hge, Ht.
    + constructor; [lia|constructor].
  - lia.
  - rewrite length_app. simpl. lia.
  - destruct Hcase as [(tail & Hts & Hk')|Hover]; [|right; lia].
    destruct (in_window_all_or_expired (clock w + gap) (request_timestamps w))
      as [Hall|(t & Hel & Hexp)].
    + left. rewrite Hall, Hts. exists (tail ++ [clock w + gap]).
      split; [reflexivity|]. rewrite <- Hts, length_app. simpl. lia.
    + right. rewrite Forall_forall in Hge. specialize (Hge t Hel). lia.
Qed.

Lemma burst_state_limit first gap w :
  burst_state first REQUEST_LIMIT w -> 0 <= gap ->
  first + WINDOW <= clock (after_admit (set_clock (clock w + gap) w)).
Proof.
  intros (Hge & Hclock & Hlen & Hcase) Hgap.
  unfold after_admit. simpl.
  destruct Hcase as [(tail & Hts & Hk')|Hover].
  - destruct (in_window_all_or_expired (clock w + gap) (request_timestamps w))
      as [Hall|(t & Hel & Hexp)].
    + rewrite Hall, Hk', Nat.leb_refl, Hts. simpl. lia.
    + rewrite Forall_forall in Hge. specialize (Hge t Hel).
      destruct (Nat.leb REQUEST_LIMIT _); simpl; lia.
  - destruct (Nat.leb REQUEST_LIMIT _); simpl; lia.
Qed.

Lemma burst_returns_after_window gaps : forall first k w log w',
  burst_state first k w -> (1 <= k <= REQUEST_LIMIT)%nat ->
  Forall (fun gap => 0 <= gap) gaps ->
  admit_calls gaps w = (Ret log, w') ->
  forall call, log !! (REQUEST_LIMIT - k)%nat = Some call ->
  first + WINDOW <= snd call.
Proof.
  induction gaps as [|gap rest IH]; intros first k w log w' Hst Hk Hgaps Hrun call Hcall.
  - simpl in Hrun. injection Hrun as <- <-. discriminate.
  - rewrite admit_calls_cons in Hrun. cbv zeta in Hrun.
    apply Forall_cons in Hgaps as [Hgap Hgaps].
    destruct (admit_calls rest _) as [[log'| |] w''] eqn:Hrest; try discriminate.
    injection Hrun as <- <-.
    destruct (decide (k = REQUEST_LIMIT)) as [->|Hne].
    + rewrite Nat.sub_diag in Hcall. simpl in Hcall. injection Hcall as <-.
      simpl. apply burst_state_limit; assumption.
    + destruct (burst_state_next first k gap w Hst Hgap) as [Hst' _]; [lia|].
      replace (REQUEST_LIMIT - k)%nat with (S (REQUEST_LIMIT - S k)) in Hcall by lia.
      simpl in Hcall.
      eapply (IH first (S k)); [exact Hst'|lia|exact Hgaps|exact Hrest|exact Hcall].
Qed.

Lemma below_limit_never_sleeps gaps : forall hist w log w',
  request_timestamps w `sublist_of` hist ->
  (forall j a, arrivals (clock w) gaps !! j = Some a ->
     (length (in_window a (hist ++ take j (arrivals (clock w) gaps)))
      < REQUEST_LIMIT)%nat) ->
  admit_calls gaps w = (Ret log, w') ->
  Forall (fun call => snd call = fst call) log /\
  trace w' = trace w ++ repeat EAdmit (length gaps).
Proof.
  induction gaps as [|gap rest IH]; intros hist w log w' Hsub Hrate Hrun.
  - simpl in Hrun. injection Hrun as <- <-. simpl.
    rewrite app_nil_r. split; [constructor|reflexivity].
  - rewrite admit_calls_cons in Hrun. cbv zeta in Hrun.
    destruct (admit_calls rest _) as [[log'| |] w''] eqn:Hrest; try discriminate.
    injection Hrun as <- <-.
    pose proof (Hrate 0%nat (clock w + gap) eq_refl) as H0.
    simpl in H0. rewrite app_nil_r in H0.
    pose proof (sublist_length _ _ (sublist_in_window (clock w + gap) _ _ Hsub)) as Hl.
    assert (Hadm : after_admit (set_clock (clock w + gap) w) =
                   mkWorld (clock w + gap)
                     (in_window (clock w + gap) (request_timestamps w) ++ [clock w + gap])
                     (puuid_cache w) (files w) (network w) (trace w ++ [EAdmit])).
    { unfold after_admit. simpl.
      destruct (Nat.leb REQUEST_LIMIT _) eqn:Hlim; [|reflexivity].
      apply Nat.leb_le in Hlim. lia. }
    rewrite Hadm in Hrest |- *. simpl.
    edestruct (IH (hist ++ [clock w + gap])) as [Hlog Htr]; [| |exact Hrest|].
    { simpl. apply sublist_app; [|reflexivity].
      etrans; [apply sublist_filter|exact Hsub]. }
    { simpl. intros j a Ha. rewrite <- app_assoc. simpl.
      apply (Hrate (S j) a Ha). }
    split; [constructor; [reflexivity|exact Hlog]|].
    rewrite Htr. simpl. rewrite <- app_assoc. reflexivity.
Qed.

(** C3. A fresh limiter, clients that call it after arbitrary non-negative
    pauses (no pause at all for calls issued instantaneously): every call
    returns; once more calls than [REQUEST_LIMIT] have been made, the call
    numbered [REQUEST_LIMIT + 1] returns no earlier than [WINDOW] after the
    timestamp recorded for the first call; and when at every call fewer
    than [REQUEST_LIMIT] of the earlier calls lie in the trailing window,
    no call sleeps: each returns at the instant it was made and the run
    adds nothing but the admissions to the trace. *)
Theorem rate_limiter_window (gaps : list Z) (w : World) :
  request_timestamps w = [] ->
  Forall (fun gap => 0 <= gap) gaps ->
  exists log w',
    admit_calls gaps w = (Ret log, w') /\
    length log = length gaps /\
    (forall first call,
        log !! 0%nat = Some first -> log !! REQUEST_LIMIT = Some call ->
        fst first + WINDOW <= snd call) /\
    ((forall j a, arrivals (clock w) gaps !! j = Some a ->
        (length (in_window a (take j (arrivals (clock w) gaps)))
         < REQUEST_LIMIT)%nat) ->
     Forall (fun call => snd call = fst call) log /\
     trace w' = trace w ++ repeat EAdmit (length gaps)).
Proof.
  intros Hfresh Hgaps.
  destruct (admit_calls_returns gaps w) as (log & w' & Hrun).
  exists log, w'. split; [exact Hrun|]. split; [|split].
  - clear Hfresh Hgaps. revert w log w' Hrun.
    induction gaps as [|gap rest IH]; intros w log w' Hrun.
    + simpl in Hrun. injection Hrun as <- <-. reflexivity.
    + rewrite admit_calls_cons in Hrun. cbv zeta in Hrun.
      destruct (admit_calls rest _) as [[log'| |] w''] eqn:Hrest; try discriminate.
      injection Hrun as <- <-. simpl. f_equal. eapply IH. exact Hrest.
  - intros first call Hfirst Hcall.
    destruct gaps as [|gap rest].
    { simpl in Hrun. injection Hrun as <- <-. discriminate. }
    rewrite admit_calls_cons in Hrun. cbv zeta in Hrun.
    apply Forall_cons in Hgaps as [Hgap Hgaps].
    destruct (admit_calls rest _) as [[log'| |] w''] eqn:Hrest; try discriminate.
    injection Hrun as <- <-. simpl in Hfirst. injection Hfirst as <-. simpl.
    pose proof REQUEST_LIMIT_pos as Hpos.
    replace REQUEST_LIMIT with (S (REQUEST_LIMIT - 1)) in Hcall at 1 by lia.
    simpl in Hcall.
    eapply (burst_returns_after_window rest (clock w + gap) 1);
      [apply burst_state_first; exact Hfresh|lia|exact Hgaps|exact Hrest|exact Hcall].
  - intros Hrate.
    eapply (below_limit_never_sleeps gaps []); [|exact Hrate|exact Hrun].
    rewrite Hfresh. constructor.
Qed.

(** ** API client *)

Lemma MICROS_pos : 0 < MICROS.
Proof. Transparent MICROS. unfold MICROS. lia. Opaque MICROS. Qed.

Lemma RETRY_AFTER_MAX_fits : 0 < RETRY_AFTER_MAX <= SLEEP_MAX_SECONDS.
Proof.
  Transparent RETRY_AFTER_MAX SLEEP_MAX_SECONDS.
  unfold RETRY_AFTER_MAX, SLEEP_MAX_SECONDS. lia.
  Opaque RETRY_AFTER_MAX SLEEP_MAX_SECONDS.
Qed.

Lemma throttled_slept_on o seconds : throttled o seconds -> slept_on o seconds.
Proof.
  intros (header & body & -> & Hsec & Hrange). exists header, body.
  pose proof RETRY_AFTER_MAX_fits. repeat split; [exact Hsec|lia|lia].
Qed.

(** [time.sleep] on a number of seconds in range. *)
Lemma sleep_seconds_run site seconds w :
  0 <= seconds <= SLEEP_MAX_SECONDS ->
  sleep_seconds site seconds w =
  (Ret tt,
   set_clock (clock w + seconds * MICROS)
     (set_trace (trace w ++ [ESleep site (seconds * MICROS)]) w)).
Proof.
  intros Hrange. unfold sleep_seconds, sleep. pose proof MICROS_pos.
  destruct (seconds <? - SLEEP_MAX_SECONDS) eqn:Hlow; [lia|].
  destruct (SLEEP_MAX_SECONDS <? seconds) eqn:Hhigh; [lia|].
  cbn [orb]. destruct (seconds * MICROS <? 0) eqn:Hneg; [nia|]. reflexivity.
Qed.

(** [time.sleep] on a number of seconds it refuses. *)
Lemma sleep_seconds_refused site seconds w :
  seconds < 0 \/ SLEEP_MAX_SECONDS < seconds ->
  sleep_seconds site seconds w =
  (Raise (if (seconds <? - SLEEP_MAX_SECONDS) || (SLEEP_MAX_SECONDS <? seconds)
          then OverflowError else ValueError), w).
Proof.
  intros Hrange. unfold sleep_seconds, sleep. pose proof MICROS_pos.
  pose proof RETRY_AFTER_MAX_fits.
  destruct ((seconds <? - SLEEP_MAX_SECONDS) || (SLEEP_MAX_SECONDS <? seconds)) eqn:Hout;
    [reflexivity|].
  apply orb_false_iff in Hout as [Hlow Hhigh].
  destruct (seconds * MICROS <? 0) eqn:Hneg; [reflexivity|nia].
Qed.

Lemma transport_step_refl P w : transport_step P w w.
Proof.
  repeat split; [exists []; reflexivity|].
  exists []. rewrite app_nil_r. split; [reflexivity|constructor].
Qed.

Lemma transport_step_trans P w1 w2 w3 :
  transport_step P w1 w2 -> transport_step P w2 w3 -> transport_step P w1 w3.
Proof.
  intros (Hf1 & Hc1 & (u1 & Hn1) & d1 & Ht1 & HP1)
         (Hf2 & Hc2 & (u2 & Hn2) & d2 & Ht2 & HP2).
  repeat split; try congruence.
  - exists (u1 ++ u2). rewrite Hn1, Hn2, app_assoc. reflexivity.
  - exists (d1 ++ d2). rewrite Ht2, Ht1, app_assoc. split; [reflexivity|].
    apply Forall_app; split; assumption.
Qed.

Lemma transport_step_weaken (P Q : event -> Prop) w w' :
  (forall e, P e -> Q e) -> transport_step P w w' -> transport_step Q w w'.
Proof.
  intros HPQ (Hf & Hc & Hn & d & Ht & HP). repeat split; try assumption.
  exists d. split; [assumption|]. eapply Forall_impl; eassumption.
Qed.

Lemma throttle_sleeps_app a b :
  throttle_sleeps (a ++ b) = throttle_sleeps a ++ throttle_sleeps b.
Proof. apply omap_app. Qed.

Lemma admissions_app a b : admissions (a ++ b) = (admissions a + admissions b)%nat.
Proof. unfold admissions. rewrite omap_app, length_app. reflexivity. Qed.

Lemma http_requests_app a b :
  http_requests (a ++ b) = http_requests a ++ http_requests b.
Proof. apply omap_app. Qed.

Lemma api_calls_app a b : api_calls (a ++ b) = api_calls a ++ api_calls b.
Proof. apply omap_app. Qed.

Lemma after_admit_step w : transport_step transport_event w (after_admit w).
Proof.
  unfold after_admit, transport_step.
  destruct (Nat.leb REQUEST_LIMIT _); simpl;
    (repeat split; [exists []; reflexivity|]);
    eexists; (split; [reflexivity|]); repeat constructor.
Qed.

Lemma after_admit_admissions w :
  exists added, trace (after_admit w) = trace w ++ added /\
    admissions added = 1%nat /\ throttle_sleeps added = [] /\
    http_requests added = [] /\ Forall transport_event added.
Proof.
  unfold after_admit. destruct (Nat.leb REQUEST_LIMIT _); simpl;
    eexists; (split; [reflexivity|]); repeat split; repeat constructor.
Qed.

(** One turn of the loop of [make_api_call]. *)
Lemma api_loop_cons o rest req w :
  api_loop (o :: rest) req w =
  let w1 := set_trace (trace (after_admit w) ++ [EGet req])
              (set_network rest (after_admit w)) in
  match try_except (handle_response o)
          (fun e => emit (ELog (LogApiError e));; mret (Return JNull)) w1 with
  | (Ret Retry, w2) => api_loop rest req w2
  | (Ret (Return v), w2) => (Ret v, w2)
  | (Raise e, w2) => (Raise e, w2)
  | (Stuck, w2) => (Stuck, w2)
  end.
Proof.
  simpl. unfold mbind at 1, M_bind at 1. rewrite rate_limit_sleep_run.
  unfold mbind at 1, M_bind at 1, modify at 1.
  unfold mbind at 1, M_bind at 1, emit at 1, modify at 1.
  unfold mbind at 1, M_bind at 1. cbv zeta.
  destruct (try_except _ _ _) as [[[|v]| |] w2]; reflexivity.
Qed.

Lemma api_loop_nil req w : api_loop [] req w = (Stuck, after_admit w).
Proof.
  simpl. unfold mbind at 1, M_bind at 1. rewrite rate_limit_sleep_run. reflexivity.
Qed.

(** A throttling response: log, sleep, go round again. *)
Lemma attempt_slept_on o seconds w :
  slept_on o seconds ->
  try_except (handle_response o)
    (fun e => emit (ELog (LogApiError e));; mret (Return JNull)) w =
  (Ret Retry,
   set_clock (clock w + seconds * MICROS)
     (set_trace (trace w ++ [ELog (Log429 seconds);
                             ESleep ThrottleSleep (seconds * MICROS)]) w)).
Proof.
  intros (header & body & -> & Hsec & Hrange).
  unfold try_except, handle_response. rewrite Z.eqb_refl.
  assert (Hint : py_int (PVal (from_option JStr (JNum 10) header)) = Ret seconds).
  { destruct header as [text|]; simpl in *; [rewrite Hsec; reflexivity|congruence]. }
  unfold mbind at 1, M_bind at 1, lift at 1. rewrite Hint.
  unfold mbind at 1, M_bind at 1, emit at 1, modify at 1.
  unfold mbind at 1, M_bind at 1. rewrite sleep_seconds_run by exact Hrange.
  cbn [trace clock set_trace set_clock]. rewrite <- app_assoc. reflexivity.
Qed.

Lemma attempt_throttled o seconds w :
  throttled o seconds ->
  try_except (handle_response o)
    (fun e => emit (ELog (LogApiError e));; mret (Return JNull)) w =
  (Ret Retry,
   set_clock (clock w + seconds * MICROS)
     (set_trace (trace w ++ [ELog (Log429 seconds);
                             ESleep ThrottleSleep (seconds * MICROS)]) w)).
Proof. intros Hthr. apply attempt_slept_on, throttled_slept_on, Hthr. Qed.

Lemma succeeds_final_value o payload :
  succeeds o payload -> final_value o = Some payload.
Proof.
  intros (status_code & header & -> & H429 & Hstatus). simpl.
  destruct (status_code =? 429) eqn:E; [lia|].
  destruct ((400 <=? status_code) && (status_code <? 600)) eqn:E'; [lia|].
  reflexivity.
Qed.

Lemma py_int_retry_after header :
  py_int (PVal (from_option JStr (JNum 10) header)) =
  match retry_after_seconds header with
  | Some seconds => Ret seconds
  | None => Raise ValueError
  end.
Proof. destruct header as [text|]; simpl; [|reflexivity]. destruct (int_of_string text); reflexivity. Qed.

(** A response that ends the call: its value is returned, and nothing but
    log lines is added. *)
Lemma attempt_final o v w :
  final_value o = Some v ->
  exists added,
    try_except (handle_response o)
      (fun e => emit (ELog (LogApiError e));; mret (Return JNull)) w =
    (Ret (Return v), set_trace (trace w ++ added) w) /\
    Forall log_event added.
Proof.
  unfold try_except, handle_response, final_value.
  destruct o as [|status_code header body].
  { intros [= <-]. run. eexists. split; [reflexivity|]. repeat constructor. }
  destruct (status_code =? 429) eqn:E.
  - unfold mbind at 1, M_bind at 1, lift at 1. rewrite py_int_retry_after.
    destruct (retry_after_seconds header) as [seconds|].
    + destruct ((seconds <? 0) || (SLEEP_MAX_SECONDS <? seconds)) eqn:Hout;
        [|discriminate].
      intros [= <-].
      unfold mbind at 1, M_bind at 1, emit at 1, modify at 1.
      unfold mbind at 1, M_bind at 1.
      rewrite sleep_seconds_refused by (apply orb_true_iff in Hout; lia).
      run. eexists. rewrite <- app_assoc. split; [reflexivity|]. repeat constructor.
    + intros [= <-]. run. eexists. split; [reflexivity|]. repeat constructor.
  - destruct ((400 <=? status_code) && (status_code <? 600)).
    + intros [= <-]. run. eexists. split; [reflexivity|]. repeat constructor.
    + destruct body as [v'|]; intros [= <-]; run.
      * exists []. rewrite app_nil_r. destruct w; split; [reflexivity|constructor].
      * eexists. split; [reflexivity|]. repeat constructor.
Qed.

Lemma log_events_projections added :
  Forall log_event added ->
  throttle_sleeps added = [] /\ admissions added = 0%nat /\
  http_requests added = [] /\ api_calls added = [] /\
  Forall transport_event added.
Proof.
  induction 1 as [|e added He _ (IH1 & IH2 & IH3 & IH4 & IH5)];
    [repeat split; constructor|].
  destruct e as [| | | | | | | |m]; try contradiction.
  unfold throttle_sleeps, admissions, http_requests, api_calls in *. simpl.
  repeat split; try assumption.
  constructor; [destruct m; try exact I; contradiction|assumption].
Qed.

Lemma py_int_not_stuck o : py_int o <> Stuck.
Proof.
  destruct o as [[| | |text| |]|]; simpl; try discriminate.
  destruct (int_of_string text); discriminate.
Qed.

(** Whatever the response, the turn ends normally and touches nothing but
    the clock and the trace. *)
Lemma attempt_step o w :
  exists a w',
    try_except (handle_response o)
      (fun e => emit (ELog (LogApiError e));; mret (Return JNull)) w = (Ret a, w') /\
    network w' = network w /\
    transport_step transport_event w w'.
Proof.
  unfold try_except, handle_response, transport_step.
  destruct o as [|status_code header body].
  { run. eexists _, _. split; [reflexivity|]. simpl.
    repeat split; [exists []; reflexivity|].
    eexists. split; [reflexivity|]. repeat constructor. }
  destruct (status_code =? 429) eqn:E.
  - unfold mbind at 1, M_bind at 1, lift at 1.
    destruct (py_int _) as [n| |] eqn:Hint; cycle 1.
    + run. eexists _, _. split; [reflexivity|]. simpl.
      repeat split; [exists []; reflexivity|].
      eexists. split; [reflexivity|]. repeat constructor.
    + exfalso. eapply py_int_not_stuck, Hint.
    + unfold sleep_seconds, sleep.
      destruct ((n <? - SLEEP_MAX_SECONDS) || (SLEEP_MAX_SECONDS <? n));
        [|destruct (n * MICROS <? 0)]; run.
      * eexists _, _. split; [reflexivity|]. simpl.
        repeat split; [exists []; reflexivity|].
        eexists. rewrite <- app_assoc. split; [reflexivity|]. repeat constructor.
      * eexists _, _. split; [reflexivity|]. simpl.
        repeat split; [exists []; reflexivity|].
        eexists. rewrite <- app_assoc. split; [reflexivity|]. repeat constructor.
      * eexists _, _. split; [reflexivity|]. simpl.
        repeat split; [exists []; reflexivity|].
        eexists. rewrite <- app_assoc. split; [reflexivity|]. repeat constructor.
  - destruct ((400 <=? status_code) && (status_code <? 600)); run.
    + eexists _, _. split; [reflexivity|]. simpl.
      repeat split; [exists []; reflexivity|].
      eexists. split; [reflexivity|]. repeat constructor.
    + destruct body as [v|]; run.
      * eexists _, _. split; [reflexivity|]. simpl.
        repeat split; [exists []; reflexivity|].
        exists []. rewrite app_nil_r. split; [reflexivity|constructor].
      * eexists _, _. split; [reflexivity|]. simpl.
        repeat split; [exists []; reflexivity|].
        eexists. split; [reflexivity|]. repeat constructor.
Qed.

Lemma api_loop_frame req script : forall w,
  exists r w',
    api_loop script req w = (r, w') /\
    files w' = files w /\ puuid_cache w' = puuid_cache w /\
    (exists added, trace w' = trace w ++ added /\ Forall transport_event added) /\
    ((r = Stuck /\ (script = [] -> network w' = network w)
                /\ (script <> [] -> network w' = []))
     \/ exists v used, r = Ret v /\ used <> [] /\ script = used ++ network w').
Proof.
  induction script as [|o rest IH]; intros w.
  - rewrite api_loop_nil. eexists _, _. split; [reflexivity|].
    destruct (after_admit_step w) as (Hf & Hc & _ & Ht).
    repeat split; try assumption. left. repeat split; [|congruence].
    intros _. unfold after_admit. destruct (Nat.leb _ _); reflexivity.
  - rewrite api_loop_cons. cbv zeta.
    destruct (after_admit_step w) as (Hf & Hc & _ & d0 & Ht0 & HP0).
    set (w1 := set_trace _ _).
    destruct (attempt_step o w1) as (a & w2 & -> & Hn2 & Hf2 & Hc2 & _ & d2 & Ht2 & HP2).
    assert (Htr : trace w2 = trace w ++ (d0 ++ [EGet req] ++ d2)).
    { rewrite Ht2. subst w1. simpl. rewrite Ht0, <- !app_assoc. reflexivity. }
    assert (HP : Forall transport_event (d0 ++ [EGet req] ++ d2)).
    { apply Forall_app; split; [assumption|].
      apply Forall_app; split; [repeat constructor|assumption]. }
    destruct a as [|v].
    + destruct (IH w2) as (r & w' & -> & Hf' & Hc' & (d' & Ht' & HP') & Hres).
      eexists _, _. split; [reflexivity|].
      split; [rewrite Hf', Hf2; exact Hf|]. split; [rewrite Hc', Hc2; exact Hc|].
      split.
      { eexists. rewrite Ht', Htr, <- app_assoc. split; [reflexivity|].
        apply Forall_app; split; assumption. }
      destruct Hres as [(-> & Hnil & Hcons)|(v & used & -> & Hused & Hscript)].
      * left. repeat split; [discriminate|]. intros _.
        destruct rest as [|o' rest']; [|apply Hcons; discriminate].
        rewrite Hnil by reflexivity. rewrite Hn2. reflexivity.
      * right. exists v, (o :: used). repeat split; [discriminate|].
        rewrite Hscript. reflexivity.
    + eexists _, _. split; [reflexivity|].
      split; [rewrite Hf2; exact Hf|]. split; [rewrite Hc2; exact Hc|].
      split; [eexists; split; [exact Htr|exact HP]|].
      right. exists v, [o]. repeat split; [discriminate|].
      rewrite Hn2. reflexivity.
Qed.

(** [make_api_call] either returns a value, having used up part of the
    script, or waits for responses that never come; it raises nothing and
    leaves files and cache alone. *)
Lemma make_api_call_frame req w :
  exists r w',
    make_api_call req w = (r, w') /\
    files w' = files w /\ puuid_cache w' = puuid_cache w /\
    (exists added, trace w' = trace w ++ ECall req :: added /\
                   Forall transport_event added) /\
    (exists used, network w = used ++ network w' /\
                  ((r = Stuck) \/ (exists v, r = Ret v /\ used <> []))).
Proof.
  unfold make_api_call.
  unfold mbind at 1, M_bind at 1, emit at 1, modify at 1.
  unfold mbind at 1, M_bind at 1, gets at 1. simpl.
  destruct (api_loop_frame req (network w) (set_trace (trace w ++ [ECall req]) w))
    as (r & w' & -> & Hf & Hc & (d & Ht & HP) & Hres).
  eexists _, _. split; [reflexivity|]. simpl in *.
  repeat split; try assumption.
  - exists d. rewrite Ht, <- app_assoc. split; [reflexivity|assumption].
  - destruct Hres as [(-> & Hnil & Hcons)|(v & used & -> & Hused & Hscript)].
    + destruct (network w) as [|o rest] eqn:Hnet.
      * exists []. rewrite Hnil by reflexivity. split; [reflexivity|left; reflexivity].
      * exists (o :: rest). rewrite Hcons by discriminate.
        rewrite app_nil_r. split; [reflexivity|left; reflexivity].
    + exists used. split; [exact Hscript|]. right. exists v. split; [reflexivity|assumption].
Qed.

(** The loop on a script of throttling responses followed by one that
    ends the call. *)
Lemma api_loop_retries req retries : forall delays final v rest w,
  Forall2 slept_on retries delays ->
  final_value final = Some v ->
  exists w' added,
    api_loop (retries ++ final :: rest) req w = (Ret v, w') /\
    network w' = rest /\
    files w' = files w /\ puuid_cache w' = puuid_cache w /\
    trace w' = trace w ++ added /\
    Forall transport_event added /\
    throttle_sleeps added = map (fun s => s * MICROS) delays /\
    admissions added = S (length retries) /\
    http_requests added = repeat req (S (length retries)).
Proof.
  induction retries as [|o retries IH]; intros delays final v rest w Hthr Hok.
  - apply Forall2_nil_inv_l in Hthr as ->. simpl app.
    rewrite api_loop_cons. cbv zeta.
    match goal with |- context [try_except _ _ ?w1] =>
      destruct (attempt_final final v w1 Hok) as (d1 & -> & Hlog) end.
    destruct (log_events_projections d1 Hlog) as (Hs1 & Ha1 & Hg1 & _ & HP1).
    destruct (after_admit_admissions w) as (d0 & Ht0 & Ha0 & Hs0 & Hg0 & HP0).
    destruct (after_admit_step w) as (Hf & Hc & _).
    exists (set_trace
              (trace (set_trace (trace (after_admit w) ++ [EGet req])
                        (set_network rest (after_admit w))) ++ d1)
              (set_trace (trace (after_admit w) ++ [EGet req])
                 (set_network rest (after_admit w)))),
           (d0 ++ [EGet req] ++ d1).
    split; [reflexivity|]. split; [reflexivity|].
    split; [exact Hf|]. split; [exact Hc|].
    split; [cbn [trace set_trace]; rewrite Ht0, <- !app_assoc; reflexivity|].
    split.
    { apply Forall_app; split; [assumption|].
      apply Forall_app; split; [repeat constructor|assumption]. }
    rewrite !throttle_sleeps_app, !admissions_app, !http_requests_app.
    rewrite Hs0, Hg0, Hs1, Hg1, Ha0, Ha1. repeat split.
  - apply Forall2_cons_inv_l in Hthr as (seconds & delays' & Hsec & Hthr & ->).
    simpl app. rewrite api_loop_cons. cbv zeta.
    rewrite (attempt_slept_on _ _ _ Hsec).
    destruct (after_admit_admissions w) as (d0 & Ht0 & Ha0 & Hs0 & Hg0 & HP0).
    destruct (after_admit_step w) as (Hf0 & Hc0 & _).
    match goal with |- context [api_loop _ req ?w2] =>
      destruct (IH delays' final v rest w2 Hthr Hok)
        as (w' & d' & -> & Hn & Hf & Hc & Ht & HP & Hs & Ha & Hg)
    end.
    exists w', (d0 ++ [EGet req; ELog (Log429 seconds);
                       ESleep ThrottleSleep (seconds * MICROS)] ++ d').
    split; [reflexivity|]. split; [exact Hn|].
    split; [rewrite Hf; exact Hf0|]. split; [rewrite Hc; exact Hc0|].
    split; [rewrite Ht; cbn [trace set_trace set_clock set_network];
            rewrite Ht0, <- !app_assoc; reflexivity|].
    split.
    { apply Forall_app; split; [assumption|].
      apply Forall_app; split; [repeat constructor|assumption]. }
    rewrite !throttle_sleeps_app, !admissions_app, !http_requests_app.
    rewrite Hs0, Hg0, Ha0, Hs, Ha, Hg. repeat split.
Qed.

(** A call whose script holds, after some throttling, a response that
    ends it: the value, and what the world looks like afterwards. *)
Lemma make_api_call_slept_answers req retries delays final v rest w :
  Forall2 slept_on retries delays ->
  final_value final = Some v ->
  network w = retries ++ final :: rest ->
  exists w' added,
    make_api_call req w = (Ret v, w') /\
    network w' = rest /\
    files w' = files w /\ puuid_cache w' = puuid_cache w /\
    trace w' = trace w ++ ECall req :: added /\
    Forall transport_event added /\
    throttle_sleeps added = map (fun s => s * MICROS) delays /\
    admissions added = S (length retries) /\
    http_requests added = repeat req (S (length retries)).
Proof.
  intros Hthr Hok Hnet. unfold make_api_call.
  unfold mbind at 1, M_bind at 1, emit at 1, modify at 1.
  unfold mbind at 1, M_bind at 1, gets at 1. simpl. rewrite Hnet.
  destruct (api_loop_retries req retries delays final v rest
              (set_trace (trace w ++ [ECall req]) w) Hthr Hok)
    as (w' & added & -> & Hn & Hf & Hc & Ht & HP & Hs & Ha & Hg).
  exists w', added. split; [reflexivity|]. split; [exact Hn|].
  split; [exact Hf|]. split; [exact Hc|].
  split; [rewrite Ht; simpl; rewrite <- app_assoc; reflexivity|].
  repeat split; assumption.
Qed.

Lemma make_api_call_answers req retries delays final v rest w :
  Forall2 throttled retries delays ->
  final_value final = Some v ->
  network w = retries ++ final :: rest ->
  exists w' added,
    make_api_call req w = (Ret v, w') /\
    network w' = rest /\
    files w' = files w /\ puuid_cache w' = puuid_cache w /\
    trace w' = trace w ++ ECall req :: added /\
    Forall transport_event added /\
    throttle_sleeps added = map (fun s => s * MICROS) delays /\
    admissions added = S (length retries) /\
    http_requests added = repeat req (S (length retries)).
Proof.
  intros Hthr. apply make_api_call_slept_answers.
  eapply Forall2_impl; [exact Hthr|exact throttled_slept_on].
Qed.

(** C2, as the code has it.  The server answers any number of times with
    429, each with no [Retry-After] header or one that [int] reads as a
    number of seconds from 0 to [RETRY_AFTER_MAX].  If a good response
    follows, the call returns its payload.  If what follows is a 429
    whose [Retry-After] header [int] cannot read, or reads as a number
    that [time.sleep] refuses (a negative one, or one beyond
    [SLEEP_MAX_SECONDS]), the call returns [None] and does not sleep on
    that response.  Either way the call has slept, in order, the seconds
    each of the earlier 429 asked for (10 where the header was absent),
    has passed the rate limiter once per attempt and has issued one
    request per attempt, and the rest of the script is untouched. *)
Theorem make_api_call_retries_until_success
    (req : request) (retries : list http_outcome) (delays : list Z)
    (final : http_outcome) (rest : list http_outcome) (w : World) :
  Forall2 throttled retries delays ->
  network w = retries ++ final :: rest ->
  forall result,
    succeeds final result \/
    (result = JNull /\ exists header body,
        final = Response 429 (Some header) body /\
        (int_of_string header = None \/
         exists seconds, int_of_string header = Some seconds /\
                         (seconds < 0 \/ SLEEP_MAX_SECONDS < seconds))) ->
    exists w' added,
      make_api_call req w = (Ret result, w') /\
      network w' = rest /\
      trace w' = trace w ++ ECall req :: added /\
      throttle_sleeps added = map (fun s => s * MICROS) delays /\
      admissions added = S (length retries) /\
      http_requests added = repeat req (S (length retries)).
Proof.
  intros Hthr Hnet result Hfinal.
  assert (Hvalue : final_value final = Some result).
  { destruct Hfinal as [Hok|(-> & header & body & -> & Hbad)].
    - apply succeeds_final_value, Hok.
    - simpl. destruct Hbad as [->|(seconds & -> & Hout)]; [reflexivity|].
      destruct (seconds <? 0) eqn:Hneg; [reflexivity|].
      destruct (SLEEP_MAX_SECONDS <? seconds) eqn:Hbig; [reflexivity|lia]. }
  destruct (make_api_call_answers req retries delays final result rest w Hthr
              Hvalue Hnet)
    as (w' & added & Hrun & Hn & _ & _ & Ht & _ & Hs & Ha & Hg).
  exists w', added. repeat split; assumption.
Qed.

(** ** PUUID cache *)

Lemma transport_events_no_calls added :
  Forall transport_event added -> api_calls added = [].
Proof.
  induction 1 as [|e added He _ IH]; [reflexivity|].
  destruct e; try contradiction; exact IH.
Qed.

(** C7. A summoner id that can be a [dict] key and is not cached yet, and
    a script in which the lookup is answered (after any throttling) with
    a value [data] that is an object or falsy, failures included: the
    call returns the ["puuid"] field, or [None] when there is none; it
    makes exactly one API call, the lookup of this id; the result, null
    or not, is in the cache afterwards; and in any world whose cache holds
    that entry, a call with the same id returns it and leaves the world
    as it is, without any call.  (The one API call is one HTTP request
    when the server does not throttle, one more per 429 otherwise.) *)
Theorem get_puuid_looks_up_once
    (summoner_id : json) (key : pykey)
    (retries : list http_outcome) (delays : list Z) (final : http_outcome)
    (data : json) (rest : list http_outcome) (w : World) :
  key_of summoner_id = Ret key ->
  puuid_cache w !! key = None ->
  Forall2 throttled retries delays ->
  final_value final = Some data ->
  object_or_falsy data ->
  network w = retries ++ final :: rest ->
  exists w1 added,
    get_puuid summoner_id w = (Ret (puuid_of data), w1) /\
    trace w1 = trace w ++ added /\
    api_calls added = [SummonerById summoner_id] /\
    http_requests added = repeat (SummonerById summoner_id) (S (length retries)) /\
    puuid_cache w1 = <[key := puuid_of data]> (puuid_cache w) /\
    (truthy data = false -> puuid_cache w1 !! key = Some JNull) /\
    forall w2, puuid_cache w2 !! key = Some (puuid_of data) ->
      get_puuid summoner_id w2 = (Ret (puuid_of data), w2).
Proof.
  intros Hkey Hmiss Hthr Hfinal Htyped Hnet.
  destruct (make_api_call_answers (SummonerById summoner_id) retries delays final
              data rest w Hthr Hfinal Hnet)
    as (w' & added & Hrun & Hn & Hf & Hc & Ht & HP & _ & _ & Hg).
  assert (Hget : (if truthy data then lift (py_dict_get data "puuid" JNull)
                  else mret JNull) w' = (Ret (puuid_of data), w')).
  { destruct (truthy data) eqn:Htruthy.
    - destruct (Htyped Htruthy) as (fields & ->). unfold lift. simpl.
      destruct (assoc_get "puuid" fields); reflexivity.
    - destruct data as [| | | | |fields]; try reflexivity.
      destruct fields; [reflexivity|discriminate]. }
  exists (set_puuid_cache (<[key := puuid_of data]> (puuid_cache w')) w'),
         (ECall (SummonerById summoner_id) :: added).
  split; [|split; [|split; [|split; [|split; [|split]]]]].
  - unfold get_puuid.
    unfold mbind at 1, M_bind at 1, lift at 1. rewrite Hkey.
    unfold mbind at 1, M_bind at 1, gets at 1. rewrite Hmiss.
    unfold mbind at 1, M_bind at 1. rewrite Hrun.
    unfold mbind at 1, M_bind at 1. rewrite Hget.
    reflexivity.
  - exact Ht.
  - change (ECall (SummonerById summoner_id) :: added)
      with ([ECall (SummonerById summoner_id)] ++ added).
    rewrite api_calls_app, (transport_events_no_calls _ HP). reflexivity.
  - exact Hg.
  - simpl. rewrite Hc. reflexivity.
  - intros Hfalsy. simpl. rewrite lookup_insert_eq. f_equal.
    destruct data as [| | | | |fields]; try reflexivity.
    destruct fields; [reflexivity|discriminate].
  - intros w2 Hhit. unfold get_puuid.
    unfold mbind at 1, M_bind at 1, lift at 1. rewrite Hkey.
    unfold mbind at 1, M_bind at 1, gets at 1. rewrite Hhit. reflexivity.
Qed.

(** ** Match archive *)

Lemma last_char_app a b : b <> "" -> last_char (a +:+ b) = last_char b.
Proof.
  intros Hb. induction a as [|c a IH]; [reflexivity|].
  simpl. destruct (a +:+ b) eqn:E; [|exact IH].
  destruct a; simpl in E; [contradiction|discriminate].
Qed.

Lemma last_char_path_join a b : b <> "" -> last_char (path_join a b) = last_char b.
Proof.
  intros Hb. unfold path_join.
  destruct (starts_with_sep b); [reflexivity|].
  destruct (_ || _).
  - apply last_char_app, Hb.
  - rewrite last_char_app; [apply last_char_app, Hb|].
    destruct b; [contradiction|discriminate].
Qed.

Lemma match_file_not_index match_id tier division :
  match_file match_id tier division <> CSV_FILE.
Proof.
  intros Heq. apply (f_equal last_char) in Heq.
  unfold match_file, CSV_FILE in Heq.
  rewrite !last_char_path_join in Heq.
  - rewrite last_char_app in Heq; discriminate.
  - discriminate.
  - destruct (py_str match_id); discriminate.
Qed.

Lemma transport_events_no_writes added :
  Forall transport_event added -> file_writes added = [] /\ csv_rows added = [].
Proof.
  induction 1 as [|e added He _ IH]; [split; reflexivity|].
  destruct e; try contradiction; exact IH.
Qed.

Lemma file_writes_app a b : file_writes (a ++ b) = file_writes a ++ file_writes b.
Proof. apply omap_app. Qed.

Lemma csv_rows_app a b : csv_rows (a ++ b) = csv_rows a ++ csv_rows b.
Proof. apply omap_app. Qed.

Lemma append_assoc a b c : (a +:+ b) +:+ c = a +:+ (b +:+ c).
Proof.
  induction a as [|x a IH]; [reflexivity|].
  change (String x ((a +:+ b) +:+ c) = String x (a +:+ (b +:+ c))).
  f_equal. exact IH.
Qed.

Lemma append_cancel_l a b c : a +:+ b = a +:+ c -> b = c.
Proof.
  induction a as [|x a IH]; [auto|].
  change (String x (a +:+ b) = String x (a +:+ c) -> b = c).
  intros [= H]. apply IH, H.
Qed.


Lemma has_sep_append a b : has_sep (a +:+ b) = has_sep a || has_sep b.
Proof.
  induction a as [|c a IH]; [reflexivity|].
  change (String c a +:+ b) with (String c (a +:+ b)). cbn [has_sep].
  rewrite IH, orb_assoc. reflexivity.
Qed.


Lemma ends_with_sep_last_char s :
  ends_with_sep s = match last_char s with Some c => Ascii.eqb c "/" | None => false end.
Proof.
  induction s as [|c s IH]; [reflexivity|].
  destruct s as [|c' s]; [reflexivity|]. exact IH.
Qed.

Lemma plain_last_char s : plain s -> exists c, last_char s = Some c /\ Ascii.eqb c "/" = false.
Proof.
  intros [Hne Hsep]. induction s as [|c s IH]; [contradiction|].
  simpl in Hsep. apply orb_false_iff in Hsep as [Hc Hs].
  destruct s as [|c' s]; [exists c; split; [reflexivity|exact Hc]|].
  apply IH; [discriminate|exact Hs].
Qed.

Lemma plain_starts s : plain s -> starts_with_sep s = false.
Proof.
  intros [Hne Hsep]. destruct s as [|c s]; [reflexivity|].
  simpl in Hsep |- *. apply orb_false_iff in Hsep as [Hc _]. exact Hc.
Qed.

(** Joining a component to a directory that does not end with a
    separator. *)
Lemma path_join_component a b c :
  last_char a = Some c -> Ascii.eqb c "/" = false ->
  starts_with_sep b = false ->
  path_join a b = a +:+ "/" +:+ b.
Proof.
  intros Hlast Hc Hb. unfold path_join. rewrite Hb.
  rewrite ends_with_sep_last_char, Hlast, Hc.
  destruct a as [|x a]; [discriminate|reflexivity].
Qed.

Lemma match_file_closed_form match_id tier division :
  plain (lower tier) -> plain division -> starts_with_sep (py_str match_id) = false ->
  match_file match_id tier division =
  MATCHES_DIR +:+ "/" +:+ lower tier +:+ "/" +:+ division +:+ "/"
    +:+ py_str match_id +:+ ".json".
Proof.
  intros Htier Hdivision Hid. unfold match_file, match_folder.
  destruct (plain_last_char _ Htier) as (ct & Hlt & Hct).
  destruct (plain_last_char _ Hdivision) as (cd & Hld & Hcd).
  assert (Hm : last_char MATCHES_DIR = Some "s"%char).
  { unfold MATCHES_DIR. rewrite last_char_path_join by discriminate. reflexivity. }
  rewrite (path_join_component MATCHES_DIR (lower tier) "s" Hm eq_refl
             (plain_starts _ Htier)).
  rewrite (path_join_component _ division ct); [| |exact Hct|apply plain_starts, Hdivision].
  2:{ rewrite last_char_app;
        [rewrite last_char_app; [exact Hlt|apply Htier]|].
      destruct (lower tier); discriminate. }
  rewrite (path_join_component _ (py_str match_id +:+ ".json") cd); [| |exact Hcd|].
  - rewrite !append_assoc. reflexivity.
  - rewrite last_char_app;
      [rewrite last_char_app; [exact Hld|apply Hdivision]|].
    destruct division; discriminate.
  - destruct (py_str match_id); [reflexivity|exact Hid].
Qed.

(** Two names without separator are read off unambiguously from what
    precedes the first separator. *)
Lemma split_at_sep a : forall a' r r',
  has_sep a = false -> has_sep a' = false ->
  a +:+ String "/" r = a' +:+ String "/" r' -> a = a' /\ r = r'.
Proof.
  induction a as [|x a IH]; intros [|x' a'] r r' Ha Ha' Heq; cbn [has_sep] in Ha, Ha'.
  - injection Heq as ->. split; reflexivity.
  - change (String "/" r = String x' (a' +:+ String "/" r')) in Heq.
    injection Heq as <- _. apply orb_false_iff in Ha' as [Hx _]. discriminate.
  - change (String x (a +:+ String "/" r) = String "/" r') in Heq.
    injection Heq as -> _. apply orb_false_iff in Ha as [Hx _]. discriminate.
  - change (String x (a +:+ String "/" r) = String x' (a' +:+ String "/" r')) in Heq.
    injection Heq as -> Heq.
    apply orb_false_iff in Ha as [_ Ha]. apply orb_false_iff in Ha' as [_ Ha'].
    destruct (IH a' r r' Ha Ha' Heq) as [-> ->]. split; reflexivity.
Qed.

Lemma tiers_plain tier : tier ∈ TIERS -> plain (lower tier).
Proof.
  intros Hin. unfold TIERS in Hin.
  repeat (apply elem_of_cons in Hin as [->|Hin]);
    [split; [discriminate|reflexivity] ..|inversion Hin].
Qed.

Lemma divisions_plain division : division ∈ DIVISIONS -> plain division.
Proof.
  intros Hin. unfold DIVISIONS in Hin.
  repeat (apply elem_of_cons in Hin as [->|Hin]);
    [split; [discriminate|reflexivity] ..|inversion Hin].
Qed.


(** The file of a match id that names a file lies in the folder of its
    bucket. *)
Lemma match_file_in_folder match_id tier division :
  tier ∈ TIERS -> division ∈ DIVISIONS -> names_a_file match_id ->
  match_file match_id tier division =
  MATCHES_DIR +:+ "/" +:+ lower tier +:+ "/" +:+ division +:+ "/"
    +:+ py_str match_id +:+ ".json".
Proof.
  intros Ht Hd (Hsep & _ & _).
  apply match_file_closed_form; [apply tiers_plain, Ht|apply divisions_plain, Hd|].
  rewrite has_sep_append in Hsep. apply orb_false_iff in Hsep as [Hsep _].
  destruct (py_str match_id) as [|c rest]; [reflexivity|].
  cbn [has_sep] in Hsep. apply orb_false_iff in Hsep as [Hc _]. exact Hc.
Qed.

(** A match that is already archived: nothing happens beyond the
    [os.makedirs]. *)
Lemma save_match_archived match_id tier division w :
  is_Some (files w !! match_file match_id tier division) ->
  save_match match_id tier division w =
  (Ret false, set_trace (trace w ++ [EMakedirs (match_folder tier division)]) w).
Proof.
  intros Hsome. unfold save_match.
  unfold mbind at 1, M_bind at 1, emit at 1, modify at 1.
  unfold mbind at 1, M_bind at 1, path_exists at 1, gets at 1.
  cbn [files set_trace].
  fold (match_folder tier division). fold (match_file match_id tier division).
  rewrite bool_decide_eq_true_2 by exact Hsome. reflexivity.
Qed.

(** A match that is not archived yet, whose detail call is answered
    with [data]. *)
Lemma save_match_fetches match_id tier division retries delays final data rest w :
  files w !! match_file match_id tier division = None ->
  Forall2 throttled retries delays ->
  final_value final = Some data ->
  network w = retries ++ final :: rest ->
  exists w1 added,
    make_api_call (MatchDetail match_id)
      (set_trace (trace w ++ [EMakedirs (match_folder tier division)]) w)
    = (Ret data, w1) /\
    files w1 = files w /\ network w1 = rest /\
    trace w1 = trace w ++ EMakedirs (match_folder tier division)
                       :: ECall (MatchDetail match_id) :: added /\
    Forall transport_event added /\
    http_requests added = repeat (MatchDetail match_id) (S (length retries)) /\
    save_match match_id tier division w =
    if truthy data then
      (Ret true,
       set_trace (trace w1 ++
                    [EWrite MatchWrite (match_file match_id tier division) data] ++
                    (if bool_decide (is_Some (files w !! CSV_FILE)) then []
                     else [EAppendRow CSV_FILE csv_header]) ++
                    [EAppendRow CSV_FILE [match_id; JStr tier; JStr division];
                     ELog (LogSaved match_id tier division)])
         (set_files
            (<[CSV_FILE := index_with [match_id; JStr tier; JStr division]
                             (files w !! CSV_FILE)]>
               (<[match_file match_id tier division := [CJson data]]> (files w)))
            w1))
    else (Ret false, w1).
Proof.
  intros Hnew Hthr Hfinal Hnet.
  set (w0 := set_trace (trace w ++ [EMakedirs (match_folder tier division)]) w).
  destruct (make_api_call_answers (MatchDetail match_id) retries delays final
              data rest w0 Hthr Hfinal Hnet)
    as (w1 & added & Hrun & Hn & Hf & Hc & Ht & HP & _ & _ & Hg).
  exists w1, added. split; [exact Hrun|]. split; [exact Hf|]. split; [exact Hn|].
  split; [rewrite Ht; subst w0; simpl; rewrite <- app_assoc; reflexivity|].
  split; [exact HP|]. split; [exact Hg|].
  unfold save_match.
  unfold mbind at 1, M_bind at 1, emit at 1, modify at 1.
  unfold mbind at 1, M_bind at 1, path_exists at 1, gets at 1.
  cbn [files set_trace].
  fold (match_folder tier division). fold (match_file match_id tier division).
  rewrite bool_decide_eq_false_2 by (rewrite Hnew; intros [? [=]]).
  unfold mbind at 1, M_bind at 1. fold w0. rewrite Hrun.
  destruct (truthy data); [|reflexivity].
  unfold save_match_id_csv, write_json, append_row, path_exists. run.
  rewrite Hf. 
  rewrite (lookup_insert_ne (files w) _ _ _ (match_file_not_index match_id tier division)).
  destruct (files w !! CSV_FILE) as [rows|] eqn:Hcsv.
  - rewrite bool_decide_eq_true_2 by eauto. simpl.
    rewrite (lookup_insert_ne (files w) _ _ _ (match_file_not_index match_id tier division)).
    rewrite Hcsv. simpl. rewrite <- !app_assoc. reflexivity.
  - rewrite bool_decide_eq_false_2 by (intros [? [=]]). simpl.
    rewrite lookup_insert_eq. simpl. rewrite insert_insert_eq.
    rewrite (lookup_insert_ne (files w) _ _ _ (match_file_not_index match_id tier division)).
    rewrite Hcsv. simpl. rewrite <- !app_assoc. reflexivity.
Qed.

(** C8, as the code has it.  A bucket of the collection, a match id
    that names a file and is not archived yet, and a script in which the
    detail call is answered (after any throttling the call sleeps on)
    with [data], which is [None] when the call failed.  The match file is
    the file named after the id in the folder of the bucket.
    [save_match] returns whether [data] is truthy.  When it is not (a
    failed call, but also an empty payload), no file is written, no row
    is appended and the files are what they were.  When it is, the
    payload is written to the match file, the index gets exactly one row
    for the match, after a header row when it did not exist, and nothing
    else changes. *)
Theorem save_match_stores_or_leaves_no_trace
    (match_id : json) (tier division : string)
    (retries : list http_outcome) (delays : list Z) (final : http_outcome)
    (data : json) (rest : list http_outcome) (w : World) :
  tier ∈ TIERS -> division ∈ DIVISIONS -> names_a_file match_id ->
  files w !! match_file match_id tier division = None ->
  Forall2 throttled retries delays ->
  final_value final = Some data ->
  network w = retries ++ final :: rest ->
  match_file match_id tier division
  = MATCHES_DIR +:+ "/" +:+ lower tier +:+ "/" +:+ division +:+ "/"
      +:+ py_str match_id +:+ ".json" /\
  exists w' added,
    save_match match_id tier division w = (Ret (truthy data), w') /\
    trace w' = trace w ++ added /\
    if truthy data then
      files w' =
        <[CSV_FILE := index_with [match_id; JStr tier; JStr division]
                        (files w !! CSV_FILE)]>
          (<[match_file match_id tier division := [CJson data]]> (files w)) /\
      file_writes added = [(match_file match_id tier division, data)] /\
      csv_rows added =
        (if bool_decide (is_Some (files w !! CSV_FILE)) then [] else [csv_header])
        ++ [[match_id; JStr tier; JStr division]]
    else
      files w' = files w /\ file_writes added = [] /\ csv_rows added = [].
Proof.
  intros Htier Hdivision Hname Hnew Hthr Hfinal Hnet.
  split; [apply match_file_in_folder; assumption|].
  destruct (save_match_fetches match_id tier division retries delays final data
              rest w Hnew Hthr Hfinal Hnet)
    as (w1 & added & _ & Hf & _ & Ht & HP & _ & Hsave).
  destruct (transport_events_no_writes _ HP) as [Hw Hr].
  rewrite Hsave. destruct (truthy data).
  - eexists _, _. split; [reflexivity|]. cbn [trace files set_trace set_files].
    split; [rewrite Ht, <- app_assoc; reflexivity|].
    split; [reflexivity|].
    change (EMakedirs ?p :: ECall ?r :: added) with ([EMakedirs p; ECall r] ++ added).
    rewrite !file_writes_app, !csv_rows_app, Hw, Hr.
    destruct (bool_decide _); split; reflexivity.
  - eexists _, _. split; [reflexivity|]. split; [exact Ht|].
    split; [exact Hf|].
    change (EMakedirs ?p :: ECall ?r :: added) with ([EMakedirs p; ECall r] ++ added).
    rewrite !file_writes_app, !csv_rows_app, Hw, Hr. split; reflexivity.
Qed.

(** C1, as the code has it.  A bucket of the collection and a match id
    that names a file: the file of the match is the file named after the
    id in the folder of the bucket.  Whenever the file of the match exists,
    [save_match] returns false without any API call, file write or index
    row.  And for a match that is not archived yet and whose detail call
    is answered with a truthy payload, two calls in a row make one API
    call (one HTTP request when the server does not throttle, one more
    per 429 the call sleeps on otherwise), one file write and one index
    row between them: the first returns true, the second false, and the
    second changes neither the files nor the script. *)
Theorem save_match_idempotent (match_id : json) (tier division : string) :
  tier ∈ TIERS -> division ∈ DIVISIONS -> names_a_file match_id ->
  match_file match_id tier division
  = MATCHES_DIR +:+ "/" +:+ lower tier +:+ "/" +:+ division +:+ "/"
      +:+ py_str match_id +:+ ".json" /\
  (forall w, is_Some (files w !! match_file match_id tier division) ->
     exists w' added,
       save_match match_id tier division w = (Ret false, w') /\
       files w' = files w /\ network w' = network w /\
       trace w' = trace w ++ added /\
       api_calls added = [] /\ file_writes added = [] /\ csv_rows added = []) /\
  (forall retries delays final data rest w,
     files w !! match_file match_id tier division = None ->
     Forall2 throttled retries delays ->
     final_value final = Some data ->
     truthy data = true ->
     network w = retries ++ final :: rest ->
     exists w1 w2 added,
       save_match match_id tier division w = (Ret true, w1) /\
       save_match match_id tier division w1 = (Ret false, w2) /\
       files w2 = files w1 /\ network w2 = network w1 /\
       trace w2 = trace w ++ added /\
       api_calls added = [MatchDetail match_id] /\
       http_requests added = repeat (MatchDetail match_id) (S (length retries)) /\
       file_writes added = [(match_file match_id tier division, data)] /\
       csv_rows added =
         (if bool_decide (is_Some (files w !! CSV_FILE)) then [] else [csv_header])
         ++ [[match_id; JStr tier; JStr division]]).
Proof.
  intros Htier Hdivision Hname.
  split; [apply match_file_in_folder; assumption|]. split.
  - intros w Harchived. rewrite (save_match_archived _ _ _ _ Harchived).
    eexists _, _. split; [reflexivity|]. repeat split.
  - intros retries delays final data rest w Hnew Hthr Hfinal Htruthy Hnet.
    destruct (save_match_fetches match_id tier division retries delays final data
                rest w Hnew Hthr Hfinal Hnet)
      as (w1 & added & _ & Hf & _ & Ht & HP & Hg & Hsave).
    rewrite Htruthy in Hsave.
    destruct (transport_events_no_writes _ HP) as [Hw Hr].
    pose proof (transport_events_no_calls _ HP) as Hcalls.
    eexists _, _, _. split; [exact Hsave|].
    split.
    { apply save_match_archived. cbn [files set_files set_trace].
      rewrite lookup_insert_ne by (apply not_eq_sym, match_file_not_index).
      rewrite lookup_insert_eq. eauto. }
    split; [reflexivity|]. split; [reflexivity|].
    cbn [trace set_trace set_files]. rewrite Ht.
    split; [rewrite <- !app_assoc; reflexivity|].
    rewrite !api_calls_app, !file_writes_app, !csv_rows_app, !http_requests_app.
    change (EMakedirs ?p :: ECall ?r :: added) with ([EMakedirs p; ECall r] ++ added).
    rewrite !api_calls_app, !file_writes_app, !csv_rows_app, !http_requests_app,
      Hw, Hr, Hcalls, Hg.
    destruct (bool_decide _); repeat split; simpl; rewrite ?app_nil_r; reflexivity.
Qed.

(** ** Module level *)

(** C10. With a non-empty [RIOT_API_KEY], running the module prints the
    prompt and then stops with the [TypeError] of [int(input)]: the
    result and the world are the same whether or not the module is run
    as [__main__], and nothing but the prompt has been added to the
    trace, so [collect_data] has not run. *)
Theorem module_stops_at_int_input (key : string) (is_main : bool) (w : World) :
  key <> "" ->
  module_body (Some key) is_main w =
  (Raise TypeError,
   set_trace (trace w ++ [EPrint "Input desired number of matches per tier: "]) w).
Proof.
  intros Hkey. unfold module_body.
  assert (Htruthy : truthy (from_option JStr JNull (Some key)) = true).
  { simpl. destruct key; [contradiction|reflexivity]. }
  rewrite Htruthy. reflexivity.
Qed.

(** ** How the world evolves under the scraper *)

Lemma evolves_refl P w : evolves P w w.
Proof.
  split; [exists []; reflexivity|].
  exists []. rewrite app_nil_r. split; [reflexivity|constructor].
Qed.

Lemma evolves_trans P w1 w2 w3 :
  evolves P w1 w2 -> evolves P w2 w3 -> evolves P w1 w3.
Proof.
  intros [(u1 & Hn1) (d1 & Ht1 & HP1)] [(u2 & Hn2) (d2 & Ht2 & HP2)]. split.
  - exists (u1 ++ u2). rewrite Hn1, Hn2, app_assoc. reflexivity.
  - exists (d1 ++ d2). rewrite Ht2, Ht1, app_assoc. split; [reflexivity|].
    apply Forall_app; split; assumption.
Qed.

Lemma evolves_weaken (P Q : event -> Prop) w w' :
  (forall e, P e -> Q e) -> evolves P w w' -> evolves Q w w'.
Proof.
  intros HPQ [Hn (d & Ht & HP)]. split; [exact Hn|].
  exists d. split; [exact Ht|]. eapply Forall_impl; eassumption.
Qed.

Lemma keeps_weaken (P Q : event -> Prop) {A} (m : M A) :
  (forall e, P e -> Q e) -> keeps P m -> keeps Q m.
Proof. intros HPQ Hm w. eapply evolves_weaken; [exact HPQ|apply Hm]. Qed.

Lemma keeps_ret P {A} (a : A) : keeps P (mret a).
Proof. intros w. apply evolves_refl. Qed.

Lemma keeps_bind P {A B} (m : M A) (f : A -> M B) :
  keeps P m -> (forall a, keeps P (f a)) -> keeps P (m ≫= f).
Proof.
  intros Hm Hf w. unfold mbind, M_bind.
  specialize (Hm w). destruct (m w) as [[a|e|] w1]; simpl in *; try exact Hm.
  eapply evolves_trans; [exact Hm|apply Hf].
Qed.

Lemma keeps_lift P {A} (r : result A) : keeps P (lift r).
Proof. intros w. apply evolves_refl. Qed.

Lemma keeps_raise P {A} (e : exn) : keeps P (@raise A e).
Proof. intros w. apply evolves_refl. Qed.

Lemma keeps_stuck P {A} : keeps P (@stuck A).
Proof. intros w. apply evolves_refl. Qed.

Lemma keeps_gets P {A} (f : World -> A) : keeps P (gets f).
Proof. intros w. apply evolves_refl. Qed.

Lemma keeps_emit (P : event -> Prop) e : P e -> keeps P (emit e).
Proof.
  intros He w. split; [exists []; reflexivity|].
  exists [e]. split; [reflexivity|]. constructor; [exact He|constructor].
Qed.

Lemma keeps_modify P (f : World -> World) :
  (forall w, network (f w) = network w /\ trace (f w) = trace w) ->
  keeps P (modify f).
Proof.
  intros Hf w. destruct (Hf w) as [Hn Ht]. simpl. split.
  - exists []. rewrite Hn. reflexivity.
  - exists []. rewrite Ht, app_nil_r. split; [reflexivity|constructor].
Qed.

Lemma keeps_sleep (P : event -> Prop) site micros :
  P (ESleep site micros) -> keeps P (sleep site micros).
Proof.
  intros He. unfold sleep. destruct (micros <? 0); [apply keeps_raise|].
  apply keeps_bind; [apply keeps_emit, He|intros _].
  apply keeps_modify. intros w. split; reflexivity.
Qed.

Lemma keeps_make_api_call (P : event -> Prop) req :
  P (ECall req) -> (forall e, transport_event e -> P e) ->
  keeps P (make_api_call req).
Proof.
  intros Hcall Htransport w.
  destruct (make_api_call_frame req w)
    as (r & w' & -> & _ & _ & (added & Ht & HP) & (used & Hn & _)).
  simpl. split; [exists used; exact Hn|].
  exists (ECall req :: added). split; [exact Ht|].
  constructor; [exact Hcall|]. eapply Forall_impl; eassumption.
Qed.

Lemma transport_inner e : transport_event e -> inner_event e.
Proof. destruct e as [|[]| | | | | | |[]]; simpl; tauto. Qed.

Lemma keeps_write_json (P : event -> Prop) site path v :
  P (EWrite site path v) -> keeps P (write_json site path v).
Proof.
  intros He. unfold write_json.
  apply keeps_bind; [apply keeps_emit, He|intros _].
  apply keeps_modify. intros w. split; reflexivity.
Qed.

Lemma keeps_append_row (P : event -> Prop) path cells :
  P (EAppendRow path cells) -> keeps P (append_row path cells).
Proof.
  intros He. unfold append_row.
  apply keeps_bind; [apply keeps_emit, He|intros _].
  apply keeps_modify. intros w. split; reflexivity.
Qed.

Lemma keeps_get_puuid summoner_id : keeps inner_event (get_puuid summoner_id).
Proof.
  unfold get_puuid.
  apply keeps_bind; [apply keeps_lift|intros key].
  apply keeps_bind; [apply keeps_gets|intros [puuid|]]; [apply keeps_ret|].
  apply keeps_bind;
    [apply keeps_make_api_call; [exact I|exact transport_inner]|intros data].
  apply keeps_bind;
    [destruct (truthy data); [apply keeps_lift|apply keeps_ret]|intros puuid].
  apply keeps_bind; [|intros _; apply keeps_ret].
  apply keeps_modify. intros w. split; reflexivity.
Qed.

Lemma keeps_get_matches puuid count : keeps inner_event (get_matches puuid count).
Proof.
  unfold get_matches.
  apply keeps_bind;
    [apply keeps_make_api_call; [exact I|exact transport_inner]|intros r].
  apply keeps_ret.
Qed.

Lemma keeps_save_match match_id tier division :
  keeps inner_event (save_match match_id tier division).
Proof.
  unfold save_match.
  apply keeps_bind; [apply keeps_emit; exact I|intros _].
  apply keeps_bind; [apply keeps_gets|intros [|]]; [apply keeps_ret|].
  apply keeps_bind;
    [apply keeps_make_api_call; [exact I|exact transport_inner]|intros data].
  destruct (truthy data); [|apply keeps_ret].
  apply keeps_bind; [apply keeps_write_json; exact I|intros _].
  apply keeps_bind; [|intros _].
  { unfold save_match_id_csv.
    apply keeps_bind; [apply keeps_gets|intros file_exists].
    apply keeps_bind; [|intros _; apply keeps_append_row; exact I].
    destruct (negb file_exists); [apply keeps_append_row; exact I|apply keeps_ret]. }
  apply keeps_bind; [apply keeps_emit; exact I|intros _; apply keeps_ret].
Qed.

Lemma keeps_for_matches tier division quota ids : forall collected done,
  keeps inner_event (for_matches tier division quota ids collected done).
Proof.
  induction ids as [|match_id rest IH]; intros collected done; simpl.
  - apply keeps_ret.
  - destruct (quota <=? collected); [apply keeps_ret|].
    apply keeps_bind; [apply keeps_save_match|intros [|]]; [|apply IH].
    apply keeps_bind; [apply keeps_emit; exact I|intros _; apply IH].
Qed.

Lemma keeps_for_players tier division quota players : forall collected done,
  keeps inner_event (for_players tier division quota players collected done).
Proof.
  induction players as [|player rest IH]; intros collected done; simpl.
  - apply keeps_ret.
  - destruct (quota <=? collected); [apply keeps_ret|].
    apply keeps_bind; [apply keeps_lift|intros summoner_id].
    apply keeps_bind; [apply keeps_get_puuid|intros puuid].
    destruct (negb (truthy puuid)); [apply IH|].
    apply keeps_bind; [apply keeps_get_matches|intros matches].
    apply keeps_bind; [apply keeps_lift|intros first5].
    apply keeps_bind; [apply keeps_lift|intros ids].
    apply keeps_bind; [apply keeps_for_matches|intros [collected' done']].
    apply IH.
Qed.

(** ** Checkpoints and pages *)

Lemma inner_bucket tier division e : inner_event e -> bucket_event tier division e.
Proof. destruct e as [|[]| [] | | |[]| | |[]]; simpl; tauto. Qed.

Lemma bind_inv {A B} (m : M A) (f : A -> M B) w r w' :
  (m ≫= f) w = (r, w') ->
  (exists a w1, m w = (Ret a, w1) /\ f a w1 = (r, w')) \/
  (exists e, m w = (Raise e, w') /\ r = Raise e) \/
  (m w = (Stuck, w') /\ r = Stuck).
Proof.
  unfold mbind, M_bind. destruct (m w) as [[a|e|] w1]; intros H.
  - left. eauto.
  - right. left. injection H as <- <-. eauto.
  - right. right. injection H as <- <-. eauto.
Qed.

Lemma assoc_get_set k k' v kvs :
  assoc_get k (assoc_set k' v kvs) =
  if String.eqb k k' then Some v else assoc_get k kvs.
Proof.
  induction kvs as [|[k0 v0] kvs IH]; simpl.
  - destruct (String.eqb k k'); reflexivity.
  - destruct (String.eqb k' k0) eqn:E0; simpl.
    + apply String.eqb_eq in E0 as ->.
      destruct (String.eqb k k0); reflexivity.
    + destruct (String.eqb k k0) eqn:E1.
      * apply String.eqb_eq in E1 as ->.
        rewrite String.eqb_sym, E0. reflexivity.
      * exact IH.
Qed.

Lemma start_page_set_checkpoint state tier division page state' :
  set_checkpoint state tier division page = Ret state' ->
  start_page state' tier division = Ret page.
Proof.
  unfold set_checkpoint, start_page.
  destruct state as [| | | | |fields]; try discriminate.
  destruct (assoc_get tier fields) as [[| | | | |inner]|] eqn:E; try discriminate;
    intros [= <-]; simpl; rewrite assoc_get_set, String.eqb_refl; simpl;
    rewrite ?assoc_get_set, String.eqb_refl; reflexivity.
Qed.

Lemma start_page_other state tier division page state' t d :
  set_checkpoint state tier division page = Ret state' ->
  (t, d) <> (tier, division) ->
  start_page state' t d = start_page state t d.
Proof.
  unfold set_checkpoint, start_page.
  destruct state as [| | | | |fields]; try discriminate.
  intros Hset Hne.
  destruct (String.eqb t tier) eqn:Et.
  - apply String.eqb_eq in Et as ->.
    assert (Hd : String.eqb d division = false).
    { apply String.eqb_neq. congruence. }
    destruct (assoc_get tier fields) as [[| | | | |inner]|] eqn:E; try discriminate;
      injection Hset as <-; simpl; rewrite assoc_get_set, String.eqb_refl, E; simpl.
    + rewrite assoc_get_set, Hd. reflexivity.
    + rewrite Hd. reflexivity.
  - destruct (assoc_get tier fields) as [[| | | | |inner]|] eqn:E; try discriminate;
      injection Hset as <-; simpl; rewrite assoc_get_set, Et; reflexivity.
Qed.

Lemma listing_pages_app tier division a b :
  listing_pages tier division (a ++ b) =
  listing_pages tier division a ++ listing_pages tier division b.
Proof. apply omap_app. Qed.

Lemma page_events_app a b : page_events (a ++ b) = page_events a ++ page_events b.
Proof. apply omap_app. Qed.

Lemma inner_events_silent tier division added :
  Forall inner_event added ->
  listing_pages tier division added = [] /\ page_events added = [].
Proof.
  induction 1 as [|e added He _ IH]; [split; reflexivity|].
  destruct e as [| |[]| | |[]| | |]; try contradiction; exact IH.
Qed.

Lemma bucket_events_other tier division t d added :
  (t, d) <> (tier, division) ->
  Forall (bucket_event tier division) added ->
  listing_pages t d added = [].
Proof.
  intros Hne. induction 1 as [|e added He _ IH]; [reflexivity|].
  destruct e as [| |[t' d' page| | |]| | | | | |]; try exact IH.
  destruct He as [-> ->]. unfold listing_pages. simpl.
  destruct (String.eqb tier t && String.eqb division d) eqn:E; [|exact IH].
  apply andb_true_iff in E as [E1 E2].
  apply String.eqb_eq in E1, E2. congruence.
Qed.

Lemma saved_states_app a b : saved_states (a ++ b) = saved_states a ++ saved_states b.
Proof. apply omap_app. Qed.

Lemma inner_events_save_nothing added :
  Forall inner_event added -> saved_states added = [].
Proof.
  induction 1 as [|e added He _ IH]; [reflexivity|].
  destruct e as [| | | | |[]| | |]; try contradiction; exact IH.
Qed.

Lemma same_elsewhere_refl tier division state : same_elsewhere tier division state state.
Proof. intros t d _. reflexivity. Qed.

Lemma same_elsewhere_trans tier division s1 s2 s3 :
  same_elsewhere tier division s1 s2 -> same_elsewhere tier division s2 s3 ->
  same_elsewhere tier division s1 s3.
Proof. intros H12 H23 t d Hne. rewrite (H23 t d Hne). apply H12, Hne. Qed.

Lemma hands_back_same_elsewhere tier division state saved r state' :
  hands_back_last_saved state saved r ->
  Forall (same_elsewhere tier division state) saved ->
  r = Ret state' -> same_elsewhere tier division state state'.
Proof.
  intros Hback Hall Hret. destruct (Hback state' Hret) as [Hlast|[_ ->]].
  - apply last_Some in Hlast as (l & ->).
    apply Forall_app in Hall as [_ Hall]. inversion Hall; assumption.
  - apply same_elsewhere_refl.
Qed.

Lemma listing_pages_own tier division page rest :
  listing_pages tier division (ECall (LeagueEntries tier division page) :: rest) =
  page :: listing_pages tier division rest.
Proof. unfold listing_pages. simpl. rewrite !String.eqb_refl. reflexivity. Qed.

(** The loop stops somewhere after its listing call, before any save. *)
Lemma page_loop_stops_after_listing tier division page state must_list w r w' inner :
  trace w' = trace w ++ ECall (LeagueEntries tier division page) :: inner ->
  (exists used, network w = used ++ network w') ->
  Forall inner_event inner ->
  (forall state', r = Ret state' -> state' = state) ->
  page_loop_spec tier division page state must_list w r w'.
Proof.
  intros Ht Hn Hinner Hr.
  destruct (inner_events_silent tier division inner Hinner) as [Hl Hp].
  exists (ECall (LeagueEntries tier division page) :: inner).
  split; [exact Ht|]. split; [exact Hn|]. split.
  { constructor; [split; reflexivity|].
    eapply Forall_impl; [exact Hinner|apply inner_bucket]. }
  rewrite listing_pages_own, Hl. split; [right; reflexivity|].
  split; [reflexivity|]. split.
  - change (ECall ?c :: inner) with ([ECall c] ++ inner).
    rewrite saved_states_app, (inner_events_save_nothing _ Hinner). split.
    + intros state' Hret. right. split; [reflexivity|apply Hr, Hret].
    + constructor.
  - intros n ->. change (ECall ?c :: inner) with ([ECall c] ++ inner).
    rewrite page_events_app, Hp. apply schedule_listed.
Qed.

Lemma while_pages_spec tier division quota fuel :
  forall page collected done state w r w',
    while_pages fuel tier division quota page collected done state w = (r, w') ->
    page_loop_spec tier division page state
      (fuel <> O /\ collected < quota /\ done = false) w r w'.
Proof.
  induction fuel as [|fuel IH]; intros page collected done state w r w' Hrun.
  { injection Hrun as <- <-. exists []. rewrite app_nil_r.
    split; [reflexivity|]. split; [exists []; reflexivity|].
    split; [constructor|]. split; [left; reflexivity|].
    split; [intros [? _]; contradiction|].
    split; [split; [discriminate|constructor]|].
    intros n _. apply schedule_nil. }
  simpl in Hrun.
  destruct ((collected <? quota) && negb done) eqn:Hcond.
  2:{ injection Hrun as <- <-. exists []. rewrite app_nil_r.
      split; [reflexivity|]. split; [exists []; reflexivity|].
      split; [constructor|]. split; [left; reflexivity|].
      split.
      { intros (_ & Hlt & ->). apply Z.ltb_lt in Hlt.
        rewrite Hlt in Hcond. discriminate. }
      split; [split; [intros state' [= <-]; right; split; reflexivity|constructor]|].
      intros n _. apply schedule_nil. }
  unfold get_players in Hrun.
  destruct (make_api_call_frame (LeagueEntries tier division page) w)
    as (r1 & w1 & Hcall & _ & _ & (added1 & Ht1 & HP1) & (used1 & Hn1 & Hr1)).
  assert (Hin1 : Forall inner_event added1)
    by (eapply Forall_impl; [exact HP1|apply transport_inner]).
  apply bind_inv in Hrun as [(players & w1' & Hget & Hrun)|[(e & Hget & ->)|[Hget ->]]];
    rewrite Hcall in Hget; injection Hget as -> <-.
  2:{ eapply page_loop_stops_after_listing; eauto. discriminate. }
  2:{ eapply page_loop_stops_after_listing; eauto. discriminate. }
  destruct (negb (truthy players)).
  { injection Hrun as <- <-.
    eapply page_loop_stops_after_listing; eauto. intros state' [= <-]. reflexivity. }
  apply bind_inv in Hrun as [(items & w1' & Hiter & Hrun)|[(e & Hiter & ->)|[Hiter ->]]];
    unfold lift in Hiter; injection Hiter as Hiter <-.
  2:{ eapply page_loop_stops_after_listing; eauto. discriminate. }
  2:{ eapply page_loop_stops_after_listing; eauto. discriminate. }
  pose proof (keeps_for_players tier division quota items collected done w1) as Hplayers.
  apply bind_inv in Hrun
    as [([collected' done'] & w2 & Hfor & Hrun)|[(e & Hfor & ->)|[Hfor ->]]];
    rewrite Hfor in Hplayers; simpl in Hplayers;
    destruct Hplayers as [(used2 & Hn2) (added2 & Ht2 & HP2)].
  2:{ eapply (page_loop_stops_after_listing _ _ _ _ _ _ _ _ (added1 ++ added2)).
      - rewrite Ht2, Ht1, <- app_assoc. reflexivity.
      - exists (used1 ++ used2). rewrite Hn1, Hn2, app_assoc. reflexivity.
      - apply Forall_app; split; assumption.
      - discriminate. }
  2:{ eapply (page_loop_stops_after_listing _ _ _ _ _ _ _ _ (added1 ++ added2)).
      - rewrite Ht2, Ht1, <- app_assoc. reflexivity.
      - exists (used1 ++ used2). rewrite Hn1, Hn2, app_assoc. reflexivity.
      - apply Forall_app; split; assumption.
      - discriminate. }
  apply bind_inv in Hrun as [(state1 & w2' & Hset & Hrun)|[(e & Hset & ->)|[Hset ->]]];
    unfold lift in Hset; injection Hset as Hset <-.
  2:{ eapply (page_loop_stops_after_listing _ _ _ _ _ _ _ _ (added1 ++ added2)).
      - rewrite Ht2, Ht1, <- app_assoc. reflexivity.
      - exists (used1 ++ used2). rewrite Hn1, Hn2, app_assoc. reflexivity.
      - apply Forall_app; split; assumption.
      - discriminate. }
  2:{ eapply (page_loop_stops_after_listing _ _ _ _ _ _ _ _ (added1 ++ added2)).
      - rewrite Ht2, Ht1, <- app_assoc. reflexivity.
      - exists (used1 ++ used2). rewrite Hn1, Hn2, app_assoc. reflexivity.
      - apply Forall_app; split; assumption.
      - discriminate. }
  unfold save_state, write_json in Hrun.
  unfold mbind at 1, M_bind at 1 in Hrun.
  unfold mbind at 1, M_bind at 1, emit at 1, modify at 1 in Hrun.
  unfold modify at 1 in Hrun.
  set (w3 := set_files _ _) in Hrun.
  assert (Ht3 : trace w3 = trace w ++ ECall (LeagueEntries tier division page)
                  :: (added1 ++ added2) ++ [EWrite StateWrite STATE_FILE state1]).
  { subst w3. simpl. rewrite Ht2, Ht1, <- !app_assoc. reflexivity. }
  assert (Hn3 : network w = (used1 ++ used2) ++ network w3).
  { subst w3. simpl. rewrite Hn1, Hn2, app_assoc. reflexivity. }
  clearbody w3.
  destruct (inner_events_silent tier division (added1 ++ added2)
              ltac:(apply Forall_app; split; assumption)) as [Hl12 Hp12].
  pose proof (inner_events_save_nothing added1 Hin1) as Hs1.
  pose proof (inner_events_save_nothing added2 HP2) as Hs2.
  assert (Hb12 : Forall (bucket_event tier division) (added1 ++ added2)).
  { eapply Forall_impl; [apply Forall_app; split; eassumption|apply inner_bucket]. }
  apply bind_inv in Hrun as [(page' & w3' & Hadd & Hrun)|[(e & Hadd & ->)|[Hadd ->]]];
    unfold lift in Hadd; injection Hadd as Hadd <-.
  2:{ exists (ECall (LeagueEntries tier division page)
                :: (added1 ++ added2) ++ [EWrite StateWrite STATE_FILE state1]).
      split; [exact Ht3|]. split; [eauto|]. split.
      { constructor; [split; reflexivity|].
        apply Forall_app; split; [exact Hb12|repeat constructor]. }
      rewrite listing_pages_own, listing_pages_app, Hl12.
      split; [right; reflexivity|]. split; [reflexivity|].
      split.
      { split; [discriminate|].
        change (ECall ?c :: ?rest) with ([ECall c] ++ rest).
        rewrite !saved_states_app, Hs1, Hs2. repeat constructor.
        intros t d Hne. eapply start_page_other; eassumption. }
      intros n ->. discriminate. }
  2:{ destruct page; discriminate. }
  unfold sleep in Hrun. simpl in Hrun.
  unfold mbind at 1, M_bind at 1 in Hrun.
  unfold mbind at 1, M_bind at 1, emit at 1, modify at 1 in Hrun.
  unfold modify at 1 in Hrun.
  set (w4 := set_clock _ _) in Hrun.
  assert (Ht4 : trace w4 = trace w3 ++ [ESleep PageSleep 500000]) by reflexivity.
  assert (Hn4 : network w4 = network w3) by reflexivity.
  clearbody w4.
  destruct (IH _ _ _ _ _ _ _ Hrun)
    as (added5 & Ht5 & (used5 & Hn5) & HP5 & _ & _ & (Hback5 & Hall5) & Hsched5).
  assert (Hstep : same_elsewhere tier division state state1).
  { intros t d Hne. eapply start_page_other; eassumption. }
  exists ((ECall (LeagueEntries tier division page)
             :: (added1 ++ added2) ++ [EWrite StateWrite STATE_FILE state1])
          ++ [ESleep PageSleep 500000] ++ added5).
  split; [rewrite Ht5, Ht4, Ht3, <- !app_assoc; reflexivity|].
  split.
  { exists ((used1 ++ used2) ++ used5). rewrite Hn3, <- Hn4, Hn5, app_assoc.
    reflexivity. }
  split.
  { apply Forall_app; split.
    - constructor; [split; reflexivity|].
      apply Forall_app; split; [exact Hb12|repeat constructor].
    - constructor; [exact I|exact HP5]. }
  assert (Hhead : head (listing_pages tier division
            ((ECall (LeagueEntries tier division page)
                :: (added1 ++ added2) ++ [EWrite StateWrite STATE_FILE state1])
             ++ [ESleep PageSleep 500000] ++ added5)) = Some page).
  { rewrite <- app_comm_cons, listing_pages_own. reflexivity. }
  split; [right; exact Hhead|]. split; [intros _; exact Hhead|].
  split.
  - change (ECall ?c :: ?rest) with ([ECall c] ++ rest).
    rewrite !saved_states_app, Hs1, Hs2.
    change (saved_states [ECall ?c]) with (@nil json).
    change (saved_states [EWrite StateWrite ?p ?st]) with [st].
    change (saved_states [ESleep ?a ?b]) with (@nil json).
    rewrite !app_nil_l. split.
    + intros state' Hret. left.
      destruct (Hback5 state' Hret) as [Hlast|[Hnil ->]].
      * apply last_Some in Hlast as (l & Hl). rewrite Hl.
        change ([state1] ++ l ++ [state']) with ((state1 :: l) ++ [state']).
        apply last_snoc.
      * rewrite Hnil. reflexivity.
    + constructor; [exact Hstep|].
      eapply Forall_impl; [exact Hall5|].
      intros st Hst. eapply same_elsewhere_trans; eassumption.
  - intros n ->. injection Hadd as <-.
    change (page_schedule tier division n
              (page_events
                 (([ECall (LeagueEntries tier division (JNum n))]
                   ++ (added1 ++ added2) ++ [EWrite StateWrite STATE_FILE state1])
                  ++ [ESleep PageSleep 500000] ++ added5))).
    rewrite page_events_app in Hp12. apply app_eq_nil in Hp12 as [Hp1 Hp2].
    rewrite !page_events_app, Hp1, Hp2. simpl.
    apply schedule_page.
    + eapply start_page_set_checkpoint. exact Hset.
    + apply Hsched5. reflexivity.
Qed.

(** ** Buckets *)

Lemma buckets_processed_app a b :
  buckets_processed (a ++ b) = buckets_processed a ++ buckets_processed b.
Proof. apply omap_app. Qed.

Lemma bucket_events_not_processing tier division added :
  Forall (bucket_event tier division) added -> buckets_processed added = [].
Proof.
  induction 1 as [|e added He _ IH]; [reflexivity|].
  destruct e as [| | | | | | | |[]]; try contradiction; exact IH.
Qed.

Lemma while_pages_idle fuel tier division quota page collected done state w r w' :
  quota <= collected ->
  while_pages fuel tier division quota page collected done state w = (r, w') ->
  w' = w.
Proof.
  intros Hq. destruct fuel as [|fuel]; simpl; [intros [= _ <-]; reflexivity|].
  apply Z.ltb_ge in Hq. rewrite Hq. simpl. intros [= _ <-]. reflexivity.
Qed.

Lemma process_bucket_spec tier division quota state w r w' :
  process_bucket tier division quota state w = (r, w') ->
  exists added, bucket_spec tier division quota state w r w' added.
Proof.
  unfold process_bucket.
  unfold mbind at 1, M_bind at 1, emit at 1, modify at 1.
  set (w0 := set_trace _ w).
  assert (Ht0 : trace w0 = trace w ++ [ELog (LogProcessing tier division)])
    by reflexivity.
  assert (Hn0 : network w0 = network w) by reflexivity.
  clearbody w0. intros Hrun.
  assert (Hstop : forall e, r = Raise e -> w' = w0 ->
            start_page state tier division = Raise e ->
            exists added, bucket_spec tier division quota state w r w' added).
  { intros e -> -> Hstart. exists []. split; [exact Ht0|].
    split; [exists []; rewrite Hn0; reflexivity|]. split; [constructor|].
    split; [reflexivity|]. split; [discriminate|].
    split; [split; [discriminate|constructor]|].
    intros page Hpage. rewrite Hpage in Hstart. discriminate. }
  apply bind_inv in Hrun as [(by_tier & w1 & Htier & Hrun)|[(e & Htier & ->)|[Htier ->]]];
    unfold lift in Htier; injection Htier as Htier <-.
  2:{ apply (Hstop e eq_refl eq_refl). unfold start_page. rewrite Htier. reflexivity. }
  2:{ destruct state; discriminate || (simpl in Htier; destruct (assoc_get _ _); discriminate). }
  apply bind_inv in Hrun as [(page & w1 & Hpage & Hrun)|[(e & Hpage & ->)|[Hpage ->]]];
    unfold lift in Hpage; injection Hpage as Hpage <-.
  2:{ apply (Hstop e eq_refl eq_refl). unfold start_page. rewrite Htier. exact Hpage. }
  2:{ destruct by_tier; discriminate || (simpl in Hpage; destruct (assoc_get _ _); discriminate). }
  assert (Hstart : start_page state tier division = Ret page).
  { unfold start_page. rewrite Htier. exact Hpage. }
  unfold mbind at 1, M_bind at 1, gets at 1 in Hrun.
  destruct (while_pages_spec _ _ _ _ _ _ _ _ _ _ _ Hrun)
    as (added & Ht & (used & Hn) & HP & Hlist & Hmust & (Hback & Hall) & Hsched).
  exists added. split; [rewrite Ht, Ht0, <- app_assoc; reflexivity|].
  split; [exists used; rewrite <- Hn0; exact Hn|]. split; [exact HP|].
  split.
  { intros Hq. apply while_pages_idle in Hrun; [|lia]. subst w'.
    apply (f_equal length) in Ht. rewrite length_app in Ht.
    destruct added; [reflexivity|simpl in Ht; lia]. }
  split.
  { intros state' Hret. eapply hands_back_same_elsewhere; eassumption. }
  split; [split; assumption|].
  intros page' Hpage'. rewrite Hstart in Hpage'. injection Hpage' as <-.
  split; [exact Hlist|]. split; [|exact Hsched].
  intros Hq. apply Hmust. split; [discriminate|]. split; [exact Hq|reflexivity].
Qed.

Lemma bind_assoc {A B C} (m : M A) (f : A -> M B) (g : B -> M C) w :
  ((m ≫= f) ≫= g) w = (m ≫= (fun a => f a ≫= g)) w.
Proof. unfold mbind, M_bind. destruct (m w) as [[a|e|] w1]; reflexivity. Qed.

Lemma run_plan_ext quota plan (k1 k2 : json -> M unit) :
  (forall state w, k1 state w = k2 state w) ->
  forall state w, run_plan quota plan k1 state w = run_plan quota plan k2 state w.
Proof.
  intros Hk. induction plan as [|[tier division] rest IH]; intros state w; simpl.
  - apply Hk.
  - unfold mbind at 1 3, M_bind at 1 3.
    destruct (process_bucket _ _ _ _ _) as [[state'|e|] w1]; try reflexivity.
    destruct (is_diamond_I tier division); [reflexivity|apply IH].
Qed.

Lemma run_plan_app quota plan1 plan2 k : forall state w,
  run_plan quota (plan1 ++ plan2) k state w =
  run_plan quota plan1 (run_plan quota plan2 k) state w.
Proof.
  induction plan1 as [|[tier division] rest IH]; intros state w; simpl.
  - reflexivity.
  - unfold mbind at 1 3, M_bind at 1 3.
    destruct (process_bucket _ _ _ _ _) as [[state'|e|] w1]; try reflexivity.
    destruct (is_diamond_I tier division); [reflexivity|apply IH].
Qed.

Lemma for_divisions_flat tier quota divisions (k : json -> M unit) : forall state w,
  (for_divisions tier quota divisions state ≫=
     (fun '(returned, state') => if (returned : bool) then mret tt else k state')) w =
  run_plan quota (map (pair tier) divisions) k state w.
Proof.
  induction divisions as [|division rest IH]; intros state w.
  - reflexivity.
  - simpl for_divisions. rewrite bind_assoc. simpl run_plan.
    unfold mbind at 1 4, M_bind at 1 4.
    destruct (process_bucket _ _ _ _ _) as [[state'|e|] w1]; try reflexivity.
    fold (is_diamond_I tier division).
    destruct (is_diamond_I tier division); [reflexivity|apply IH].
Qed.

Lemma for_tiers_flat quota tiers : forall state w,
  for_tiers quota tiers state w =
  run_plan quota (plan_of tiers) (fun _ => mret tt) state w.
Proof.
  induction tiers as [|tier rest IH]; intros state w.
  - reflexivity.
  - unfold plan_of. simpl flat_map. fold (plan_of rest).
    rewrite run_plan_app. simpl for_tiers.
    rewrite (for_divisions_flat tier quota (divisions_to_process tier)
               (for_tiers quota rest)).
    apply run_plan_ext. exact IH.
Qed.

Lemma visited_plan_of_TIERS : visited (plan_of TIERS) = specified_order.
Proof. reflexivity. Qed.

Lemma run_plan_order quota plan : forall state w,
  exists added,
    trace (snd (run_plan quota plan (fun _ => mret tt) state w)) = trace w ++ added /\
    buckets_processed added `prefix_of` visited plan /\
    (fst (run_plan quota plan (fun _ => mret tt) state w) = Ret tt ->
     buckets_processed added = visited plan /\
     forall t d, last (visited plan) = Some (t, d) -> is_diamond_I t d = true ->
       last added = Some (ELog LogFinishedDiamondI)).
Proof.
  induction plan as [|[tier division] rest IH]; intros state w.
  { exists []. rewrite app_nil_r. split; [reflexivity|]. split; [reflexivity|].
    intros _. split; [reflexivity|]. intros t d [=]. }
  destruct (run_plan quota ((tier, division) :: rest) _ state w) as [r w'] eqn:Hrun.
  cbn [fst snd]. simpl run_plan in Hrun.
  destruct (process_bucket tier division quota state w) as [r1 w1] eqn:Hbucket.
  destruct (process_bucket_spec _ _ _ _ _ _ _ Hbucket)
    as (added1 & Ht1 & _ & HP1 & _).
  pose proof (bucket_events_not_processing _ _ _ HP1) as Hnone.
  assert (Hfail : exists added,
            trace w1 = trace w ++ added /\
            buckets_processed added `prefix_of` visited ((tier, division) :: rest)).
  { exists (ELog (LogProcessing tier division) :: added1). split; [exact Ht1|].
    change (ELog ?m :: added1) with ([ELog m] ++ added1).
    rewrite buckets_processed_app, Hnone. simpl. apply prefix_cons, prefix_nil. }
  apply bind_inv in Hrun as [(state1 & w1' & Hb & Hrun)|[(e & Hb & ->)|[Hb ->]]];
    rewrite Hbucket in Hb; injection Hb as -> <-.
  2,3: destruct Hfail as (added & Ht & Hpre); exists added;
       (split; [exact Ht|]); (split; [exact Hpre|]); discriminate.
  simpl visited. destruct (is_diamond_I tier division) eqn:Hd.
  - injection Hrun as <- <-.
    exists ((ELog (LogProcessing tier division) :: added1) ++ [ELog LogFinishedDiamondI]).
    split; [simpl; rewrite Ht1, <- app_assoc; reflexivity|].
    assert (Hproc : buckets_processed
              ((ELog (LogProcessing tier division) :: added1)
               ++ [ELog LogFinishedDiamondI]) = [(tier, division)]).
    { change (ELog ?m :: added1) with ([ELog m] ++ added1).
      rewrite !buckets_processed_app, Hnone. reflexivity. }
    rewrite Hproc. split; [reflexivity|]. intros _. split; [reflexivity|].
    intros t d _ _. apply last_snoc.
  - destruct (IH state1 w1) as (added2 & Ht2 & Hpre2 & Hret2).
    rewrite Hrun in Ht2, Hret2. cbn [fst snd] in Ht2, Hret2.
    exists ((ELog (LogProcessing tier division) :: added1) ++ added2).
    split; [rewrite Ht2, Ht1, <- app_assoc; reflexivity|].
    assert (Hproc : buckets_processed
              ((ELog (LogProcessing tier division) :: added1) ++ added2)
            = (tier, division) :: buckets_processed added2).
    { change (ELog ?m :: added1) with ([ELog m] ++ added1).
      rewrite !buckets_processed_app, Hnone. reflexivity. }
    rewrite Hproc. split; [apply prefix_cons, Hpre2|].
    intros Hret. destruct (Hret2 Hret) as [Heq Hlast].
    split; [rewrite Heq; reflexivity|].
    intros t d Hl Hdia.
    destruct (visited rest) as [|b bs] eqn:Hv.
    + injection Hl as <- <-. congruence.
    + assert (Hl' : last (b :: bs) = Some (t, d)) by exact Hl.
      specialize (Hlast t d Hl' Hdia).
      destruct added2 as [|e2 added2]; [discriminate|].
      rewrite last_app_cons. exact Hlast.
Qed.

(** C5. Whatever the servers answer, the buckets whose processing the
    run has started are an initial part of the specified order: the
    tiers in ascending order, divisions I to IV for the tiers below the
    topmost and IV down to I for the topmost.  A run that returns has
    processed exactly the buckets of that order, each once, ending with
    Diamond I, and the last thing it did was to log that it stops after
    Diamond I; no quota enters into it. *)
Theorem collect_data_bucket_order (matches_per_tier : Z) (w : World) :
  exists added,
    trace (snd (collect_data matches_per_tier w)) = trace w ++ added /\
    buckets_processed added `prefix_of` specified_order /\
    (fst (collect_data matches_per_tier w) = Ret tt ->
     buckets_processed added = specified_order /\
     last specified_order = Some ("DIAMOND", "I") /\
     last added = Some (ELog LogFinishedDiamondI)).
Proof.
  unfold collect_data. unfold mbind, M_bind.
  destruct (load_state w) as [r0 w0] eqn:Hload.
  assert (Hw0 : w0 = w).
  { unfold load_state, path_exists in Hload. run.
    destruct (bool_decide _); [|injection Hload as _ <-; reflexivity].
    destruct (files w !! STATE_FILE) as [[|[v|] [|]]|];
      injection Hload as _ <-; reflexivity. }
  subst w0. destruct r0 as [state|e|].
  2,3: exists []; rewrite app_nil_r; (split; [reflexivity|]);
       (split; [apply prefix_nil|discriminate]).
  rewrite for_tiers_flat.
  destruct (run_plan_order matches_per_tier (plan_of TIERS) state w)
    as (added & Ht & Hpre & Hret).
  rewrite visited_plan_of_TIERS in Hpre, Hret.
  exists added. split; [exact Ht|]. split; [exact Hpre|].
  intros Hr. destruct (Hret Hr) as [Heq Hlast].
  split; [exact Heq|]. split; [reflexivity|].
  apply (Hlast "DIAMOND" "I"); reflexivity.
Qed.

Lemma load_state_run w :
  load_state w =
  (match files w !! STATE_FILE with
   | Some [CJson state] => Ret state
   | Some _ => Raise JSONDecodeError
   | None => Ret (JObj [])
   end, w).
Proof.
  unfold load_state, path_exists. run.
  destruct (files w !! STATE_FILE) as [[|[v|] [|]]|] eqn:E; simpl;
    rewrite ?E; reflexivity.
Qed.

Lemma run_plan_idle quota plan tier division : quota <= 0 -> forall state w,
  exists added,
    trace (snd (run_plan quota plan (fun _ => mret tt) state w)) = trace w ++ added /\
    listing_pages tier division added = [].
Proof.
  intros Hq. induction plan as [|[t d] rest IH]; intros state w.
  { exists []. rewrite app_nil_r. split; reflexivity. }
  destruct (run_plan quota ((t, d) :: rest) _ state w) as [r w'] eqn:Hrun.
  cbn [snd]. simpl run_plan in Hrun.
  destruct (process_bucket t d quota state w) as [r1 w1] eqn:Hbucket.
  destruct (process_bucket_spec _ _ _ _ _ _ _ Hbucket)
    as (added1 & Ht1 & _ & _ & Hidle & _).
  rewrite (Hidle Hq) in Ht1.
  apply bind_inv in Hrun as [(state1 & w1' & Hb & Hrun)|[(e & Hb & ->)|[Hb ->]]];
    rewrite Hbucket in Hb; injection Hb as -> <-.
  2,3: eexists; split; [exact Ht1|reflexivity].
  destruct (is_diamond_I t d).
  - injection Hrun as <- <-. eexists. simpl. rewrite Ht1, <- app_assoc.
    split; reflexivity.
  - destruct (IH state1 w1) as (added2 & Ht2 & Hl2).
    rewrite Hrun in Ht2. cbn [snd] in Ht2.
    exists ([ELog (LogProcessing t d)] ++ added2).
    split; [rewrite Ht2, Ht1, <- app_assoc; reflexivity|].
    rewrite listing_pages_app, Hl2. reflexivity.
Qed.

Lemma head_app_Some {A} (a b : list A) x : head a = Some x -> head (a ++ b) = Some x.
Proof. destruct a; [discriminate|]. intros H. exact H. Qed.

Lemma run_plan_first_listing quota plan tier division page :
  0 < quota -> forall state w,
  start_page state tier division = Ret page ->
  exists added,
    trace (snd (run_plan quota plan (fun _ => mret tt) state w)) = trace w ++ added /\
    (head (listing_pages tier division added) = Some page \/
     (listing_pages tier division added = [] /\
      (tier, division) ∉ buckets_processed added)).
Proof.
  intros Hq. induction plan as [|[t d] rest IH]; intros state w Hstart.
  { exists []. rewrite app_nil_r. split; [reflexivity|]. right.
    split; [reflexivity|]. apply not_elem_of_nil. }
  destruct (run_plan_order quota ((t, d) :: rest) state w) as (total & Htotal & _).
  destruct (run_plan quota ((t, d) :: rest) _ state w) as [r w'] eqn:Hrun.
  cbn [snd] in Htotal |- *. simpl run_plan in Hrun.
  destruct (process_bucket t d quota state w) as [r1 w1] eqn:Hbucket.
  destruct (process_bucket_spec _ _ _ _ _ _ _ Hbucket)
    as (added1 & Ht1 & _ & HP1 & _ & Hframe & _ & Hpage).
  pose proof (bucket_events_not_processing _ _ _ HP1) as Hnone.
  assert (Hext : exists more, trace w' = trace w1 ++ more).
  { apply bind_inv in Hrun as [(state1 & w1' & Hb & Hrun)|[(e & Hb & ->)|[Hb ->]]];
      rewrite Hbucket in Hb; injection Hb as -> <-.
    2,3: exists []; rewrite app_nil_r; reflexivity.
    destruct (is_diamond_I t d).
    - injection Hrun as <- <-. eexists. reflexivity.
    - destruct (run_plan_order quota rest state1 w1) as (more & Hmore & _).
      rewrite Hrun in Hmore. exists more. exact Hmore. }
  destruct Hext as (more & Hmore).
  destruct (decide ((tier, division) = (t, d))) as [[= <- <-]|Hne].
  - destruct (Hpage page Hstart) as (_ & Hhead & _).
    exists ((ELog (LogProcessing tier division) :: added1) ++ more).
    split; [rewrite Hmore, Ht1, <- app_assoc; reflexivity|].
    left. rewrite listing_pages_app. apply head_app_Some.
    change (ELog ?m :: added1) with ([ELog m] ++ added1).
    rewrite listing_pages_app. apply Hhead, Hq.
  - pose proof (bucket_events_other _ _ _ _ _ Hne HP1) as Hsilent.
    assert (Hhere : listing_pages tier division
                      (ELog (LogProcessing t d) :: added1) = [] /\
                    (tier, division)
                      ∉ buckets_processed (ELog (LogProcessing t d) :: added1)).
    { change (ELog ?m :: added1) with ([ELog m] ++ added1).
      rewrite listing_pages_app, buckets_processed_app, Hsilent, Hnone.
      split; [reflexivity|]. simpl. intros Hin.
      apply list_elem_of_singleton in Hin. contradiction. }
    destruct Hhere as [Hl1 Hb1].
    apply bind_inv in Hrun as [(state1 & w1' & Hb & Hrun)|[(e & Hb & ->)|[Hb ->]]];
      rewrite Hbucket in Hb; injection Hb as -> <-.
    2,3: exists (ELog (LogProcessing t d) :: added1); split; [exact Ht1|];
         right; split; assumption.
    destruct (is_diamond_I t d).
    + injection Hrun as <- <-.
      exists ((ELog (LogProcessing t d) :: added1) ++ [ELog LogFinishedDiamondI]).
      split; [simpl; rewrite Ht1, <- app_assoc; reflexivity|].
      right. rewrite listing_pages_app, buckets_processed_app, Hl1.
      split; [reflexivity|].
      change (buckets_processed [ELog LogFinishedDiamondI]) with (@nil (string * string)).
      rewrite app_nil_r. exact Hb1.
    + destruct (IH state1 w1) as (added2 & Ht2 & Hres2).
      { rewrite (Hframe state1 eq_refl tier division Hne). exact Hstart. }
      rewrite Hrun in Ht2. cbn [snd] in Ht2.
      exists ((ELog (LogProcessing t d) :: added1) ++ added2).
      split; [rewrite Ht2, Ht1, <- app_assoc; reflexivity|].
      rewrite listing_pages_app, buckets_processed_app, Hl1, app_nil_l.
      destruct Hres2 as [Hhead|[Hl2 Hb2]]; [left; exact Hhead|right].
      split; [exact Hl2|]. intros Hin. apply elem_of_app in Hin as [Hin|Hin];
        contradiction.
Qed.

(** A run over a plan starts on its first bucket. *)
Lemma run_plan_starts quota tier division rest state w :
  exists more,
    trace (snd (run_plan quota ((tier, division) :: rest) (fun _ => mret tt) state w))
    = trace w ++ ELog (LogProcessing tier division) :: more.
Proof.
  destruct (run_plan quota ((tier, division) :: rest) _ state w) as [r w'] eqn:Hrun.
  cbn [snd]. simpl run_plan in Hrun.
  destruct (process_bucket tier division quota state w) as [r1 w1] eqn:Hbucket.
  destruct (process_bucket_spec _ _ _ _ _ _ _ Hbucket) as (added1 & Ht1 & _).
  apply bind_inv in Hrun as [(state1 & w1' & Hb & Hrun)|[(e & Hb & ->)|[Hb ->]]];
    rewrite Hbucket in Hb; injection Hb as -> <-.
  2,3: exists added1; exact Ht1.
  destruct (is_diamond_I tier division).
  - injection Hrun as <- <-. exists (added1 ++ [ELog LogFinishedDiamondI]).
    simpl. rewrite Ht1, <- app_assoc. reflexivity.
  - destruct (run_plan_order quota rest state1 w1) as (more & Hmore & _).
    rewrite Hrun in Hmore. cbn [snd] in Hmore. exists (added1 ++ more).
    rewrite Hmore, Ht1, <- app_assoc. reflexivity.
Qed.

Lemma plan_of_TIERS_head : exists rest, plan_of TIERS = ("IRON", "I") :: rest.
Proof. eexists. reflexivity. Qed.

(** C4.  The page the bucket starts from under the persisted state,
    [state.get(tier, {}).get(division, 1)], is [page]: either there is
    no state file (then [load_state] gives the empty mapping and [page]
    is 1), or the file holds a state with that entry.  Then the first
    listing request the run makes for the bucket, if it makes any, asks
    for [page].  The run always starts on Iron I; with a positive quota
    it makes a listing request for a bucket whenever it starts on it;
    and a run that returns has started on every bucket of the specified
    order, so that it has asked each of them for its own page first. *)
Theorem collect_data_resumes_from_checkpoint
    (matches_per_tier : Z) (tier division : string) (page : json) (w : World) :
  (files w !! STATE_FILE = None /\ page = JNum 1) \/
  (exists state, files w !! STATE_FILE = Some [CJson state] /\
                 start_page state tier division = Ret page) ->
  (files w !! STATE_FILE = None -> load_state w = (Ret (JObj []), w)) /\
  exists added,
    trace (snd (collect_data matches_per_tier w)) = trace w ++ added /\
    head (buckets_processed added) = Some ("IRON", "I") /\
    (listing_pages tier division added = [] \/
     head (listing_pages tier division added) = Some page) /\
    (0 < matches_per_tier ->
     ((tier, division) ∈ buckets_processed added ->
      head (listing_pages tier division added) = Some page) /\
     (fst (collect_data matches_per_tier w) = Ret tt ->
      (tier, division) ∈ specified_order ->
      head (listing_pages tier division added) = Some page)).
Proof.
  intros Hstate. split.
  { intros Hnone. rewrite load_state_run, Hnone. reflexivity. }
  assert (Hload : exists state, load_state w = (Ret state, w) /\
                                start_page state tier division = Ret page).
  { rewrite load_state_run.
    destruct Hstate as [[Hnone ->]|(state & Hsome & Hpage)].
    - rewrite Hnone. exists (JObj []). split; reflexivity.
    - rewrite Hsome. exists state. split; [reflexivity|exact Hpage]. }
  destruct Hload as (state & Hload & Hpage).
  unfold collect_data. unfold mbind, M_bind. rewrite Hload, for_tiers_flat.
  assert (Hfirst : forall added,
            trace (snd (run_plan matches_per_tier (plan_of TIERS) (fun _ => mret tt)
                          state w)) = trace w ++ added ->
            head (buckets_processed added) = Some ("IRON", "I")).
  { intros added Ht. destruct plan_of_TIERS_head as (rest & Hplan).
    rewrite Hplan in Ht.
    destruct (run_plan_starts matches_per_tier "IRON" "I" rest state w) as (more & Hmore).
    rewrite Hmore in Ht. apply app_inv_head in Ht. subst added. reflexivity. }
  destruct (Z_lt_le_dec 0 matches_per_tier) as [Hq|Hq].
  - destruct (run_plan_first_listing matches_per_tier (plan_of TIERS) tier division
                page Hq state w Hpage) as (added & Ht & Hres).
    destruct (run_plan_order matches_per_tier (plan_of TIERS) state w)
      as (added' & Ht' & _ & Hret).
    rewrite Ht in Ht'. apply app_inv_head in Ht'. subst added'.
    rewrite visited_plan_of_TIERS in Hret.
    assert (Hstarted : (tier, division) ∈ buckets_processed added ->
              head (listing_pages tier division added) = Some page).
    { intros Hin. destruct Hres as [Hhead|[_ Hout]]; [exact Hhead|contradiction]. }
    exists added. split; [exact Ht|]. split; [apply Hfirst, Ht|]. split.
    + destruct Hres as [Hhead|[Hl _]]; [right; exact Hhead|left; exact Hl].
    + intros _. split; [exact Hstarted|].
      intros Hreturned Hin. apply Hstarted.
      destruct (Hret Hreturned) as [-> _]. exact Hin.
  - destruct (run_plan_idle matches_per_tier (plan_of TIERS) tier division Hq state w)
      as (added & Ht & Hl).
    exists added. split; [exact Ht|]. split; [apply Hfirst, Ht|].
    split; [left; exact Hl|]. intros Hpos. lia.
Qed.














(** ** The fuel of the page loop is never the reason to stop *)

Lemma bind_cong {A B} (m : M A) (f g : A -> M B) w :
  (forall a w1, m w = (Ret a, w1) -> f a w1 = g a w1) ->
  (m ≫= f) w = (m ≫= g) w.
Proof.
  intros Hfg. unfold mbind, M_bind.
  destruct (m w) as [[a|e|] w1]; [apply Hfg|..]; reflexivity.
Qed.

Lemma keeps_network_length P {A} (m : M A) w :
  keeps P m -> (length (network (snd (m w))) <= length (network w))%nat.
Proof.
  intros Hm. destruct (Hm w) as [(used & ->) _]. rewrite length_app. lia.
Qed.

(** Fuel beyond the length of the script changes nothing: every turn of
    the loop that goes on has taken a response from the script. *)
Lemma while_pages_fuel_enough tier division quota fuel : forall extra page collected done state w,
  (length (network w) < fuel)%nat ->
  while_pages (fuel + extra) tier division quota page collected done state w =
  while_pages fuel tier division quota page collected done state w.
Proof.
  induction fuel as [|fuel IH]; intros extra page collected done state w Hlen; [lia|].
  simpl. destruct ((collected <? quota) && negb done); [|reflexivity].
  apply bind_cong. intros players w1 Hget. unfold get_players in Hget.
  destruct (make_api_call_frame (LeagueEntries tier division page) w)
    as (r1 & w1' & Hcall & _ & _ & _ & (used & Hn & Hr)).
  rewrite Hcall in Hget. injection Hget as -> <-.
  destruct Hr as [[=]|(v & _ & Hused)].
  assert (Hlen1 : (length (network w1') < fuel)%nat).
  { rewrite Hn, length_app in Hlen. destruct used; [contradiction|]. simpl in Hlen. lia. }
  destruct (negb (truthy players)); [reflexivity|].
  apply bind_cong. intros items w2 Hitems. unfold lift in Hitems.
  injection Hitems as _ <-.
  apply bind_cong. intros [collected' done'] w3 Hfor.
  pose proof (keeps_network_length _ _ w1'
                (keeps_for_players tier division quota items collected done)) as Hlen3.
  rewrite Hfor in Hlen3. simpl in Hlen3.
  apply bind_cong. intros state' w4 Hset. unfold lift in Hset. injection Hset as _ <-.
  apply bind_cong. intros [] w5 Hsave.
  assert (Hn5 : network w5 = network w3).
  { unfold save_state, write_json in Hsave. run. injection Hsave as <-. reflexivity. }
  apply bind_cong. intros page' w6 Hadd. unfold lift in Hadd. injection Hadd as _ <-.
  apply bind_cong. intros [] w7 Hsleep.
  assert (Hn7 : network w7 = network w5).
  { unfold sleep in Hsleep. simpl in Hsleep. run. injection Hsleep as <-. reflexivity. }
  apply IH. rewrite Hn7, Hn5. lia.
Qed.

(** * Further properties of the code *)

(** ** The rate limiter, one call *)

Lemma in_window_inside now ts t : t ∈ in_window now ts -> now - WINDOW < t /\ t ∈ ts.
Proof. unfold in_window. intros Ht. apply list_elem_of_filter in Ht. exact Ht. Qed.

(** X1. [rate_limit_sleep] always returns: neither [request_timestamps[0]]
    nor [time.sleep] can raise in it.  It drops the timestamps that have
    left the window and records the instant of the call, not the instant
    it returns.  It sleeps exactly when the window already holds
    [REQUEST_LIMIT] timestamps, and then until the oldest of them leaves
    the window, which is always in the future, so that the [max(..., 0)]
    never applies. *)
Theorem rate_limit_sleep_wakes_when_oldest_expires (w : World) :
  exists w',
    rate_limit_sleep w = (Ret tt, w') /\
    request_timestamps w' = in_window (clock w) (request_timestamps w) ++ [clock w] /\
    files w' = files w /\ puuid_cache w' = puuid_cache w /\ network w' = network w /\
    ((length (in_window (clock w) (request_timestamps w)) < REQUEST_LIMIT)%nat ->
     clock w' = clock w) /\
    ((REQUEST_LIMIT <= length (in_window (clock w) (request_timestamps w)))%nat ->
     exists oldest,
       head (in_window (clock w) (request_timestamps w)) = Some oldest /\
       clock w < oldest + WINDOW /\ clock w' = oldest + WINDOW).
Proof.
  exists (after_admit w). split; [apply rate_limit_sleep_run|].
  unfold after_admit.
  destruct (Nat.leb REQUEST_LIMIT _) eqn:Hlim; cbn [request_timestamps files puuid_cache network clock].
  - apply Nat.leb_le in Hlim.
    split; [reflexivity|]. split; [reflexivity|]. split; [reflexivity|].
    split; [reflexivity|]. split; [lia|]. intros _.
    destruct (in_window (clock w) (request_timestamps w)) as [|oldest rest] eqn:Hw.
    + simpl in Hlim. pose proof REQUEST_LIMIT_pos. lia.
    + exists oldest. split; [reflexivity|].
      assert (Hin : clock w - WINDOW < oldest).
      { apply (in_window_inside (clock w) (request_timestamps w)).
        rewrite Hw. left. }
      simpl. lia.
  - apply Nat.leb_gt in Hlim.
    split; [reflexivity|]. split; [reflexivity|]. split; [reflexivity|].
    split; [reflexivity|]. split; [reflexivity|]. lia.
Qed.

(** ** The rate limiter over a run *)

Lemma oldest_first_in_window now ts : oldest_first ts -> oldest_first (in_window now ts).
Proof.
  unfold oldest_first, in_window. induction 1 as [|t ts Hs IH Hall]; [constructor|].
  rewrite filter_cons. destruct (decide _); [|exact IH].
  constructor; [exact IH|].
  rewrite Forall_forall in Hall |- *. intros x Hx.
  apply list_elem_of_filter in Hx as [_ Hx]. apply Hall, Hx.
Qed.

Lemma oldest_first_snoc ts now :
  oldest_first ts -> Forall (fun t => t <= now) ts -> oldest_first (ts ++ [now]).
Proof.
  unfold oldest_first. intros Hs Hall. apply StronglySorted_app.
  split; [|split; [exact Hs|repeat constructor]].
  intros x1 x2 Hx1 Hx2. apply list_elem_of_singleton in Hx2 as ->.
  rewrite Forall_forall in Hall. apply Hall, Hx1.
Qed.

Lemma limiter_ok_step gap w :
  limiter_ok w -> 0 <= gap ->
  let w1 := set_clock (clock w + gap) w in
  limiter_ok (after_admit w1) /\
  clock w1 <= clock (after_admit w1) <= clock w1 + WINDOW.
Proof.
  intros (Hsorted & Hpast & Hbound) Hgap. cbv zeta.
  unfold after_admit.
  cbn [clock request_timestamps puuid_cache files network trace set_clock].
  set (now := clock w + gap).
  set (ts := in_window now (request_timestamps w)).
  pose proof WINDOW_pos as HW.
  assert (Hsorted' : oldest_first ts) by apply oldest_first_in_window, Hsorted.
  assert (Hpast' : Forall (fun t => t <= now) ts).
  { apply Forall_forall. intros t Ht. apply in_window_inside in Ht as [_ Ht].
    rewrite Forall_forall in Hpast. specialize (Hpast t Ht). lia. }
  assert (Hlen' : (length ts <= REQUEST_LIMIT)%nat).
  { destruct Hbound as [Hle|(Hfull & oldest & Hhead & Hexp)].
    - pose proof (in_window_length now (request_timestamps w)). subst ts. lia.
    - destruct (request_timestamps w) as [|t tail] eqn:Hts; [discriminate|].
      injection Hhead as ->. subst ts. unfold in_window.
      rewrite filter_cons_False by lia.
      pose proof (length_filter (fun t => now - WINDOW < t) tail).
      simpl in Hfull. lia. }
  destruct (Nat.leb REQUEST_LIMIT (length ts)) eqn:Hlim;
    cbn [clock request_timestamps].
  - apply Nat.leb_le in Hlim.
    destruct ts as [|oldest rest] eqn:Hts.
    { simpl in Hlim. pose proof REQUEST_LIMIT_pos. lia. }
    assert (Hin : now - WINDOW < oldest).
    { apply (in_window_inside now (request_timestamps w)). fold ts. rewrite Hts. left. }
    assert (Hold : oldest <= now) by (inversion Hpast'; assumption).
    cbn [head default from_option id].
    split; [|lia]. unfold limiter_ok. cbn [clock request_timestamps].
    split; [|split].
    + apply oldest_first_snoc; assumption.
    + apply Forall_app. split.
      * eapply Forall_impl; [exact Hpast'|]. cbv beta. intros t Ht. lia.
      * constructor; [lia|constructor].
    + right. split.
      * rewrite length_app. simpl. simpl in Hlen', Hlim. lia.
      * exists oldest. split; [reflexivity|]. lia.
  - apply Nat.leb_gt in Hlim. split; [|lia].
    unfold limiter_ok. cbn [clock request_timestamps]. split; [|split].
    + apply oldest_first_snoc; assumption.
    + apply Forall_app. split; [exact Hpast'|constructor; [lia|constructor]].
    + left. rewrite length_app. simpl. lia.
Qed.

(** X2. Whatever non-negative time passes between the calls, the
    limiter's list stays as the code relies on it: oldest first (so that
    index 0 is the oldest entry), nothing stamped in the future, and never
    more than [REQUEST_LIMIT + 1] entries; and no call sleeps longer than
    one window. *)
Theorem limiter_list_stays_bounded (gaps : list Z) (w : World) :
  limiter_ok w ->
  Forall (fun gap => 0 <= gap) gaps ->
  exists log w',
    admit_calls gaps w = (Ret log, w') /\
    limiter_ok w' /\
    (length (request_timestamps w') <= S REQUEST_LIMIT)%nat /\
    Forall (fun call => fst call <= snd call <= fst call + WINDOW) log.
Proof.
  intros Hok Hgaps. revert w Hok.
  induction Hgaps as [|gap rest Hgap Hrest IH]; intros w Hok.
  - exists [], w. split; [reflexivity|]. split; [exact Hok|]. split; [|constructor].
    destruct Hok as (_ & _ & [Hle|[Heq _]]); lia.
  - destruct (limiter_ok_step gap w Hok Hgap) as [Hok' Hclock].
    destruct (IH _ Hok') as (log & w' & Hrun & Hok'' & Hlen & Hlog).
    rewrite admit_calls_cons. cbv zeta. rewrite Hrun.
    eexists _, _. split; [reflexivity|]. split; [exact Hok''|]. split; [exact Hlen|].
    constructor; [exact Hclock|exact Hlog].
Qed.

(** ** The rate limiter in a sustained burst *)

Lemma admit_calls_app gaps1 : forall gaps2 w log1 w1 log2 w2,
  admit_calls gaps1 w = (Ret log1, w1) ->
  admit_calls gaps2 w1 = (Ret log2, w2) ->
  admit_calls (gaps1 ++ gaps2) w = (Ret (log1 ++ log2), w2).
Proof.
  induction gaps1 as [|gap rest IH]; intros gaps2 w log1 w1 log2 w2 H1 H2.
  - simpl in H1. injection H1 as <- <-. exact H2.
  - rewrite admit_calls_cons in H1. cbv zeta in H1.
    destruct (admit_calls rest _) as [[log'| |] w''] eqn:Hrest; try discriminate.
    injection H1 as <- <-.
    simpl app. rewrite admit_calls_cons. cbv zeta.
    rewrite (IH gaps2 _ _ _ _ _ Hrest H2). reflexivity.
Qed.

Lemma in_window_replicate_inside now t n :
  now - WINDOW < t -> in_window now (replicate n t) = replicate n t.
Proof.
  intros Hin. unfold in_window. induction n as [|n IH]; [reflexivity|].
  simpl. rewrite filter_cons_True by exact Hin. rewrite IH. reflexivity.
Qed.

Lemma in_window_replicate_outside now t n :
  t <= now - WINDOW -> in_window now (replicate n t) = [].
Proof.
  intros Hout. unfold in_window. induction n as [|n IH]; [reflexivity|].
  simpl. rewrite filter_cons_False by lia. exact IH.
Qed.

Lemma replicate_snoc {A} n (x : A) : replicate n x ++ [x] = replicate (S n) x.
Proof. induction n as [|n IH]; [reflexivity|]. simpl. rewrite IH. reflexivity. Qed.

Lemma map_replicate {A B} (f : A -> B) n (x : A) :
  map f (replicate n x) = replicate n (f x).
Proof. induction n as [|n IH]; [reflexivity|]. simpl. rewrite IH. reflexivity. Qed.

(** Calls at the instant [t] while fewer than [REQUEST_LIMIT] are
    recorded: each returns at once. *)
Lemma burst_fill n : forall j t w,
  request_timestamps w = replicate j t -> clock w = t ->
  (j + n <= REQUEST_LIMIT)%nat ->
  exists w',
    admit_calls (replicate n 0) w = (Ret (replicate n (t, t)), w') /\
    request_timestamps w' = replicate (j + n) t /\ clock w' = t.
Proof.
  induction n as [|n IH]; intros j t w Hts Hclock Hle.
  - exists w. rewrite Nat.add_0_r. repeat split; assumption.
  - pose proof WINDOW_pos as HW.
    set (w1 := after_admit (set_clock (clock w + 0) w)).
    assert (Hw1 : request_timestamps w1 = replicate (S j) t /\ clock w1 = t).
    { subst w1. unfold after_admit.
      cbn [clock request_timestamps set_clock].
      rewrite Hts, Hclock, Z.add_0_r.
      rewrite in_window_replicate_inside by lia.
      rewrite length_replicate.
      destruct (Nat.leb REQUEST_LIMIT j) eqn:Hlim; [apply Nat.leb_le in Hlim; lia|].
      cbn [clock request_timestamps]. rewrite replicate_snoc. split; reflexivity. }
    destruct Hw1 as [Hts1 Hclock1].
    destruct (IH (S j) t w1 Hts1 Hclock1) as (w' & Hrun & Hts' & Hclock'); [lia|].
    exists w'. split; [|split; [|exact Hclock']].
    + change (replicate (S n) 0) with (0 :: replicate n 0).
      rewrite admit_calls_cons. cbv zeta. fold w1. rewrite Hrun, Hclock1.
      cbn [clock set_clock]. rewrite Hclock, Z.add_0_r. reflexivity.
    + rewrite Hts'. f_equal. lia.
Qed.

(** From a window that is full at the instant [t], the next
    [REQUEST_LIMIT + 1] calls made without pause all return one window
    later, and the window is then full again. *)
Lemma burst_round t w :
  request_timestamps w = replicate REQUEST_LIMIT t -> clock w = t ->
  exists log w',
    admit_calls (replicate (S REQUEST_LIMIT) 0) w = (Ret log, w') /\
    map snd log = replicate (S REQUEST_LIMIT) (t + WINDOW) /\
    request_timestamps w' = replicate REQUEST_LIMIT (t + WINDOW) /\
    clock w' = t + WINDOW.
Proof.
  intros Hts Hclock.
  pose proof WINDOW_pos as HW. pose proof REQUEST_LIMIT_pos as HL.
  (* the call that finds the window full *)
  set (w1 := after_admit (set_clock (clock w + 0) w)).
  assert (Hw1 : request_timestamps w1 = replicate (S REQUEST_LIMIT) t /\
                clock w1 = t + WINDOW).
  { subst w1. unfold after_admit. cbn [clock request_timestamps set_clock].
    rewrite Hts, Hclock, Z.add_0_r.
    rewrite in_window_replicate_inside by lia.
    rewrite length_replicate, Nat.leb_refl.
    cbn [clock request_timestamps]. rewrite replicate_snoc.
    split; [reflexivity|].
    destruct REQUEST_LIMIT as [|k] eqn:Hk; [lia|]. simpl. lia. }
  destruct Hw1 as [Hts1 Hclock1].
  (* the call after it finds the window empty *)
  set (w2 := after_admit (set_clock (clock w1 + 0) w1)).
  assert (Hw2 : request_timestamps w2 = replicate 1 (t + WINDOW) /\
                clock w2 = t + WINDOW).
  { subst w2. unfold after_admit. cbn [clock request_timestamps set_clock].
    rewrite Hts1, Hclock1, Z.add_0_r.
    rewrite in_window_replicate_outside by lia.
    destruct (Nat.leb REQUEST_LIMIT (length [])) eqn:Hlim;
      [apply Nat.leb_le in Hlim; simpl in Hlim; lia|].
    cbn [clock request_timestamps]. split; reflexivity. }
  destruct Hw2 as [Hts2 Hclock2].
  destruct (burst_fill (REQUEST_LIMIT - 1) 1 (t + WINDOW) w2 Hts2 Hclock2)
    as (w' & Hrun & Hts' & Hclock'); [lia|].
  exists ((t, t + WINDOW) :: (t + WINDOW, t + WINDOW)
            :: replicate (REQUEST_LIMIT - 1) (t + WINDOW, t + WINDOW)), w'.
  split; [|split; [|split; [|exact Hclock']]].
  - replace (S REQUEST_LIMIT) with (S (S (REQUEST_LIMIT - 1))) by lia.
    change (replicate (S (S ?n)) 0) with (0 :: 0 :: replicate n 0).
    rewrite admit_calls_cons. cbv zeta. fold w1.
    rewrite admit_calls_cons. cbv zeta. fold w2.
    rewrite Hrun, Hclock1, Hclock2. cbn [clock set_clock].
    rewrite Hclock, !Z.add_0_r. reflexivity.
  - replace (S REQUEST_LIMIT) with (S (S (REQUEST_LIMIT - 1))) by lia.
    cbn [map replicate snd]. rewrite map_replicate. reflexivity.
  - rewrite Hts'. f_equal; lia.
Qed.

Lemma flat_map_seq_shift {A} (f : nat -> list A) len : forall start,
  flat_map f (seq (S start) len) = flat_map (fun i => f (S i)) (seq start len).
Proof.
  induction len as [|len IH]; intros start; [reflexivity|].
  simpl. rewrite IH. reflexivity.
Qed.

Lemma burst_rounds rounds : forall t w,
  request_timestamps w = replicate REQUEST_LIMIT t -> clock w = t ->
  exists log w',
    admit_calls (replicate (rounds * S REQUEST_LIMIT) 0) w = (Ret log, w') /\
    map snd log =
      flat_map (fun i => replicate (S REQUEST_LIMIT) (t + Z.of_nat (S i) * WINDOW))
        (seq 0 rounds).
Proof.
  induction rounds as [|rounds IH]; intros t w Hts Hclock.
  - exists [], w. split; reflexivity.
  - destruct (burst_round t w Hts Hclock) as (log1 & w1 & Hrun1 & Hlog1 & Hts1 & Hclock1).
    destruct (IH (t + WINDOW) w1 Hts1 Hclock1) as (log2 & w2 & Hrun2 & Hlog2).
    exists (log1 ++ log2), w2. split.
    + change (S rounds * S REQUEST_LIMIT)%nat
        with (S REQUEST_LIMIT + rounds * S REQUEST_LIMIT)%nat.
      rewrite replicate_add. eapply admit_calls_app; eassumption.
    + rewrite map_app, Hlog1, Hlog2. cbn [seq flat_map].
      replace (t + Z.of_nat 1 * WINDOW) with (t + WINDOW) by lia.
      apply (f_equal (app _)).
      rewrite flat_map_seq_shift.
      apply flat_map_ext. intros i.
      replace (t + WINDOW + Z.of_nat (S i) * WINDOW)
        with (t + Z.of_nat (S (S i)) * WINDOW) by lia.
      reflexivity.
Qed.

(** X3. A burst of calls made without any pause on a fresh limiter: the
    first [REQUEST_LIMIT] return at once, and from then on the calls
    return in groups of [REQUEST_LIMIT + 1], one group per window.  The
    call that sleeps is recorded with the instant it was made, which has
    left the window when it wakes up, so it does not count against the
    [REQUEST_LIMIT] calls that follow it. *)
Theorem sustained_burst_releases_one_more_per_window (rounds : nat) (w : World) :
  request_timestamps w = [] ->
  exists log w',
    admit_calls (replicate (REQUEST_LIMIT + rounds * S REQUEST_LIMIT) 0) w
    = (Ret log, w') /\
    map snd log =
      replicate REQUEST_LIMIT (clock w) ++
      flat_map (fun i => replicate (S REQUEST_LIMIT)
                           (clock w + Z.of_nat (S i) * WINDOW))
        (seq 0 rounds).
Proof.
  intros Hfresh.
  destruct (burst_fill REQUEST_LIMIT 0 (clock w) w Hfresh eq_refl)
    as (w1 & Hrun1 & Hts1 & Hclock1); [lia|].
  destruct (burst_rounds rounds (clock w) w1 Hts1 Hclock1) as (log2 & w2 & Hrun2 & Hlog2).
  eexists _, w2. split.
  - rewrite replicate_add. eapply admit_calls_app; eassumption.
  - rewrite map_app, Hlog2, map_replicate. reflexivity.
Qed.

(** ** The checkpoint file *)

(** X5. [state.setdefault(tier, {})[division] = page] followed by
    [state.get(tier, {}).get(division, 1)] gives [page] back and leaves
    the entries of all other buckets as they were.  The assignment
    succeeds exactly when the state is a mapping in which the tier is
    absent or bound to a mapping. *)
Theorem checkpoint_entry_round_trip
    (state : json) (tier division : string) (page : json) :
  ((exists state', set_checkpoint state tier division page = Ret state') <->
   exists fields, state = JObj fields /\
     (assoc_get tier fields = None \/
      exists inner, assoc_get tier fields = Some (JObj inner))) /\
  forall state', set_checkpoint state tier division page = Ret state' ->
    start_page state' tier division = Ret page /\
    forall t d, (t, d) <> (tier, division) ->
      start_page state' t d = start_page state t d.
Proof.
  split.
  - split.
    + intros (state' & Hset). unfold set_checkpoint in Hset.
      destruct state as [| | | | |fields]; try discriminate.
      exists fields. split; [reflexivity|].
      destruct (assoc_get tier fields) as [[| | | | |inner]|]; try discriminate; eauto.
    + intros (fields & -> & [Hnone|(inner & Hsome)]); unfold set_checkpoint.
      * rewrite Hnone. eauto.
      * rewrite Hsome. eauto.
  - intros state' Hset. split.
    + eapply start_page_set_checkpoint, Hset.
    + intros t d Hne. eapply start_page_other; eassumption.
Qed.

(** ** The API client on arbitrary scripts *)

Lemma slept_on_or_final o :
  (exists seconds, slept_on o seconds) \/ (exists v, final_value o = Some v).
Proof.
  destruct o as [|status_code header body]; [right; eexists; reflexivity|].
  unfold final_value, slept_on.
  destruct (status_code =? 429) eqn:E.
  - apply Z.eqb_eq in E as ->.
    destruct (retry_after_seconds header) as [seconds|] eqn:Hsec; [|right; eauto].
    destruct ((seconds <? 0) || (SLEEP_MAX_SECONDS <? seconds)) eqn:Hout;
      [right; eauto|].
    apply orb_false_iff in Hout as [Hneg Hbig].
    left. exists seconds, header, body. repeat split; [exact Hsec|lia|lia].
  - right. destruct (_ && _); eauto.
Qed.

(** A script either is slept on to its end, or holds a first response
    that ends the call. *)
Lemma script_split script :
  Forall (fun o => exists seconds, slept_on o seconds) script \/
  exists retries delays final v rest,
    script = retries ++ final :: rest /\
    Forall2 slept_on retries delays /\ final_value final = Some v.
Proof.
  induction script as [|o script IH]; [left; constructor|].
  destruct (slept_on_or_final o) as [(seconds & Hthr)|(v & Hfinal)].
  - destruct IH as [Hall|(retries & delays & final & v & rest & -> & Hthrs & Hfinal)].
    + left. constructor; [eauto|exact Hall].
    + right. exists (o :: retries), (seconds :: delays), final, v, rest.
      split; [reflexivity|]. split; [constructor; assumption|exact Hfinal].
  - right. exists [], [], o, v, script. split; [reflexivity|].
    split; [constructor|exact Hfinal].
Qed.

Lemma api_loop_slept_forever req script : forall w,
  Forall (fun o => exists seconds, slept_on o seconds) script ->
  fst (api_loop script req w) = Stuck.
Proof.
  induction script as [|o script IH]; intros w Hall.
  - rewrite api_loop_nil. reflexivity.
  - apply Forall_cons in Hall as [(seconds & Hthr) Hall].
    rewrite api_loop_cons. cbv zeta.
    rewrite (attempt_slept_on _ _ _ Hthr). apply IH, Hall.
Qed.

(** X6. [make_api_call] never raises: every exception of the transport
    ends up as its return value.  It comes back unless the server
    throttles for ever: when every response of the script is a 429 that
    asks for a delay the call sleeps on, the call has used up the script
    and is still waiting; and it can only be left waiting by a script in
    which every response is a 429 whose [Retry-After] reads as a number
    of seconds from 0 to the largest that [time.sleep] takes. *)
Theorem make_api_call_ends_unless_throttled_forever (req : request) (w : World) :
  (forall e, fst (make_api_call req w) <> Raise e) /\
  (Forall (fun o => exists seconds, throttled o seconds) (network w) ->
   fst (make_api_call req w) = Stuck /\ network (snd (make_api_call req w)) = []) /\
  (fst (make_api_call req w) = Stuck ->
   Forall (fun o => exists seconds, slept_on o seconds) (network w)).
Proof.
  destruct (make_api_call_frame req w)
    as (r & w' & Hrun & _ & _ & _ & (used & Hused & Hres)).
  split; [|split].
  - intros e He. rewrite Hrun in He.
    destruct Hres as [->|(v & -> & _)]; discriminate.
  - intros Hall. unfold make_api_call.
    unfold mbind at 1, M_bind at 1, emit at 1, modify at 1.
    unfold mbind at 1, M_bind at 1, gets at 1.
    unfold mbind at 1, M_bind at 1, emit at 1, modify at 1.
    unfold mbind at 1, M_bind at 1, gets at 1.
    cbn [network set_trace].
    set (w0 := set_trace (trace w ++ [ECall req]) w).
    assert (Hwait : fst (api_loop (network w) req w0) = Stuck).
    { apply api_loop_slept_forever. eapply Forall_impl; [exact Hall|].
      intros o (seconds & Hthr). exists seconds. apply throttled_slept_on, Hthr. }
    destruct (api_loop_frame req (network w) w0)
      as (r1 & w1 & Hloop & _ & _ & _ & Hcases).
    rewrite Hloop in Hwait |- *. cbn [fst snd] in Hwait |- *.
    split; [exact Hwait|].
    destruct Hcases as [(_ & Hnil & Hcons)|(v & used1 & -> & _)]; [|discriminate].
    destruct (network w) as [|o rest] eqn:Hnet.
    + rewrite Hnil by reflexivity. subst w0. exact Hnet.
    + apply Hcons. discriminate.
  - intros Hstuck.
    destruct (script_split (network w))
      as [Hall|(retries & delays & final & v & rest & Hnet & Hthr & Hfinal)];
      [exact Hall|].
    destruct (make_api_call_slept_answers req retries delays final v rest w Hthr
                Hfinal Hnet)
      as (w2 & added & Hrun2 & _).
    rewrite Hrun2 in Hstuck. discriminate.
Qed.

Lemma failure_is_final o e : failure_of o = Some e -> final_value o = Some JNull.
Proof.
  unfold failure_of, final_value. destruct o as [|status_code header body]; [reflexivity|].
  destruct (status_code =? 429).
  - destruct (retry_after_seconds header) as [seconds|]; [|reflexivity].
    pose proof RETRY_AFTER_MAX_fits.
    destruct (seconds <? - SLEEP_MAX_SECONDS) eqn:Hlow;
      destruct (SLEEP_MAX_SECONDS <? seconds) eqn:Hhigh;
      destruct (seconds <? 0) eqn:Hneg; cbn [orb];
      try reflexivity; try discriminate; lia.
  - destruct (_ && _); [reflexivity|]. destruct body; [discriminate|reflexivity].
Qed.

(** The turn of the loop on a response that raises. *)
Lemma attempt_failure o e w :
  failure_of o = Some e ->
  exists before,
    try_except (handle_response o)
      (fun e => emit (ELog (LogApiError e));; mret (Return JNull)) w =
    (Ret (Return JNull), set_trace (trace w ++ before ++ [ELog (LogApiError e)]) w).
Proof.
  unfold try_except, handle_response, failure_of.
  destruct o as [|status_code header body].
  { intros [= <-]. run. exists []. reflexivity. }
  destruct (status_code =? 429) eqn:E.
  - unfold mbind at 1, M_bind at 1, lift at 1. rewrite py_int_retry_after.
    destruct (retry_after_seconds header) as [seconds|].
    + intros Hfail.
      unfold mbind at 1, M_bind at 1, emit at 1, modify at 1.
      unfold mbind at 1, M_bind at 1.
      pose proof RETRY_AFTER_MAX_fits.
      rewrite sleep_seconds_refused.
      2:{ destruct (seconds <? - SLEEP_MAX_SECONDS) eqn:Hlow;
            destruct (SLEEP_MAX_SECONDS <? seconds) eqn:Hhigh;
            destruct (seconds <? 0) eqn:Hneg; cbn [orb] in Hfail;
            try discriminate; lia. }
      assert (He : (if (seconds <? - SLEEP_MAX_SECONDS) || (SLEEP_MAX_SECONDS <? seconds)
                    then OverflowError else ValueError) = e).
      { destruct ((seconds <? - SLEEP_MAX_SECONDS) || (SLEEP_MAX_SECONDS <? seconds));
          [congruence|].
        destruct (seconds <? 0); [congruence|discriminate]. }
      rewrite He. run. exists [ELog (Log429 seconds)]. rewrite <- app_assoc. reflexivity.
    + intros [= <-]. run. exists []. reflexivity.
  - destruct ((400 <=? status_code) && (status_code <? 600)).
    + intros [= <-]. run. exists []. reflexivity.
    + destruct body as [v'|]; intros [= <-]; run. exists []. reflexivity.
Qed.

Lemma api_loop_failure req retries : forall delays final e rest w,
  Forall2 throttled retries delays ->
  failure_of final = Some e ->
  exists w' added,
    api_loop (retries ++ final :: rest) req w = (Ret JNull, w') /\
    trace w' = trace w ++ added /\
    last added = Some (ELog (LogApiError e)).
Proof.
  induction retries as [|o retries IH]; intros delays final e rest w Hthr Hfail.
  - simpl app. rewrite api_loop_cons. cbv zeta.
    match goal with |- context [try_except _ _ ?w1] =>
      destruct (attempt_failure final e w1 Hfail) as (before & ->) end.
    destruct (after_admit_admissions w) as (d0 & Ht0 & _).
    eexists _, (d0 ++ [EGet req] ++ before ++ [ELog (LogApiError e)]).
    split; [reflexivity|]. cbn [trace set_trace set_network].
    split; [rewrite Ht0, <- !app_assoc; reflexivity|].
    rewrite !app_assoc. apply last_snoc.
  - apply Forall2_cons_inv_l in Hthr as (seconds & delays' & Hsec & Hthr & ->).
    simpl app. rewrite api_loop_cons. cbv zeta.
    rewrite (attempt_throttled _ _ _ Hsec).
    destruct (after_admit_admissions w) as (d0 & Ht0 & _).
    match goal with |- context [api_loop _ req ?w2] =>
      destruct (IH delays' final e rest w2 Hthr Hfail) as (w' & d' & -> & Ht & Hlast)
    end.
    exists w', (d0 ++ [EGet req; ELog (Log429 seconds);
                       ESleep ThrottleSleep (seconds * MICROS)] ++ d').
    split; [reflexivity|].
    split; [rewrite Ht; cbn [trace set_trace set_clock set_network];
            rewrite Ht0, <- !app_assoc; reflexivity|].
    destruct d' as [|x d']; [discriminate|].
    rewrite app_assoc, last_app_cons. exact Hlast.
Qed.

(** X7. A request that fails, after any number of 429 the call slept on:
    the connection breaks, the status is an error status other than 429,
    the body is not JSON, or a 429 comes with a [Retry-After] that [int]
    cannot read (a [ValueError]), that is negative (a [ValueError] of
    [time.sleep]) or that does not fit a duration (an
    [OverflowError]).  The call logs the exception as an API error, the
    last thing it does, and returns [None]; it does not ask again for
    that failure, and it leaves files and cache alone. *)
Theorem make_api_call_turns_failure_into_none
    (req : request) (retries : list http_outcome) (delays : list Z)
    (final : http_outcome) (e : exn) (rest : list http_outcome) (w : World) :
  Forall2 throttled retries delays ->
  failure_of final = Some e ->
  network w = retries ++ final :: rest ->
  exists w' added,
    make_api_call req w = (Ret JNull, w') /\
    network w' = rest /\
    files w' = files w /\ puuid_cache w' = puuid_cache w /\
    trace w' = trace w ++ ECall req :: added /\
    last added = Some (ELog (LogApiError e)) /\
    http_requests added = repeat req (S (length retries)).
Proof.
  intros Hthr Hfail Hnet.
  destruct (make_api_call_answers req retries delays final JNull rest w Hthr
              (failure_is_final _ _ Hfail) Hnet)
    as (w' & added & Hrun & Hn & Hf & Hc & Ht & _ & _ & _ & Hg).
  exists w', added. split; [exact Hrun|]. split; [exact Hn|].
  split; [exact Hf|]. split; [exact Hc|]. split; [exact Ht|]. split; [|exact Hg].
  unfold make_api_call in Hrun.
  unfold mbind at 1, M_bind at 1, emit at 1, modify at 1 in Hrun.
  unfold mbind at 1, M_bind at 1, gets at 1 in Hrun.
  cbn [network set_trace] in Hrun. rewrite Hnet in Hrun.
  destruct (api_loop_failure req retries delays final e rest
              (set_trace (trace w ++ [ECall req]) w) Hthr Hfail)
    as (w'' & added' & Hrun' & Ht' & Hlast).
  rewrite Hrun in Hrun'. injection Hrun' as <-.
  cbn [trace set_trace] in Ht'. rewrite Ht, <- app_assoc in Ht'.
  apply app_inv_head in Ht'. injection Ht' as ->. exact Hlast.
Qed.

(** *** Decimal [Retry-After] headers *)

Lemma pretty_N_char_digit d :
  (d < 10)%N ->
  is_digit (pretty_N_char d) = true /\ digit_value (pretty_N_char d) = Z.of_N d /\
  is_py_space (pretty_N_char d) = false /\
  Ascii.eqb (pretty_N_char d) "-" = false /\ Ascii.eqb (pretty_N_char d) "+" = false.
Proof.
  intros Hd.
  assert (Hcases : (d = 0 \/ d = 1 \/ d = 2 \/ d = 3 \/ d = 4 \/ d = 5 \/ d = 6
                    \/ d = 7 \/ d = 8 \/ d = 9)%N) by lia.
  repeat (destruct Hcases as [->|Hcases]); try subst d; repeat split.
Qed.

Lemma digits_value_pretty_N_go x : (0 < x)%N -> forall s after_digit,
  digits_value (list_ascii_of_string (pretty_N_go x s)) 0 after_digit =
  digits_value (list_ascii_of_string s) (Z.of_N x) true.
Proof.
  induction x as [x IH] using (well_founded_induction N.lt_wf_0).
  intros Hx s after_digit. rewrite pretty_N_go_step by exact Hx.
  destruct (pretty_N_char_digit (x `mod` 10)) as (Hdigit & Hvalue & _);
    [apply N.mod_lt; lia|].
  pose proof (N.div_mod x 10 ltac:(lia)) as Hdm.
  destruct (decide (x `div` 10 = 0)%N) as [Hzero|Hpos].
  - rewrite Hzero, pretty_N_go_0. cbn [list_ascii_of_string digits_value].
    rewrite Hdigit, Hvalue. f_equal. lia.
  - rewrite IH; [|apply N.div_lt; lia|apply N.neq_0_lt_0, Hpos].
    cbn [list_ascii_of_string digits_value]. rewrite Hdigit, Hvalue. f_equal. lia.
Qed.

Lemma pretty_N_go_no_space x : forall s,
  Forall (fun c => is_py_space c = false) (list_ascii_of_string s) ->
  Forall (fun c => is_py_space c = false) (list_ascii_of_string (pretty_N_go x s)).
Proof.
  induction x as [x IH] using (well_founded_induction N.lt_wf_0). intros s Hs.
  destruct (decide (0 < x)%N) as [Hx|Hx].
  - rewrite pretty_N_go_step by exact Hx. apply IH; [apply N.div_lt; lia|].
    cbn [list_ascii_of_string]. constructor; [|exact Hs].
    apply pretty_N_char_digit, N.mod_lt. lia.
  - replace x with 0%N by lia. rewrite pretty_N_go_0. exact Hs.
Qed.

Lemma pretty_N_go_head x : (0 < x)%N -> forall s,
  exists d rest, (d < 10)%N /\ pretty_N_go x s = String (pretty_N_char d) rest.
Proof.
  induction x as [x IH] using (well_founded_induction N.lt_wf_0). intros Hx s.
  rewrite pretty_N_go_step by exact Hx.
  destruct (decide (x `div` 10 = 0)%N) as [Hzero|Hpos].
  - rewrite Hzero, pretty_N_go_0. eexists _, _. split; [|reflexivity].
    apply N.mod_lt. lia.
  - apply IH; [apply N.div_lt; lia|apply N.neq_0_lt_0, Hpos].
Qed.

Lemma drop_spaces_none cs :
  Forall (fun c => is_py_space c = false) cs -> drop_spaces cs = cs.
Proof. destruct 1 as [|c cs Hc _]; [reflexivity|]. simpl. rewrite Hc. reflexivity. Qed.

Lemma strip_none cs : Forall (fun c => is_py_space c = false) cs -> strip cs = cs.
Proof.
  intros Hcs. unfold strip. rewrite (drop_spaces_none cs Hcs).
  rewrite drop_spaces_none; [apply rev_involutive|].
  apply Forall_forall. intros c Hc. rewrite Forall_forall in Hcs. apply Hcs.
  apply list_elem_of_In in Hc. apply in_rev in Hc. apply list_elem_of_In, Hc.
Qed.

Lemma INT_MAX_STR_DIGITS_pos : 0 < INT_MAX_STR_DIGITS.
Proof.
  Transparent INT_MAX_STR_DIGITS. unfold INT_MAX_STR_DIGITS. lia.
  Opaque INT_MAX_STR_DIGITS.
Qed.

Lemma count_digits_nonneg cs : 0 <= count_digits cs.
Proof. induction cs as [|c cs IH]; simpl; [lia|]. destruct (is_digit c); lia. Qed.

(** A number below [10 ^ k] is written with [k] digits at most. *)
Lemma count_digits_pretty_N_go (k : nat) : forall x s,
  (x < 10 ^ N.of_nat k)%N ->
  count_digits (list_ascii_of_string (pretty_N_go x s))
  <= count_digits (list_ascii_of_string s) + Z.of_nat k.
Proof.
  induction k as [|k IH]; intros x s Hx.
  - replace x with 0%N by (simpl in Hx; lia). rewrite pretty_N_go_0. lia.
  - destruct (decide (0 < x)%N) as [Hpos|Hzero].
    + rewrite pretty_N_go_step by exact Hpos.
      rewrite Nat2N.inj_succ, N.pow_succ_r' in Hx.
      etrans; [apply IH, N.Div0.div_lt_upper_bound; exact Hx|].
      cbn [list_ascii_of_string count_digits].
      destruct (is_digit _); lia.
    + replace x with 0%N by lia. rewrite pretty_N_go_0. lia.
Qed.

Lemma int_of_pretty_N_go (k : nat) x :
  Z.of_nat k <= INT_MAX_STR_DIGITS -> (0 < x < 10 ^ N.of_nat k)%N ->
  int_of_string (pretty_N_go x "") = Some (Z.of_N x) /\
  int_of_string ("-" +:+ pretty_N_go x "") = Some (- Z.of_N x).
Proof.
  intros Hk [Hx Hbound].
  pose proof (pretty_N_go_no_space x "" ltac:(constructor)) as Hclean.
  pose proof (digits_value_pretty_N_go x Hx "" false) as Hvalue.
  pose proof (count_digits_pretty_N_go k x "" Hbound) as Hcount.
  cbn [list_ascii_of_string count_digits] in Hcount.
  destruct (pretty_N_go_head x Hx "") as (d & rest & Hd & Hhead).
  destruct (pretty_N_char_digit d Hd) as (_ & _ & _ & Hminus & Hplus).
  unfold int_of_string. split.
  - rewrite strip_none by exact Hclean.
    destruct (INT_MAX_STR_DIGITS <? _) eqn:Hmany; [lia|].
    rewrite Hhead in Hvalue |- *. cbn [list_ascii_of_string] in Hvalue |- *.
    rewrite Hminus, Hplus, Hvalue. reflexivity.
  - change ("-" +:+ pretty_N_go x "") with (String "-" (pretty_N_go x "")).
    cbn [list_ascii_of_string].
    rewrite strip_none by (constructor; [reflexivity|exact Hclean]).
    cbn [count_digits]. change (is_digit "-") with false. cbv iota.
    destruct (INT_MAX_STR_DIGITS <? _) eqn:Hmany; [lia|].
    rewrite Ascii.eqb_refl, Hvalue. reflexivity.
Qed.

(** [int(str(n))] is [n], for a number of [k] digits that [int] accepts. *)
Lemma int_of_string_pretty (k : nat) (n : Z) :
  Z.of_nat k <= INT_MAX_STR_DIGITS -> Z.abs n < 10 ^ Z.of_nat k ->
  int_of_string (pretty n) = Some n.
Proof.
  intros Hk Hn.
  assert (Hzero : int_of_string (pretty 0) = Some 0).
  { unfold int_of_string. change (strip (list_ascii_of_string (pretty 0))) with ["0"%char].
    change (count_digits ["0"%char]) with 1.
    pose proof INT_MAX_STR_DIGITS_pos.
    destruct (INT_MAX_STR_DIGITS <? 1) eqn:Hmany; [lia|reflexivity]. }
  destruct n as [|p|p]; [exact Hzero| |].
  - apply (int_of_pretty_N_go k (N.pos p) Hk). split; [lia|].
    apply N2Z.inj_lt. rewrite N2Z.inj_pow, nat_N_Z. exact Hn.
  - apply (int_of_pretty_N_go k (N.pos p) Hk). split; [lia|].
    apply N2Z.inj_lt. rewrite N2Z.inj_pow, nat_N_Z. exact Hn.
Qed.

(** X8. A 429 whose [Retry-After] header is the decimal numeral of a
    number of seconds [n] from 0 to [RETRY_AFTER_MAX], followed by a good
    response: the call sleeps exactly [n] seconds, asks again and returns
    the payload. *)
Theorem make_api_call_sleeps_the_seconds_of_the_header
    (req : request) (n : Z) (body : option json) (final : http_outcome)
    (payload : json) (rest : list http_outcome) (w : World) :
  0 <= n <= RETRY_AFTER_MAX ->
  succeeds final payload ->
  network w = Response 429 (Some (pretty n)) body :: final :: rest ->
  exists w' added,
    make_api_call req w = (Ret payload, w') /\
    network w' = rest /\
    trace w' = trace w ++ ECall req :: added /\
    throttle_sleeps added = [n * MICROS] /\
    http_requests added = [req; req].
Proof.
  intros Hn Hok Hnet.
  assert (Hthr : Forall2 throttled [Response 429 (Some (pretty n)) body] [n]).
  { repeat constructor. exists (Some (pretty n)), body.
    split; [reflexivity|]. split; [|exact Hn].
    apply (int_of_string_pretty 10).
    - Transparent INT_MAX_STR_DIGITS. unfold INT_MAX_STR_DIGITS. lia.
      Opaque INT_MAX_STR_DIGITS.
    - Transparent RETRY_AFTER_MAX. unfold RETRY_AFTER_MAX in Hn.
      Opaque RETRY_AFTER_MAX.
      replace (10 ^ Z.of_nat 10) with 10000000000 by reflexivity. lia. }
  destruct (make_api_call_answers req _ _ final payload rest w Hthr
              (succeeds_final_value _ _ Hok) Hnet)
    as (w' & added & Hrun & Hnet' & _ & _ & Ht & _ & Hs & _ & Hg).
  exists w', added. repeat split; assumption.
Qed.

(** ** The match index *)

Lemma save_match_id_csv_run match_id tier division w :
  exists w',
    save_match_id_csv match_id tier division w = (Ret tt, w') /\
    files w' = <[CSV_FILE := index_with [match_id; JStr tier; JStr division]
                               (files w !! CSV_FILE)]> (files w) /\
    network w' = network w /\ puuid_cache w' = puuid_cache w.
Proof.
  unfold save_match_id_csv, append_row, path_exists. run.
  destruct (files w !! CSV_FILE) as [old|] eqn:Hcsv.
  - rewrite bool_decide_eq_true_2 by eauto. simpl. rewrite Hcsv.
    eexists. split; [reflexivity|]. repeat split.
  - rewrite bool_decide_eq_false_2 by (intros [? [=]]). simpl.
    rewrite lookup_insert_eq, Hcsv. simpl. rewrite insert_insert_eq.
    eexists. split; [reflexivity|]. repeat split.
Qed.

Lemma record_all_appends rows : forall w old,
  files w !! CSV_FILE = Some old ->
  exists w',
    record_all rows w = (Ret tt, w') /\
    files w' !! CSV_FILE = Some (old ++ map index_row rows) /\
    (forall path, path <> CSV_FILE -> files w' !! path = files w !! path).
Proof.
  induction rows as [|[[match_id tier] division] rows IH]; intros w old Hold.
  - exists w. rewrite app_nil_r. repeat split; assumption.
  - destruct (save_match_id_csv_run match_id tier division w) as (w1 & Hrun & Hf & _).
    rewrite Hold in Hf. cbn [index_with] in Hf.
    destruct (IH w1 (old ++ [CRow [match_id; JStr tier; JStr division]]))
      as (w' & Hrest & Hcsv & Hother).
    { rewrite Hf. apply lookup_insert_eq. }
    exists w'. split; [|split].
    + cbn [record_all]. unfold mbind at 1, M_bind at 1. rewrite Hrun. exact Hrest.
    + rewrite Hcsv, <- app_assoc. reflexivity.
    + intros path Hne. rewrite (Hother path Hne), Hf.
      apply lookup_insert_ne. congruence.
Qed.

(** X9. Recording any number of matches in the index, one after the
    other: every call returns; an index that exists keeps all its lines
    and gets one line per match, in order; an index that does not exist
    is created with the header line first, once; no other file is
    touched. *)
Theorem index_gets_one_header_and_one_line_per_match
    (rows : list (json * string * string)) (w : World) :
  rows <> [] ->
  exists w',
    record_all rows w = (Ret tt, w') /\
    files w' !! CSV_FILE =
      Some (match files w !! CSV_FILE with
            | Some old => old ++ map index_row rows
            | None => CRow csv_header :: map index_row rows
            end) /\
    (forall path, path <> CSV_FILE -> files w' !! path = files w !! path).
Proof.
  intros Hrows. destruct (files w !! CSV_FILE) as [old|] eqn:Hcsv.
  - apply record_all_appends, Hcsv.
  - destruct rows as [|[[match_id tier] division] rows]; [contradiction|].
    destruct (save_match_id_csv_run match_id tier division w) as (w1 & Hrun & Hf & _).
    rewrite Hcsv in Hf. cbn [index_with] in Hf.
    destruct (record_all_appends rows w1
                [CRow csv_header; CRow [match_id; JStr tier; JStr division]])
      as (w' & Hrest & Hcsv' & Hother).
    { rewrite Hf. apply lookup_insert_eq. }
    exists w'. split; [|split].
    + cbn [record_all]. unfold mbind at 1, M_bind at 1. rewrite Hrun. exact Hrest.
    + rewrite Hcsv'. reflexivity.
    + intros path Hne. rewrite (Hother path Hne), Hf.
      apply lookup_insert_ne. congruence.
Qed.

(** ** The PUUID lookup on answers it is not written for *)

(** X10. An id that cannot be a [dict] key (a list or a mapping) makes
    [get_puuid] raise [TypeError] at the cache test, before any request.
    And when the lookup of an id that is not cached is answered with a
    truthy value that is not a mapping, [get_puuid] raises
    [AttributeError] after the API call: nothing is cached, so that the
    next call for the same id asks again. *)
Theorem get_puuid_raises_on_what_it_cannot_handle (summoner_id : json) :
  (key_of summoner_id = Raise TypeError ->
   forall w, get_puuid summoner_id w = (Raise TypeError, w)) /\
  (forall key retries delays final data rest w,
     key_of summoner_id = Ret key ->
     puuid_cache w !! key = None ->
     Forall2 throttled retries delays ->
     final_value final = Some data ->
     truthy data = true ->
     (forall fields, data <> JObj fields) ->
     network w = retries ++ final :: rest ->
     exists w' added,
       get_puuid summoner_id w = (Raise AttributeError, w') /\
       puuid_cache w' = puuid_cache w /\ files w' = files w /\
       network w' = rest /\
       trace w' = trace w ++ added /\
       api_calls added = [SummonerById summoner_id]).
Proof.
  split.
  - intros Hkey w. unfold get_puuid.
    unfold mbind at 1, M_bind at 1, lift at 1. rewrite Hkey. reflexivity.
  - intros key retries delays final data rest w Hkey Hmiss Hthr Hfinal Htruthy Hshape Hnet.
    destruct (make_api_call_answers (SummonerById summoner_id) retries delays final
                data rest w Hthr Hfinal Hnet)
      as (w' & added & Hrun & Hn & Hf & Hc & Ht & HP & _).
    exists w', (ECall (SummonerById summoner_id) :: added).
    split; [|repeat split; try assumption].
    + unfold get_puuid.
      unfold mbind at 1, M_bind at 1, lift at 1. rewrite Hkey.
      unfold mbind at 1, M_bind at 1, gets at 1. rewrite Hmiss.
      unfold mbind at 1, M_bind at 1. rewrite Hrun.
      unfold mbind at 1, M_bind at 1. rewrite Htruthy. unfold lift.
      destruct data as [| | | | |fields]; try reflexivity.
      exfalso. eapply Hshape. reflexivity.
    + change (ECall (SummonerById summoner_id) :: added)
        with ([ECall (SummonerById summoner_id)] ++ added).
      rewrite api_calls_app, (transport_events_no_calls _ HP). reflexivity.
Qed.

(** ** One page of a bucket *)

(** The start of a bucket with a positive quota, up to the answer to its
    first listing. *)
Lemma process_bucket_first_listing
    tier division quota state page retries delays final players rest w :
  0 < quota ->
  start_page state tier division = Ret page ->
  Forall2 throttled retries delays ->
  final_value final = Some players ->
  network w = retries ++ final :: rest ->
  exists w1 added,
    files w1 = files w /\ puuid_cache w1 = puuid_cache w /\ network w1 = rest /\
    trace w1 = trace w ++ ELog (LogProcessing tier division)
                 :: ECall (LeagueEntries tier division page) :: added /\
    Forall transport_event added /\
    process_bucket tier division quota state w =
    (if negb (truthy players) then mret state
     else
       items ← lift (py_iter players);
       '(collected', done') ← for_players tier division quota items 0 false;
       state' ← lift (set_checkpoint state tier division page);
       save_state state';;
       page' ← lift (py_add1 page);
       sleep PageSleep 500000;;
       while_pages (length (network w)) tier division quota page' collected' done'
         state') w1.
Proof.
  intros Hq Hstart Hthr Hfinal Hnet.
  set (w0 := set_trace (trace w ++ [ELog (LogProcessing tier division)]) w).
  destruct (make_api_call_answers (LeagueEntries tier division page) retries delays
              final players rest w0 Hthr Hfinal Hnet)
    as (w1 & added & Hrun & Hn & Hf & Hc & Ht & HP & _).
  exists w1, added. split; [exact Hf|]. split; [exact Hc|]. split; [exact Hn|].
  split; [rewrite Ht; subst w0; cbn [trace set_trace]; rewrite <- app_assoc; reflexivity|].
  split; [exact HP|].
  unfold start_page in Hstart. unfold process_bucket.
  unfold mbind at 1, M_bind at 1, emit at 1, modify at 1. fold w0.
  unfold mbind at 1, M_bind at 1, lift at 1.
  destruct (py_dict_get state tier (JObj [])) as [by_tier| |]; try discriminate.
  unfold mbind at 1, M_bind at 1, lift at 1. rewrite Hstart.
  unfold mbind at 1, M_bind at 1, gets at 1.
  cbn [while_pages]. apply Z.ltb_lt in Hq. rewrite Hq. cbn [andb negb].
  unfold get_players. unfold mbind at 1, M_bind at 1. rewrite Hrun.
  reflexivity.
Qed.

Lemma process_bucket_empty_page
    (tier division : string) (quota : Z) (state page : json)
    (retries : list http_outcome) (delays : list Z) (final : http_outcome)
    (players : json) (rest : list http_outcome) (w : World) :
  0 < quota ->
  start_page state tier division = Ret page ->
  Forall2 throttled retries delays ->
  final_value final = Some players ->
  truthy players = false ->
  network w = retries ++ final :: rest ->
  exists w' added,
    process_bucket tier division quota state w = (Ret state, w') /\
    files w' = files w /\ puuid_cache w' = puuid_cache w /\ network w' = rest /\
    trace w' = trace w ++ ELog (LogProcessing tier division)
                 :: ECall (LeagueEntries tier division page) :: added /\
    Forall transport_event added.
Proof.
  intros Hq Hstart Hthr Hfinal Hfalsy Hnet.
  destruct (process_bucket_first_listing tier division quota state page retries delays
              final players rest w Hq Hstart Hthr Hfinal Hnet)
    as (w1 & added & Hf & Hc & Hn & Ht & HP & Hrun).
  rewrite Hfalsy in Hrun. cbn [negb] in Hrun.
  exists w1, added. repeat split; assumption.
Qed.

(** X11. A bucket with a positive quota whose first listing fails or
    comes back empty (after any throttling): the bucket ends there.  One
    API call has been made, the state is handed on as it was, and no
    checkpoint or other file is written, so that the page stays the one
    the next run starts from. *)
Theorem empty_page_ends_the_bucket
    (tier division : string) (quota : Z) (state page : json)
    (retries : list http_outcome) (delays : list Z) (final : http_outcome)
    (players : json) (rest : list http_outcome) (w : World) :
  0 < quota ->
  start_page state tier division = Ret page ->
  Forall2 throttled retries delays ->
  final_value final = Some players ->
  truthy players = false ->
  network w = retries ++ final :: rest ->
  exists w' added,
    process_bucket tier division quota state w = (Ret state, w') /\
    files w' = files w /\ puuid_cache w' = puuid_cache w /\ network w' = rest /\
    trace w' = trace w ++ added /\
    api_calls added = [LeagueEntries tier division page] /\
    file_writes added = [].
Proof.
  intros Hq Hstart Hthr Hfinal Hfalsy Hnet.
  destruct (process_bucket_empty_page tier division quota state page retries delays
              final players rest w Hq Hstart Hthr Hfinal Hfalsy Hnet)
    as (w' & added & Hrun & Hf & Hc & Hn & Ht & HP).
  exists w', (ELog (LogProcessing tier division)
                :: ECall (LeagueEntries tier division page) :: added).
  split; [exact Hrun|]. split; [exact Hf|]. split; [exact Hc|]. split; [exact Hn|].
  split; [exact Ht|].
  change (ELog ?m :: ECall ?c :: added) with ([ELog m; ECall c] ++ added).
  rewrite api_calls_app, file_writes_app, (transport_events_no_calls _ HP).
  destruct (transport_events_no_writes _ HP) as [-> _]. split; reflexivity.
Qed.

(** X12. A bucket with a positive quota whose first listing is answered
    with something whose first element has no ["summonerId"] (a mapping
    without that key, or anything that is not a mapping): the exception
    of [player["summonerId"]] ends the bucket, and with it the run,
    before any lookup and before any checkpoint is written. *)
Theorem malformed_player_aborts_before_the_checkpoint
    (tier division : string) (quota : Z) (state page : json)
    (retries : list http_outcome) (delays : list Z) (final : http_outcome)
    (players player : json) (others : list json) (e : exn)
    (rest : list http_outcome) (w : World) :
  0 < quota ->
  start_page state tier division = Ret page ->
  Forall2 throttled retries delays ->
  final_value final = Some players ->
  py_iter players = Ret (player :: others) ->
  py_getitem player "summonerId" = Raise e ->
  network w = retries ++ final :: rest ->
  exists w' added,
    process_bucket tier division quota state w = (Raise e, w') /\
    files w' = files w /\ puuid_cache w' = puuid_cache w /\ network w' = rest /\
    trace w' = trace w ++ added /\
    api_calls added = [LeagueEntries tier division page] /\
    file_writes added = [].
Proof.
  intros Hq Hstart Hthr Hfinal Hiter Hplayer Hnet.
  destruct (process_bucket_first_listing tier division quota state page retries delays
              final players rest w Hq Hstart Hthr Hfinal Hnet)
    as (w1 & added & Hf & Hc & Hn & Ht & HP & Hrun).
  assert (Htruthy : truthy players = true).
  { destruct players as [| | |text|items|fields]; try discriminate;
      injection Hiter as Hiter.
    - destruct text; [discriminate|reflexivity].
    - subst items. reflexivity.
    - destruct fields; [discriminate|reflexivity]. }
  rewrite Htruthy in Hrun. cbn [negb] in Hrun.
  unfold mbind at 1, M_bind at 1, lift at 1 in Hrun. rewrite Hiter in Hrun.
  cbn [for_players] in Hrun.
  assert (Hle : (quota <=? 0) = false) by (apply Z.leb_gt; exact Hq).
  rewrite Hle in Hrun.
  unfold mbind at 1, M_bind at 1 in Hrun.
  unfold mbind at 1, M_bind at 1, lift at 1 in Hrun. rewrite Hplayer in Hrun.
  exists w1, (ELog (LogProcessing tier division)
                :: ECall (LeagueEntries tier division page) :: added).
  split; [exact Hrun|]. split; [exact Hf|]. split; [exact Hc|]. split; [exact Hn|].
  split; [exact Ht|].
  change (ELog ?m :: ECall ?c :: added) with ([ELog m; ECall c] ++ added).
  rewrite api_calls_app, file_writes_app, (transport_events_no_calls _ HP).
  destruct (transport_events_no_writes _ HP) as [-> _]. split; reflexivity.
Qed.

(** ** Runs that collect nothing *)

Lemma process_bucket_idle tier division quota state w :
  quota <= 0 ->
  process_bucket tier division quota state w =
  (match start_page state tier division with
   | Ret _ => Ret state
   | Raise e => Raise e
   | Stuck => Stuck
   end,
   set_trace (trace w ++ [processing (tier, division)]) w).
Proof.
  intros Hq. unfold process_bucket, start_page.
  unfold mbind at 1, M_bind at 1, emit at 1, modify at 1.
  unfold mbind at 1, M_bind at 1, lift at 1.
  destruct (py_dict_get state tier (JObj [])) as [by_tier|e|]; try reflexivity.
  unfold mbind at 1, M_bind at 1, lift at 1.
  destruct (py_dict_get by_tier division (JNum 1)) as [page|e|]; try reflexivity.
  unfold mbind at 1, M_bind at 1, gets at 1. cbn [while_pages].
  assert (Hlt : (0 <? quota) = false) by (apply Z.ltb_ge; exact Hq).
  rewrite Hlt. reflexivity.
Qed.

(** What an idle run over a plan logs. *)
Lemma run_plan_idle_trace quota plan state : quota <= 0 ->
  Forall (fun b => exists page, start_page state b.1 b.2 = Ret page) (visited plan) ->
  forall w,
    run_plan quota plan (fun _ => mret tt) state w =
    (Ret tt,
     set_trace (trace w ++ map processing (visited plan) ++
                  (if bool_decide (Exists (fun b => is_diamond_I b.1 b.2 = true) plan)
                   then [ELog LogFinishedDiamondI] else [])) w).
Proof.
  intros Hq. induction plan as [|[tier division] rest IH]; intros Hok w.
  - cbn [run_plan visited map app]. rewrite bool_decide_eq_false_2.
    + rewrite app_nil_r. destruct w; reflexivity.
    + intros Hex. inversion Hex.
  - cbn [visited] in Hok. apply Forall_cons in Hok as [(page & Hpage) Hok].
    cbn [fst snd] in Hpage.
    cbn [run_plan]. unfold mbind at 1, M_bind at 1.
    rewrite (process_bucket_idle _ _ _ _ _ Hq), Hpage.
    cbn [visited map]. destruct (is_diamond_I tier division) eqn:Hd.
    + rewrite bool_decide_eq_true_2 by (left; exact Hd).
      unfold mbind at 1, M_bind at 1, emit at 1, modify at 1.
      cbn [trace set_trace map app]. unfold mret, M_ret.
      rewrite <- !app_assoc. reflexivity.
    + rewrite (IH Hok). cbn [trace set_trace].
      rewrite <- !app_assoc. cbn [app].
      assert (Hiff : Exists (fun b => is_diamond_I b.1 b.2 = true) ((tier, division) :: rest)
                     <-> Exists (fun b => is_diamond_I b.1 b.2 = true) rest).
      { rewrite Exists_cons. cbn [fst snd]. rewrite Hd. intuition discriminate. }
      rewrite (bool_decide_ext _ _ Hiff). reflexivity.
Qed.

(** X13. With a quota of zero or less and a state under which every
    bucket has a start page (no state file, or one whose tier entries are
    mappings), the run makes no request and writes nothing: it logs the
    28 buckets in order and that it stops after Diamond I, and returns. *)
Theorem collect_data_without_quota_only_logs (matches_per_tier : Z) (w : World) :
  matches_per_tier <= 0 ->
  files w !! STATE_FILE = None \/
  (exists state,
     files w !! STATE_FILE = Some [CJson state] /\
     Forall (fun b => exists page, start_page state b.1 b.2 = Ret page)
       specified_order) ->
  collect_data matches_per_tier w =
  (Ret tt,
   set_trace (trace w ++ map processing specified_order ++ [ELog LogFinishedDiamondI])
     w).
Proof.
  intros Hq Hstate. unfold collect_data.
  unfold mbind at 1, M_bind at 1. rewrite load_state_run.
  assert (Hload : exists state,
            match files w !! STATE_FILE with
            | Some [CJson st] => Ret st
            | Some _ => Raise JSONDecodeError
            | None => Ret (JObj [])
            end = Ret state /\
            Forall (fun b => exists page, start_page state b.1 b.2 = Ret page)
              specified_order).
  { destruct Hstate as [->|(state & -> & Hok)]; [|eauto].
    exists (JObj []). split; [reflexivity|].
    apply Forall_forall. intros b _. eexists. reflexivity. }
  destruct Hload as (state & -> & Hok).
  rewrite for_tiers_flat.
  rewrite (run_plan_idle_trace _ _ _ Hq);
    [|rewrite visited_plan_of_TIERS; exact Hok].
  rewrite visited_plan_of_TIERS. reflexivity.
Qed.

(** X14. A state file that holds valid JSON which is not a mapping, or a
    mapping whose entry for the first tier is not a mapping, stops the
    run with [AttributeError] at the first bucket, after its log line
    and before any request. *)
Theorem collect_data_stops_on_a_state_that_is_no_mapping
    (matches_per_tier : Z) (state : json) (w : World) :
  files w !! STATE_FILE = Some [CJson state] ->
  (forall fields, state <> JObj fields) \/
  (exists fields entry,
     state = JObj fields /\ assoc_get "IRON" fields = Some entry /\
     forall inner, entry <> JObj inner) ->
  collect_data matches_per_tier w =
  (Raise AttributeError, set_trace (trace w ++ [ELog (LogProcessing "IRON" "I")]) w).
Proof.
  intros Hfile Hshape. unfold collect_data.
  unfold mbind at 1, M_bind at 1. rewrite load_state_run, Hfile.
  cbn [TIERS for_tiers divisions_to_process DIVISIONS String.eqb Ascii.eqb Bool.eqb
       for_divisions].
  unfold mbind at 1, M_bind at 1.
  unfold mbind at 1, M_bind at 1.
  assert (Hbucket : process_bucket "IRON" "I" matches_per_tier state w =
            (Raise AttributeError,
             set_trace (trace w ++ [ELog (LogProcessing "IRON" "I")]) w)).
  { unfold process_bucket.
    unfold mbind at 1, M_bind at 1, emit at 1, modify at 1.
    unfold mbind at 1, M_bind at 1, lift at 1.
    destruct Hshape as [Hno|(fields & entry & -> & Hentry & Hno)].
    - destruct state as [| | | | |fields]; try reflexivity.
      exfalso. eapply Hno. reflexivity.
    - unfold py_dict_get at 1. rewrite Hentry.
      unfold mbind at 1, M_bind at 1, lift at 1.
      destruct entry as [| | | | |inner]; try reflexivity.
      exfalso. eapply Hno. reflexivity. }
  rewrite Hbucket. reflexivity.
Qed.

(** ** A server that only fails *)

Lemma run_plan_dead quota plan : 0 < quota -> forall w,
  Forall (fun o => exists e, failure_of o = Some e) (network w) ->
  (length (visited plan) <= length (network w))%nat ->
  exists w' added,
    run_plan quota plan (fun _ => mret tt) (JObj []) w = (Ret tt, w') /\
    files w' = files w /\
    network w' = drop (length (visited plan)) (network w) /\
    trace w' = trace w ++ added /\
    api_calls added =
      map (fun b => LeagueEntries b.1 b.2 (JNum 1)) (visited plan) /\
    file_writes added = [].
Proof.
  intros Hq. induction plan as [|[tier division] plan IH]; intros w Hdead Hlen.
  - exists w, []. rewrite app_nil_r. repeat split.
  - cbn [visited length] in Hlen.
    destruct (network w) as [|o rest] eqn:Hnet; [cbn [length] in Hlen; lia|].
    apply Forall_cons in Hdead as [(e & Hfail) Hdead].
    destruct (process_bucket_empty_page tier division quota (JObj []) (JNum 1)
                [] [] o JNull rest w Hq eq_refl ltac:(constructor)
                (failure_is_final _ _ Hfail) eq_refl Hnet)
      as (w1 & inner & Hrun1 & Hf1 & _ & Hn1 & Ht1 & HP1).
    set (added1 := ELog (LogProcessing tier division)
                     :: ECall (LeagueEntries tier division (JNum 1)) :: inner) in Ht1.
    assert (Hc1 : api_calls added1 = [LeagueEntries tier division (JNum 1)]).
    { subst added1.
      change (ELog ?m :: ECall ?c :: inner) with ([ELog m; ECall c] ++ inner).
      rewrite api_calls_app, (transport_events_no_calls _ HP1). reflexivity. }
    assert (Hw1 : file_writes added1 = []).
    { subst added1.
      change (ELog ?m :: ECall ?c :: inner) with ([ELog m; ECall c] ++ inner).
      rewrite file_writes_app. destruct (transport_events_no_writes _ HP1) as [-> _].
      reflexivity. }
    clearbody added1.
    cbn [run_plan visited]. unfold mbind at 1, M_bind at 1. rewrite Hrun1.
    destruct (is_diamond_I tier division) eqn:Hd.
    + eexists _, (added1 ++ [ELog LogFinishedDiamondI]).
      split; [reflexivity|]. cbn [files network trace set_trace length drop map fst snd].
      split; [exact Hf1|]. split; [rewrite Hn1, drop_0; reflexivity|].
      split; [rewrite Ht1, <- app_assoc; reflexivity|].
      rewrite api_calls_app, file_writes_app, Hc1, Hw1. split; reflexivity.
    + destruct (IH w1) as (w' & added2 & Hrun2 & Hf2 & Hn2 & Ht2 & Hc2 & Hw2).
      { rewrite Hn1. exact Hdead. }
      { rewrite Hn1. cbn [length] in Hlen.
        destruct (is_diamond_I tier division); [discriminate|].
        cbn [length] in Hlen. lia. }
      exists w', (added1 ++ added2). split; [exact Hrun2|].
      split; [rewrite Hf2; exact Hf1|].
      split; [rewrite Hn2, Hn1; reflexivity|].
      split; [rewrite Ht2, Ht1, <- app_assoc; reflexivity|].
      rewrite api_calls_app, file_writes_app, Hc1, Hw1, Hc2, Hw2.
      split; reflexivity.
Qed.

(** X15. A first run (no state file) with a positive quota against a
    server that only fails, in any of the ways a request can fail: the
    run does not stop at the first failure.  It asks for page 1 of each
    of the 28 buckets in order, one request each, writes nothing, and
    returns. *)
Theorem dead_server_costs_one_request_per_bucket (matches_per_tier : Z) (w : World) :
  0 < matches_per_tier ->
  files w !! STATE_FILE = None ->
  Forall (fun o => exists e, failure_of o = Some e) (network w) ->
  (length specified_order <= length (network w))%nat ->
  exists w' added,
    collect_data matches_per_tier w = (Ret tt, w') /\
    files w' = files w /\
    network w' = drop (length specified_order) (network w) /\
    trace w' = trace w ++ added /\
    api_calls added = map (fun b => LeagueEntries b.1 b.2 (JNum 1)) specified_order /\
    file_writes added = [].
Proof.
  intros Hq Hnone Hdead Hlen. unfold collect_data.
  unfold mbind at 1, M_bind at 1. rewrite load_state_run, Hnone.
  rewrite for_tiers_flat.
  destruct (run_plan_dead matches_per_tier (plan_of TIERS) Hq w Hdead)
    as (w' & added & Hrun & Hrest).
  { rewrite visited_plan_of_TIERS. exact Hlen. }
  rewrite visited_plan_of_TIERS in Hrest. exists w', added. split; assumption.
Qed.

(** ** The quota *)

Lemma matches_saved_app a b : matches_saved (a ++ b) = matches_saved a + matches_saved b.
Proof.
  unfold matches_saved, match_writes. rewrite omap_app, length_app. lia.
Qed.

Lemma matches_saved_none added : Forall no_match_write added -> matches_saved added = 0.
Proof.
  unfold matches_saved, match_writes.
  induction 1 as [|e added He _ IH]; [reflexivity|].
  destruct e as [| | | | |[]| | |]; try contradiction; exact IH.
Qed.

Lemma transport_no_match_write e : transport_event e -> no_match_write e.
Proof. destruct e as [| | | | |[]| | |]; simpl; tauto. Qed.

Lemma keeps_no_write_api_call req : keeps no_match_write (make_api_call req).
Proof. apply keeps_make_api_call; [exact I|exact transport_no_match_write]. Qed.

Lemma keeps_no_write_get_puuid summoner_id :
  keeps no_match_write (get_puuid summoner_id).
Proof.
  unfold get_puuid.
  apply keeps_bind; [apply keeps_lift|intros key].
  apply keeps_bind; [apply keeps_gets|intros [puuid|]]; [apply keeps_ret|].
  apply keeps_bind; [apply keeps_no_write_api_call|intros data].
  apply keeps_bind;
    [destruct (truthy data); [apply keeps_lift|apply keeps_ret]|intros puuid].
  apply keeps_bind; [|intros _; apply keeps_ret].
  apply keeps_modify. intros w. split; reflexivity.
Qed.

Lemma keeps_no_write_get_matches puuid count :
  keeps no_match_write (get_matches puuid count).
Proof.
  unfold get_matches.
  apply keeps_bind; [apply keeps_no_write_api_call|intros r]. apply keeps_ret.
Qed.

Lemma keeps_no_write_index match_id tier division :
  keeps no_match_write (save_match_id_csv match_id tier division).
Proof.
  unfold save_match_id_csv.
  apply keeps_bind; [apply keeps_gets|intros file_exists].
  apply keeps_bind; [|intros _; apply keeps_append_row; exact I].
  destruct (negb file_exists); [apply keeps_append_row; exact I|apply keeps_ret].
Qed.

(** [save_match] writes one match file when it returns true, and none
    otherwise. *)
Lemma save_match_counts match_id tier division w r w' :
  save_match match_id tier division w = (r, w') ->
  exists added,
    trace w' = trace w ++ added /\
    matches_saved added = match r with Ret true => 1 | _ => 0 end.
Proof.
  unfold save_match.
  unfold mbind at 1, M_bind at 1, emit at 1, modify at 1.
  set (w0 := set_trace _ w).
  unfold mbind at 1, M_bind at 1, path_exists at 1, gets at 1.
  destruct (bool_decide _).
  { intros [= <- <-]. exists [EMakedirs (match_folder tier division)].
    split; reflexivity. }
  intros Hrun.
  pose proof (keeps_no_write_api_call (MatchDetail match_id) w0) as Hcall.
  apply bind_inv in Hrun as [(data & w1 & Hget & Hrun)|[(e & Hget & ->)|[Hget ->]]];
    rewrite Hget in Hcall; cbn [snd] in Hcall;
    destruct Hcall as [_ (added1 & Ht1 & HP1)].
  2,3: exists (EMakedirs (match_folder tier division) :: added1);
       (split; [rewrite Ht1; subst w0; cbn [trace set_trace];
                rewrite <- app_assoc; reflexivity|]);
       change (EMakedirs ?p :: added1) with ([EMakedirs p] ++ added1);
       rewrite matches_saved_app, (matches_saved_none _ HP1); reflexivity.
  destruct (truthy data).
  2:{ injection Hrun as <- <-.
      exists (EMakedirs (match_folder tier division) :: added1).
      split; [rewrite Ht1; subst w0; cbn [trace set_trace];
              rewrite <- app_assoc; reflexivity|].
      change (EMakedirs ?p :: added1) with ([EMakedirs p] ++ added1).
      rewrite matches_saved_app, (matches_saved_none _ HP1). reflexivity. }
  unfold write_json in Hrun.
  unfold mbind at 1, M_bind at 1 in Hrun.
  unfold mbind at 1, M_bind at 1, emit at 1, modify at 1 in Hrun.
  unfold modify at 1 in Hrun.
  set (w2 := set_files _ _) in Hrun.
  assert (Ht2 : trace w2 = trace w1 ++
                  [EWrite MatchWrite (match_file match_id tier division) data])
    by reflexivity.
  clearbody w2.
  pose proof (keeps_no_write_index match_id tier division w2) as Hindex.
  apply bind_inv in Hrun as [([] & w3 & Hcsv & Hrun)|[(e & Hcsv & ->)|[Hcsv ->]]];
    rewrite Hcsv in Hindex; cbn [snd] in Hindex;
    destruct Hindex as [_ (added3 & Ht3 & HP3)].
  2,3: destruct (save_match_id_csv_run match_id tier division w2) as (w3 & Hok & _);
       rewrite Hok in Hcsv; discriminate.
  unfold mbind at 1, M_bind at 1, emit at 1, modify at 1 in Hrun.
  injection Hrun as <- <-.
  exists ((EMakedirs (match_folder tier division) :: added1) ++
          [EWrite MatchWrite (match_file match_id tier division) data] ++
          added3 ++ [ELog (LogSaved match_id tier division)]).
  split.
  - cbn [trace set_trace]. rewrite Ht3, Ht2, Ht1. subst w0. cbn [trace set_trace].
    rewrite <- !app_assoc. reflexivity.
  - change (EMakedirs ?p :: added1) with ([EMakedirs p] ++ added1).
    rewrite !matches_saved_app, (matches_saved_none _ HP1), (matches_saved_none _ HP3).
    reflexivity.
Qed.

Lemma for_matches_counts tier division quota ids : forall collected done w r w',
  for_matches tier division quota ids collected done w = (r, w') ->
  exists added,
    trace w' = trace w ++ added /\
    collected + matches_saved added <= Z.max quota collected /\
    forall c d, r = Ret (c, d) -> c = collected + matches_saved added.
Proof.
  induction ids as [|match_id rest IH]; intros collected done w r w' Hrun.
  { injection Hrun as <- <-. exists []. rewrite app_nil_r.
    split; [reflexivity|]. change (matches_saved []) with 0.
    split; [lia|]. intros c d [= <- _]. lia. }
  cbn [for_matches] in Hrun.
  destruct (quota <=? collected) eqn:Hfull.
  { injection Hrun as <- <-. exists []. rewrite app_nil_r.
    split; [reflexivity|]. change (matches_saved []) with 0.
    split; [lia|]. intros c d [= <- _]. lia. }
  apply Z.leb_gt in Hfull.
  destruct (save_match match_id tier division w) as [r1 w1] eqn:Hsave.
  destruct (save_match_counts _ _ _ _ _ _ Hsave) as (added1 & Ht1 & Hc1).
  apply bind_inv in Hrun as [(saved & w1' & Hs & Hrun)|[(e & Hs & ->)|[Hs ->]]];
    rewrite Hsave in Hs; injection Hs as -> <-.
  2,3: exists added1; (split; [exact Ht1|]); rewrite Hc1;
       (split; [lia|discriminate]).
  destruct saved.
  - unfold mbind at 1, M_bind at 1, emit at 1, modify at 1 in Hrun.
    destruct (IH _ _ _ _ _ Hrun) as (added2 & Ht2 & Hle2 & Hret2).
    exists (added1 ++ [ELog (LogCollected (collected + 1) quota tier division)] ++ added2).
    split; [rewrite Ht2; cbn [trace set_trace]; rewrite Ht1, <- !app_assoc; reflexivity|].
    rewrite !matches_saved_app, Hc1.
    change (matches_saved [ELog ?m]) with 0.
    split; [lia|]. intros c d Hret. rewrite (Hret2 c d Hret). lia.
  - destruct (IH _ _ _ _ _ Hrun) as (added2 & Ht2 & Hle2 & Hret2).
    exists (added1 ++ added2).
    split; [rewrite Ht2, Ht1, <- app_assoc; reflexivity|].
    rewrite matches_saved_app, Hc1.
    split; [lia|]. intros c d Hret. rewrite (Hret2 c d Hret). lia.
Qed.

Lemma for_players_counts tier division quota players : forall collected done w r w',
  for_players tier division quota players collected done w = (r, w') ->
  exists added,
    trace w' = trace w ++ added /\
    collected + matches_saved added <= Z.max quota collected /\
    forall c d, r = Ret (c, d) -> c = collected + matches_saved added.
Proof.
  induction players as [|player rest IH]; intros collected done w r w' Hrun.
  { injection Hrun as <- <-. exists []. rewrite app_nil_r.
    split; [reflexivity|]. change (matches_saved []) with 0.
    split; [lia|]. intros c d [= <- _]. lia. }
  cbn [for_players] in Hrun.
  destruct (quota <=? collected) eqn:Hfull.
  { injection Hrun as <- <-. exists []. rewrite app_nil_r.
    split; [reflexivity|]. change (matches_saved []) with 0.
    split; [lia|]. intros c d [= <- _]. lia. }
  apply Z.leb_gt in Hfull.
  assert (Hstop : forall added, trace w' = trace w ++ added ->
            Forall no_match_write added -> (forall c d, r <> Ret (c, d)) ->
            exists added,
              trace w' = trace w ++ added /\
              collected + matches_saved added <= Z.max quota collected /\
              forall c d, r = Ret (c, d) -> c = collected + matches_saved added).
  { intros added Ht HP Hr. exists added. split; [exact Ht|].
    rewrite (matches_saved_none _ HP). split; [lia|].
    intros c d Hret. destruct (Hr c d Hret). }
  apply bind_inv in Hrun as [(summoner_id & w0 & Hid & Hrun)|[(e & Hid & ->)|[Hid ->]]];
    unfold lift in Hid; injection Hid as Hid <-.
  2,3: apply (Hstop []); [rewrite app_nil_r; reflexivity|constructor|discriminate].
  pose proof (keeps_no_write_get_puuid summoner_id w) as Hpuuid.
  apply bind_inv in Hrun as [(puuid & w1 & Hget & Hrun)|[(e & Hget & ->)|[Hget ->]]];
    rewrite Hget in Hpuuid; cbn [snd] in Hpuuid;
    destruct Hpuuid as [_ (added1 & Ht1 & HP1)].
  2,3: apply (Hstop added1); [exact Ht1|exact HP1|discriminate].
  destruct (negb (truthy puuid)).
  { destruct (IH _ _ _ _ _ Hrun) as (added2 & Ht2 & Hle2 & Hret2).
    exists (added1 ++ added2).
    split; [rewrite Ht2, Ht1, <- app_assoc; reflexivity|].
    rewrite matches_saved_app, (matches_saved_none _ HP1).
    split; [lia|]. intros c d Hret. rewrite (Hret2 c d Hret). lia. }
  pose proof (keeps_no_write_get_matches puuid 10 w1) as Hmatches.
  apply bind_inv in Hrun as [(matches & w2 & Hm & Hrun)|[(e & Hm & ->)|[Hm ->]]];
    rewrite Hm in Hmatches; cbn [snd] in Hmatches;
    destruct Hmatches as [_ (added2 & Ht2 & HP2)].
  2,3: apply (Hstop (added1 ++ added2));
       [rewrite Ht2, Ht1, <- app_assoc; reflexivity
       |apply Forall_app; split; assumption|discriminate].
  assert (Ht12 : trace w2 = trace w ++ (added1 ++ added2))
    by (rewrite Ht2, Ht1, <- app_assoc; reflexivity).
  assert (HP12 : Forall no_match_write (added1 ++ added2))
    by (apply Forall_app; split; assumption).
  apply bind_inv in Hrun as [(first5 & w2' & Hslice & Hrun)|[(e & Hslice & ->)|[Hslice ->]]];
    unfold lift in Hslice; injection Hslice as Hslice <-.
  2,3: apply (Hstop (added1 ++ added2)); [exact Ht12|exact HP12|discriminate].
  apply bind_inv in Hrun as [(ids & w2' & Hiter & Hrun)|[(e & Hiter & ->)|[Hiter ->]]];
    unfold lift in Hiter; injection Hiter as Hiter <-.
  2,3: apply (Hstop (added1 ++ added2)); [exact Ht12|exact HP12|discriminate].
  destruct (for_matches tier division quota ids collected done w2) as [r3 w3] eqn:Hfor.
  destruct (for_matches_counts _ _ _ _ _ _ _ _ _ Hfor) as (added3 & Ht3 & Hle3 & Hret3).
  apply bind_inv in Hrun as [([c3 d3] & w3' & Hf & Hrun)|[(e & Hf & ->)|[Hf ->]]];
    rewrite Hfor in Hf; injection Hf as -> <-.
  2,3: exists ((added1 ++ added2) ++ added3);
       (split; [rewrite Ht3, Ht12, <- app_assoc; reflexivity|]);
       rewrite matches_saved_app, (matches_saved_none _ HP12);
       (split; [lia|discriminate]).
  specialize (Hret3 c3 d3 eq_refl).
  destruct (IH _ _ _ _ _ Hrun) as (added4 & Ht4 & Hle4 & Hret4).
  exists (((added1 ++ added2) ++ added3) ++ added4).
  split; [rewrite Ht4, Ht3, Ht12, <- !app_assoc; reflexivity|].
  rewrite !matches_saved_app, (matches_saved_none _ HP1), (matches_saved_none _ HP2).
  split; [lia|]. intros c d Hret. rewrite (Hret4 c d Hret). lia.
Qed.

Lemma while_pages_counts tier division quota fuel :
  forall page collected done state w r w',
    while_pages fuel tier division quota page collected done state w = (r, w') ->
    exists added,
      trace w' = trace w ++ added /\
      collected + matches_saved added <= Z.max quota collected.
Proof.
  induction fuel as [|fuel IH]; intros page collected done state w r w' Hrun.
  { injection Hrun as <- <-. exists []. rewrite app_nil_r.
    split; [reflexivity|]. change (matches_saved []) with 0. lia. }
  cbn [while_pages] in Hrun.
  destruct ((collected <? quota) && negb done) eqn:Hcond.
  2:{ injection Hrun as <- <-. exists []. rewrite app_nil_r.
      split; [reflexivity|]. change (matches_saved []) with 0. lia. }
  apply andb_true_iff in Hcond as [Hlt _]. apply Z.ltb_lt in Hlt.
  assert (Hstop : forall added, trace w' = trace w ++ added ->
            Forall no_match_write added ->
            exists added,
              trace w' = trace w ++ added /\
              collected + matches_saved added <= Z.max quota collected).
  { intros added Ht HP. exists added. split; [exact Ht|].
    rewrite (matches_saved_none _ HP). lia. }
  unfold get_players in Hrun.
  pose proof (keeps_no_write_api_call (LeagueEntries tier division page) w) as Hcall.
  apply bind_inv in Hrun as [(players & w1 & Hget & Hrun)|[(e & Hget & ->)|[Hget ->]]];
    rewrite Hget in Hcall; cbn [snd] in Hcall;
    destruct Hcall as [_ (added1 & Ht1 & HP1)].
  2,3: apply (Hstop added1); assumption.
  destruct (negb (truthy players)).
  { injection Hrun as <- <-. apply (Hstop added1); assumption. }
  apply bind_inv in Hrun as [(items & w1' & Hiter & Hrun)|[(e & Hiter & ->)|[Hiter ->]]];
    unfold lift in Hiter; injection Hiter as Hiter <-.
  2,3: apply (Hstop added1); assumption.
  destruct (for_players tier division quota items collected done w1) as [r2 w2] eqn:Hfor.
  destruct (for_players_counts _ _ _ _ _ _ _ _ _ Hfor) as (added2 & Ht2 & Hle2 & Hret2).
  assert (Ht12 : trace w2 = trace w ++ (added1 ++ added2))
    by (rewrite Ht2, Ht1, <- app_assoc; reflexivity).
  assert (Hc12 : matches_saved (added1 ++ added2) = matches_saved added2)
    by (rewrite matches_saved_app, (matches_saved_none _ HP1); lia).
  apply bind_inv in Hrun as [([c2 d2] & w2' & Hf & Hrun)|[(e & Hf & ->)|[Hf ->]]];
    rewrite Hfor in Hf; injection Hf as -> <-.
  2,3: exists (added1 ++ added2); (split; [exact Ht12|]); rewrite Hc12; lia.
  specialize (Hret2 c2 d2 eq_refl).
  apply bind_inv in Hrun as [(state1 & w2' & Hset & Hrun)|[(e & Hset & ->)|[Hset ->]]];
    unfold lift in Hset; injection Hset as Hset <-.
  2,3: exists (added1 ++ added2); (split; [exact Ht12|]); rewrite Hc12; lia.
  unfold save_state, write_json in Hrun.
  unfold mbind at 1, M_bind at 1 in Hrun.
  unfold mbind at 1, M_bind at 1, emit at 1, modify at 1 in Hrun.
  unfold modify at 1 in Hrun.
  set (w3 := set_files _ _) in Hrun.
  assert (Ht3 : trace w3 = trace w ++
                  ((added1 ++ added2) ++ [EWrite StateWrite STATE_FILE state1])).
  { subst w3. cbn [trace set_files set_trace]. rewrite Ht12, <- !app_assoc. reflexivity. }
  assert (Hc3 : matches_saved ((added1 ++ added2) ++ [EWrite StateWrite STATE_FILE state1])
                = matches_saved added2).
  { rewrite matches_saved_app, Hc12. change (matches_saved [EWrite StateWrite ?p ?v]) with 0.
    lia. }
  clearbody w3.
  apply bind_inv in Hrun as [(page' & w3' & Hadd & Hrun)|[(e & Hadd & ->)|[Hadd ->]]];
    unfold lift in Hadd; injection Hadd as Hadd <-.
  2,3: eexists; (split; [exact Ht3|]); rewrite Hc3; lia.
  unfold sleep in Hrun. cbn [Z.ltb Z.compare] in Hrun.
  unfold mbind at 1, M_bind at 1 in Hrun.
  unfold mbind at 1, M_bind at 1, emit at 1, modify at 1 in Hrun.
  unfold modify at 1 in Hrun.
  destruct (IH _ _ _ _ _ _ _ Hrun) as (added5 & Ht5 & Hle5).
  exists (((added1 ++ added2) ++ [EWrite StateWrite STATE_FILE state1])
          ++ [ESleep PageSleep 500000] ++ added5).
  split.
  { rewrite Ht5. cbn [trace set_clock set_trace]. rewrite Ht3, <- !app_assoc.
    reflexivity. }
  rewrite matches_saved_app, Hc3, matches_saved_app.
  change (matches_saved [ESleep ?a ?b]) with 0. lia.
Qed.

Lemma process_bucket_counts tier division quota state w :
  exists added,
    trace (snd (process_bucket tier division quota state w)) = trace w ++ added /\
    0 <= matches_saved added <= Z.max quota 0.
Proof.
  destruct (process_bucket tier division quota state w) as [r w'] eqn:Hrun.
  cbn [snd]. unfold process_bucket in Hrun.
  unfold mbind at 1, M_bind at 1, emit at 1, modify at 1 in Hrun.
  set (w0 := set_trace _ w) in Hrun.
  assert (Hstop : w' = w0 ->
            exists added,
              trace w' = trace w ++ added /\ 0 <= matches_saved added <= Z.max quota 0).
  { intros ->. exists [ELog (LogProcessing tier division)].
    split; [reflexivity|]. change (matches_saved [ELog ?m]) with 0. lia. }
  apply bind_inv in Hrun as [(by_tier & w1 & Htier & Hrun)|[(e & Htier & ->)|[Htier ->]]];
    unfold lift in Htier; injection Htier as Htier <-.
  2,3: apply Hstop; reflexivity.
  apply bind_inv in Hrun as [(page & w1 & Hpage & Hrun)|[(e & Hpage & ->)|[Hpage ->]]];
    unfold lift in Hpage; injection Hpage as Hpage <-.
  2,3: apply Hstop; reflexivity.
  unfold mbind at 1, M_bind at 1, gets at 1 in Hrun.
  destruct (while_pages_counts _ _ _ _ _ _ _ _ _ _ _ Hrun) as (added & Ht & Hle).
  exists (ELog (LogProcessing tier division) :: added).
  split; [rewrite Ht; subst w0; cbn [trace set_trace]; rewrite <- app_assoc; reflexivity|].
  change (ELog ?m :: added) with ([ELog m] ++ added).
  rewrite matches_saved_app. change (matches_saved [ELog ?m]) with 0.
  unfold matches_saved in *. lia.
Qed.

Lemma run_plan_counts quota plan : forall state w,
  exists added,
    trace (snd (run_plan quota plan (fun _ => mret tt) state w)) = trace w ++ added /\
    0 <= matches_saved added <= Z.of_nat (length (visited plan)) * Z.max quota 0.
Proof.
  induction plan as [|[tier division] plan IH]; intros state w.
  { exists []. rewrite app_nil_r. split; [reflexivity|]. change (matches_saved []) with 0. lia. }
  destruct (process_bucket_counts tier division quota state w) as (added1 & Ht1 & Hle1).
  cbn [run_plan visited]. unfold mbind at 1, M_bind at 1.
  destruct (process_bucket tier division quota state w) as [[state1|e|] w1];
    cbn [snd] in Ht1 |- *.
  2,3: exists added1; (split; [exact Ht1|]); cbn [length]; nia.
  destruct (is_diamond_I tier division).
  - exists (added1 ++ [ELog LogFinishedDiamondI]).
    split; [simpl; rewrite Ht1, <- app_assoc; reflexivity|].
    rewrite matches_saved_app. change (matches_saved [ELog ?m]) with 0.
    cbn [length]. nia.
  - destruct (IH state1 w1) as (added2 & Ht2 & Hle2).
    exists (added1 ++ added2).
    split; [rewrite Ht2, Ht1, <- app_assoc; reflexivity|].
    rewrite matches_saved_app. cbn [length]. nia.
Qed.

(** X16. The quota is respected, whatever the servers answer and however
    the run ends: the processing of one bucket writes at most
    [matches_per_tier] match files (none when the quota is zero or
    less), and a whole run at most that many for each of the 28
    buckets. *)
Theorem collect_data_respects_the_quota (matches_per_tier : Z) :
  (forall tier division state w,
     exists added,
       trace (snd (process_bucket tier division matches_per_tier state w))
       = trace w ++ added /\
       0 <= matches_saved added <= Z.max matches_per_tier 0) /\
  (forall w,
     exists added,
       trace (snd (collect_data matches_per_tier w)) = trace w ++ added /\
       0 <= matches_saved added <= 28 * Z.max matches_per_tier 0).
Proof.
  split; [intros tier division state w; apply process_bucket_counts|].
  intros w. unfold collect_data. unfold mbind at 1, M_bind at 1.
  rewrite load_state_run.
  destruct (match files w !! STATE_FILE with
            | Some [CJson state] => Ret state
            | Some _ => Raise JSONDecodeError
            | None => Ret (JObj [])
            end) as [state|e|].
  2,3: exists []; rewrite app_nil_r; (split; [reflexivity|]);
       change (matches_saved []) with 0; lia.
  rewrite for_tiers_flat.
  destruct (run_plan_counts matches_per_tier (plan_of TIERS) state w)
    as (added & Ht & Hle).
  exists added. split; [exact Ht|].
  rewrite visited_plan_of_TIERS in Hle. exact Hle.
Qed.

(** ** Properties that hold of any sequence of steps *)

Section Sequencing.

Variable S : World -> bool -> World -> Prop.
Hypothesis S_sequential : sequential S.

Lemma satisfies_pure {A} (m : M A) : (forall w, snd (m w) = w) -> satisfies S m.
Proof.
  intros Hm w. rewrite Hm. destruct (returned _).
  - apply S_sequential.
  - apply S_sequential, S_sequential.
Qed.

Lemma satisfies_ret {A} (a : A) : satisfies S (mret a).
Proof. apply satisfies_pure. reflexivity. Qed.

Lemma satisfies_lift {A} (r : result A) : satisfies S (lift r).
Proof. apply satisfies_pure. reflexivity. Qed.

Lemma satisfies_gets {A} (f : World -> A) : satisfies S (gets f).
Proof. apply satisfies_pure. reflexivity. Qed.

Lemma satisfies_bind {A B} (m : M A) (f : A -> M B) :
  satisfies S m -> (forall a, satisfies S (f a)) -> satisfies S (m ≫= f).
Proof.
  intros Hm Hf w. unfold mbind, M_bind. specialize (Hm w).
  destruct (m w) as [[a|e|] w1]; cbn [fst snd returned] in *; try exact Hm.
  eapply (sequential_trans S S_sequential); [exact Hm|apply Hf].
Qed.

(** The steps of the collection loop. *)
Hypothesis S_log : forall m, satisfies S (emit (ELog m)).
Hypothesis S_get_players : forall tier division page,
  satisfies S (get_players tier division page).
Hypothesis S_get_puuid : forall summoner_id, satisfies S (get_puuid summoner_id).
Hypothesis S_get_matches : forall puuid count, satisfies S (get_matches puuid count).
Hypothesis S_save_match : forall match_id tier division,
  satisfies S (save_match match_id tier division).
Hypothesis S_save_state : forall state, satisfies S (save_state state).
Hypothesis S_page_sleep : satisfies S (sleep PageSleep 500000).

Lemma satisfies_for_matches tier division quota ids : forall collected done,
  satisfies S (for_matches tier division quota ids collected done).
Proof.
  induction ids as [|match_id rest IH]; intros collected done; cbn [for_matches].
  - apply satisfies_ret.
  - destruct (quota <=? collected); [apply satisfies_ret|].
    apply satisfies_bind; [apply S_save_match|intros [|]]; [|apply IH].
    apply satisfies_bind; [apply S_log|intros _; apply IH].
Qed.

Lemma satisfies_for_players tier division quota players : forall collected done,
  satisfies S (for_players tier division quota players collected done).
Proof.
  induction players as [|player rest IH]; intros collected done; cbn [for_players].
  - apply satisfies_ret.
  - destruct (quota <=? collected); [apply satisfies_ret|].
    apply satisfies_bind; [apply satisfies_lift|intros summoner_id].
    apply satisfies_bind; [apply S_get_puuid|intros puuid].
    destruct (negb (truthy puuid)); [apply IH|].
    apply satisfies_bind; [apply S_get_matches|intros matches].
    apply satisfies_bind; [apply satisfies_lift|intros first5].
    apply satisfies_bind; [apply satisfies_lift|intros ids].
    apply satisfies_bind; [apply satisfies_for_matches|intros [collected' done']].
    apply IH.
Qed.

Lemma satisfies_while_pages tier division quota fuel :
  forall page collected done state,
    satisfies S (while_pages fuel tier division quota page collected done state).
Proof.
  induction fuel as [|fuel IH]; intros page collected done state; cbn [while_pages].
  - apply satisfies_pure. reflexivity.
  - destruct (_ && _); [|apply satisfies_ret].
    apply satisfies_bind; [apply S_get_players|intros players].
    destruct (negb (truthy players)); [apply satisfies_ret|].
    apply satisfies_bind; [apply satisfies_lift|intros items].
    apply satisfies_bind; [apply satisfies_for_players|intros [collected' done']].
    apply satisfies_bind; [apply satisfies_lift|intros state'].
    apply satisfies_bind; [apply S_save_state|intros _].
    apply satisfies_bind; [apply satisfies_lift|intros page'].
    apply satisfies_bind; [apply S_page_sleep|intros _].
    apply IH.
Qed.

Lemma satisfies_process_bucket tier division quota state :
  satisfies S (process_bucket tier division quota state).
Proof.
  unfold process_bucket.
  apply satisfies_bind; [apply S_log|intros _].
  apply satisfies_bind; [apply satisfies_lift|intros by_tier].
  apply satisfies_bind; [apply satisfies_lift|intros page].
  apply satisfies_bind; [apply satisfies_gets|intros fuel].
  apply satisfies_while_pages.
Qed.

Lemma satisfies_for_divisions tier quota divisions : forall state,
  satisfies S (for_divisions tier quota divisions state).
Proof.
  induction divisions as [|division rest IH]; intros state; cbn [for_divisions].
  - apply satisfies_ret.
  - apply satisfies_bind; [apply satisfies_process_bucket|intros state'].
    destruct (_ && _); [|apply IH].
    apply satisfies_bind; [apply S_log|intros _; apply satisfies_ret].
Qed.

Lemma satisfies_for_tiers quota tiers : forall state,
  satisfies S (for_tiers quota tiers state).
Proof.
  induction tiers as [|tier rest IH]; intros state; cbn [for_tiers].
  - apply satisfies_ret.
  - apply satisfies_bind; [apply satisfies_for_divisions|intros [returned' state']].
    destruct returned'; [apply satisfies_ret|apply IH].
Qed.

Lemma satisfies_collect_data quota : satisfies S (collect_data quota).
Proof.
  unfold collect_data.
  apply satisfies_bind; [|intros state; apply satisfies_for_tiers].
  apply satisfies_pure. intros w. rewrite load_state_run. reflexivity.
Qed.

End Sequencing.

(** ** Lookups over a run *)

Lemma summoner_lookups_app a b :
  summoner_lookups (a ++ b) = summoner_lookups a ++ summoner_lookups b.
Proof. apply omap_app. Qed.

Lemma quiet_events_no_lookup added :
  Forall quiet_event added -> summoner_lookups added = [].
Proof.
  induction 1 as [|e added He _ IH]; [reflexivity|].
  destruct e as [| |[]| | | | | |]; try contradiction; exact IH.
Qed.

Lemma transport_quiet e : transport_event e -> quiet_event e.
Proof. destruct e as [| |[]| | | | | |]; simpl; tauto. Qed.

Lemma lookups_once_sequential : sequential lookups_once.
Proof.
  split.
  - intros w. split; [reflexivity|]. exists []. rewrite app_nil_r.
    split; [reflexivity|]. split; constructor.
  - intros w1 w2 w3 ok (Hsub1 & a1 & Ht1 & Hnd1 & Hall1) (Hsub2 & a2 & Ht2 & Hnd2 & Hall2).
    split; [etrans; eassumption|].
    exists (a1 ++ a2). split; [rewrite Ht2, Ht1, app_assoc; reflexivity|].
    rewrite summoner_lookups_app, fmap_app. split.
    + apply NoDup_app. split; [exact Hnd1|]. split; [|exact Hnd2].
      intros k Hk1 Hk2.
      apply list_elem_of_fmap in Hk1 as (id1 & -> & Hid1).
      apply list_elem_of_fmap in Hk2 as (id2 & Heq & Hid2).
      rewrite Forall_forall in Hall1, Hall2.
      destruct (Hall1 id1 Hid1) as (k1 & Hk1 & _ & Hcached).
      destruct (Hall2 id2 Hid2) as (k2 & Hk2 & Hfresh & _).
      rewrite Hk1, Hk2 in Heq. injection Heq as ->.
      destruct (Hcached eq_refl) as [v Hv]. congruence.
    + apply Forall_app. split.
      * eapply Forall_impl; [exact Hall1|]. cbv beta.
        intros id (key & Hkey & Hfresh & Hcached). exists key.
        split; [exact Hkey|]. split; [exact Hfresh|]. intros _.
        eapply lookup_weaken_is_Some; [apply Hcached; reflexivity|exact Hsub2].
      * eapply Forall_impl; [exact Hall2|]. cbv beta.
        intros id (key & Hkey & Hfresh & Hcached). exists key.
        split; [exact Hkey|]. split; [|exact Hcached].
        eapply lookup_weaken_None; eassumption.
  - intros w1 w2 (Hsub & added & Ht & Hnd & Hall). split; [exact Hsub|].
    exists added. split; [exact Ht|]. split; [exact Hnd|].
    eapply Forall_impl; [exact Hall|]. cbv beta.
    intros id (key & Hkey & Hfresh & _). exists key.
    split; [exact Hkey|]. split; [exact Hfresh|discriminate].
Qed.

(** A computation that leaves the cache alone and looks nothing up. *)
Lemma lookups_once_quiet {A} (m : M A) :
  (forall w, puuid_cache (snd (m w)) = puuid_cache w) ->
  keeps quiet_event m -> satisfies lookups_once m.
Proof.
  intros Hcache Hquiet w. destruct (Hquiet w) as [_ (added & Ht & HP)].
  split; [rewrite Hcache; reflexivity|].
  exists added. split; [exact Ht|].
  rewrite (quiet_events_no_lookup _ HP). split; constructor.
Qed.

Lemma make_api_call_cache req w :
  puuid_cache (snd (make_api_call req w)) = puuid_cache w.
Proof.
  destruct (make_api_call_frame req w) as (r & w' & -> & _ & Hc & _). exact Hc.
Qed.

Lemma save_match_cache match_id tier division w :
  puuid_cache (snd (save_match match_id tier division w)) = puuid_cache w.
Proof.
  unfold save_match.
  unfold mbind at 1, M_bind at 1, emit at 1, modify at 1.
  unfold mbind at 1, M_bind at 1, path_exists at 1, gets at 1.
  destruct (bool_decide _); [reflexivity|].
  unfold mbind at 1, M_bind at 1.
  pose proof (make_api_call_cache (MatchDetail match_id)
                (set_trace (trace w ++ [EMakedirs (match_folder tier division)]) w))
    as Hc.
  fold (match_folder tier division).
  destruct (make_api_call _ _) as [[data|e|] w1]; cbn [snd] in Hc |- *; try exact Hc.
  destruct (truthy data); [|exact Hc].
  unfold write_json, save_match_id_csv, append_row, path_exists. run.
  destruct (bool_decide _); simpl; exact Hc.
Qed.

Lemma keeps_quiet_save_match match_id tier division :
  keeps quiet_event (save_match match_id tier division).
Proof.
  unfold save_match.
  apply keeps_bind; [apply keeps_emit; exact I|intros _].
  apply keeps_bind; [apply keeps_gets|intros [|]]; [apply keeps_ret|].
  apply keeps_bind;
    [apply keeps_make_api_call; [exact I|exact transport_quiet]|intros data].
  destruct (truthy data); [|apply keeps_ret].
  apply keeps_bind; [apply keeps_write_json; exact I|intros _].
  apply keeps_bind; [|intros _].
  { unfold save_match_id_csv.
    apply keeps_bind; [apply keeps_gets|intros file_exists].
    apply keeps_bind; [|intros _; apply keeps_append_row; exact I].
    destruct (negb file_exists); [apply keeps_append_row; exact I|apply keeps_ret]. }
  apply keeps_bind; [apply keeps_emit; exact I|intros _; apply keeps_ret].
Qed.

(** One lookup: at most one call, for a key that was not cached, which is
    cached when the lookup returns. *)
Lemma lookups_once_get_puuid summoner_id : satisfies lookups_once (get_puuid summoner_id).
Proof.
  intros w. destruct (get_puuid summoner_id w) as [r w'] eqn:Hrun. cbn [fst snd].
  pose proof (sequential_refl _ lookups_once_sequential w) as Hrefl.
  pose proof (sequential_fail _ lookups_once_sequential w w Hrefl) as Hrefl'.
  unfold get_puuid in Hrun.
  apply bind_inv in Hrun as [(key & w0 & Hkey & Hrun)|[(e & Hkey & ->)|[Hkey ->]]];
    unfold lift in Hkey; injection Hkey as Hkey <-; try exact Hrefl'.
  unfold mbind at 1, M_bind at 1, gets at 1 in Hrun.
  destruct (puuid_cache w !! key) as [puuid|] eqn:Hmiss.
  { injection Hrun as <- <-. exact Hrefl. }
  destruct (make_api_call_frame (SummonerById summoner_id) w)
    as (r1 & w1 & Hcall & _ & Hc & (added & Ht & HP) & _).
  pose proof (quiet_events_no_lookup added
                ltac:(eapply Forall_impl; [exact HP|exact transport_quiet])) as Hnone.
  assert (Hlook : summoner_lookups (ECall (SummonerById summoner_id) :: added)
                  = [summoner_id]).
  { change (ECall ?c :: added) with ([ECall c] ++ added).
    rewrite summoner_lookups_app, Hnone. reflexivity. }
  assert (Hfail : lookups_once w false w1).
  { split; [rewrite Hc; reflexivity|].
    exists (ECall (SummonerById summoner_id) :: added). split; [exact Ht|].
    rewrite Hlook. split; [repeat constructor; intros Hin; inversion Hin|].
    repeat constructor. exists key. split; [exact Hkey|]. split; [exact Hmiss|].
    discriminate. }
  apply bind_inv in Hrun as [(data & w1' & Hget & Hrun)|[(e & Hget & ->)|[Hget ->]]];
    rewrite Hcall in Hget; injection Hget as -> <-; try exact Hfail.
  assert (Hfield : forall r2 w2,
            (if truthy data then lift (py_dict_get data "puuid" JNull) else mret JNull) w1
            = (r2, w2) -> w2 = w1).
  { intros r2 w2. destruct (truthy data); unfold lift, mret, M_ret;
      intros [= _ <-]; reflexivity. }
  apply bind_inv in Hrun as [(puuid & w2 & Hf & Hrun)|[(e & Hf & ->)|[Hf ->]]];
    apply Hfield in Hf; subst; try exact Hfail.
  unfold mbind at 1, M_bind at 1, modify at 1 in Hrun.
  injection Hrun as <- <-. cbn [returned].
  split.
  - cbn [puuid_cache set_puuid_cache]. rewrite Hc. apply insert_subseteq, Hmiss.
  - exists (ECall (SummonerById summoner_id) :: added).
    split; [exact Ht|]. rewrite Hlook.
    split; [repeat constructor; intros Hin; inversion Hin|].
    repeat constructor. exists key. split; [exact Hkey|]. split; [exact Hmiss|].
    intros _. cbn [puuid_cache set_puuid_cache]. rewrite lookup_insert_eq. eauto.
Qed.

(** X17. Over a whole run, whatever the servers answer and however the
    run ends: no two summoner lookups are for the same cache key (an id
    is looked up at most once per process, what it resolved to or
    [None] being served from the cache from then on), no id the cache
    already held is looked up, and the cache only grows, each entry
    keeping its value. *)
Theorem each_summoner_is_looked_up_once_per_run (matches_per_tier : Z) (w : World) :
  exists added,
    trace (snd (collect_data matches_per_tier w)) = trace w ++ added /\
    NoDup (key_of <$> summoner_lookups added) /\
    Forall (fun id => exists key,
              key_of id = Ret key /\ puuid_cache w !! key = None)
      (summoner_lookups added) /\
    puuid_cache w ⊆ puuid_cache (snd (collect_data matches_per_tier w)).
Proof.
  assert (Hrun : satisfies lookups_once (collect_data matches_per_tier)).
  { apply satisfies_collect_data.
    - exact lookups_once_sequential.
    - intros m. apply lookups_once_quiet; [reflexivity|apply keeps_emit; exact I].
    - intros tier division page. apply lookups_once_quiet.
      + intros w0. apply make_api_call_cache.
      + apply keeps_make_api_call; [exact I|exact transport_quiet].
    - exact lookups_once_get_puuid.
    - intros puuid count. apply lookups_once_quiet.
      + intros w0. unfold get_matches. unfold mbind, M_bind.
        pose proof (make_api_call_cache (MatchIdsByPuuid puuid count) w0) as Hc.
        destruct (make_api_call _ _) as [[v|e|] w1]; exact Hc.
      + unfold get_matches.
        apply keeps_bind; [|intros r; apply keeps_ret].
        apply keeps_make_api_call; [exact I|exact transport_quiet].
    - intros match_id tier division. apply lookups_once_quiet.
      + intros w0. apply save_match_cache.
      + apply keeps_quiet_save_match.
    - intros state. apply lookups_once_quiet; [reflexivity|].
      apply keeps_write_json. exact I.
    - apply lookups_once_quiet; [reflexivity|]. apply keeps_sleep. exact I. }
  destruct (Hrun w) as (Hsub & added & Ht & Hnd & Hall).
  exists added. split; [exact Ht|]. split; [exact Hnd|]. split; [|exact Hsub].
  eapply Forall_impl; [exact Hall|]. cbv beta.
  intros id (key & Hkey & Hfresh & _). eauto.
Qed.

(** ** The files over a run *)

Lemma state_file_not_index : STATE_FILE <> CSV_FILE.
Proof.
  intros Heq. apply (f_equal last_char) in Heq. unfold STATE_FILE, CSV_FILE in Heq.
  rewrite !last_char_path_join in Heq; discriminate.
Qed.

Lemma disk_grows_sequential : sequential (fun w _ w' => disk_grows w w').
Proof.
  split.
  - intros w. split; [auto|]. split; [|eauto].
    intros old Hold. exists []. rewrite app_nil_r. exact Hold.
  - intros w1 w2 w3 _ (Hkeep1 & Hcsv1 & Hstate1) (Hkeep2 & Hcsv2 & Hstate2).
    split; [auto|]. split.
    + intros old Hold. destruct (Hcsv1 old Hold) as (more1 & H1).
      destruct (Hcsv2 _ H1) as (more2 & H2).
      exists (more1 ++ more2). rewrite H2, app_assoc. reflexivity.
    + intros state Hs. destruct (Hstate1 state Hs) as (state1 & H1). eauto.
  - auto.
Qed.

Lemma disk_grows_same {A} (m : M A) :
  (forall w, files (snd (m w)) = files w) ->
  satisfies (fun w _ w' => disk_grows w w') m.
Proof.
  intros Hm w. unfold disk_grows. rewrite Hm. split; [auto|]. split; [|eauto].
  intros old Hold. exists []. rewrite app_nil_r. exact Hold.
Qed.

Lemma make_api_call_files req w : files (snd (make_api_call req w)) = files w.
Proof.
  destruct (make_api_call_frame req w) as (r & w' & -> & Hf & _). exact Hf.
Qed.

Lemma get_puuid_files summoner_id w : files (snd (get_puuid summoner_id w)) = files w.
Proof.
  unfold get_puuid.
  unfold mbind at 1, M_bind at 1, lift at 1.
  destruct (key_of summoner_id) as [key|e|]; try reflexivity.
  unfold mbind at 1, M_bind at 1, gets at 1.
  destruct (puuid_cache w !! key); [reflexivity|].
  unfold mbind at 1, M_bind at 1.
  pose proof (make_api_call_files (SummonerById summoner_id) w) as Hf.
  destruct (make_api_call _ _) as [[data|e|] w1]; cbn [snd] in Hf |- *; try exact Hf.
  unfold mbind at 1, M_bind at 1.
  destruct (truthy data); unfold lift, mret, M_ret.
  - destruct (py_dict_get data "puuid" JNull); exact Hf.
  - exact Hf.
Qed.

(** [save_match] either leaves the files alone, or adds a match file
    that did not exist and one line to the index. *)
Lemma save_match_files match_id tier division w :
  files (snd (save_match match_id tier division w)) = files w \/
  (files w !! match_file match_id tier division = None /\
   exists data,
     files (snd (save_match match_id tier division w)) =
     <[CSV_FILE := index_with [match_id; JStr tier; JStr division]
                     (files w !! CSV_FILE)]>
       (<[match_file match_id tier division := [CJson data]]> (files w))).
Proof.
  destruct (save_match match_id tier division w) as [r w'] eqn:Hrun. cbn [snd].
  unfold save_match in Hrun.
  unfold mbind at 1, M_bind at 1, emit at 1, modify at 1 in Hrun.
  unfold mbind at 1, M_bind at 1, path_exists at 1, gets at 1 in Hrun.
  cbn [files set_trace] in Hrun.
  fold (match_folder tier division) in Hrun.
  fold (match_file match_id tier division) in Hrun.
  destruct (files w !! match_file match_id tier division) as [content|] eqn:Hnew.
  { rewrite bool_decide_eq_true_2 in Hrun by eauto.
    injection Hrun as _ <-. left. reflexivity. }
  rewrite bool_decide_eq_false_2 in Hrun by (intros [? [=]]).
  set (w0 := set_trace _ w) in Hrun.
  pose proof (make_api_call_files (MatchDetail match_id) w0) as Hf.
  apply bind_inv in Hrun as [(data & w1 & Hget & Hrun)|[(e & Hget & ->)|[Hget ->]]];
    rewrite Hget in Hf; cbn [snd] in Hf; try (left; exact Hf).
  destruct (truthy data); [|injection Hrun as _ <-; left; exact Hf].
  right. split; [reflexivity|]. exists data.
  change (files w0) with (files w) in Hf.
  unfold write_json, save_match_id_csv, append_row, path_exists in Hrun.
  unfold mbind, M_bind, mret, M_ret, emit, modify, gets in Hrun.
  cbn [files set_files set_trace] in Hrun. rewrite Hf in Hrun.
  rewrite (lookup_insert_ne (files w) _ _ _ (match_file_not_index match_id tier division))
    in Hrun.
  destruct (files w !! CSV_FILE) as [rows|] eqn:Hcsv.
  - rewrite bool_decide_eq_true_2 in Hrun by eauto. cbn [negb files set_files set_trace] in Hrun.
    rewrite (lookup_insert_ne (files w) _ _ _ (match_file_not_index match_id tier division))
      in Hrun.
    rewrite Hcsv in Hrun. injection Hrun as _ <-. reflexivity.
  - rewrite bool_decide_eq_false_2 in Hrun by (intros [? [=]]).
    cbn [negb files set_files set_trace] in Hrun.
    rewrite lookup_insert_eq in Hrun.
    rewrite (lookup_insert_ne (files w) _ _ _ (match_file_not_index match_id tier division))
      in Hrun.
    rewrite Hcsv in Hrun. injection Hrun as _ <-.
    cbn [files set_files set_trace default from_option id app index_with].
    rewrite insert_insert_eq. reflexivity.
Qed.

Lemma disk_grows_save_match match_id tier division :
  satisfies (fun w _ w' => disk_grows w w') (save_match match_id tier division).
Proof.
  intros w.
  destruct (save_match_files match_id tier division w) as [Hsame|(Hnew & data & Hf)].
  { unfold disk_grows. rewrite Hsame. split; [auto|]. split; [|eauto].
    intros old Hold. exists []. rewrite app_nil_r. exact Hold. }
  unfold disk_grows. rewrite Hf. split; [|split].
  - intros path content Hstate Hcsv Hpath.
    rewrite lookup_insert_ne by congruence.
    rewrite lookup_insert_ne by congruence. exact Hpath.
  - intros old Hold. rewrite lookup_insert_eq, Hold. eexists. reflexivity.
  - intros state Hs.
    rewrite lookup_insert_ne by (apply not_eq_sym, state_file_not_index).
    rewrite lookup_insert_ne by congruence. eauto.
Qed.

Lemma disk_grows_save_state state :
  satisfies (fun w _ w' => disk_grows w w') (save_state state).
Proof.
  intros w.
  assert (Hf : files (snd (save_state state w)) = <[STATE_FILE := [CJson state]]> (files w))
    by reflexivity.
  unfold disk_grows. rewrite Hf. split; [|split].
  - intros path content Hstate _ Hpath. rewrite lookup_insert_ne by congruence.
    exact Hpath.
  - intros old Hold. exists []. rewrite app_nil_r.
    rewrite lookup_insert_ne by apply state_file_not_index. exact Hold.
  - intros st _. rewrite lookup_insert_eq. eauto.
Qed.

(** X18. Over a whole run, whatever the servers answer and however the
    run ends, nothing on disk is lost: every file other than the
    checkpoint and the index that existed before holds what it held (an
    archived match is never overwritten), the index has kept all its
    lines, and a checkpoint file that held a JSON document still holds
    one. *)
Theorem collect_data_loses_no_file (matches_per_tier : Z) (w : World) :
  disk_grows w (snd (collect_data matches_per_tier w)).
Proof.
  apply (satisfies_collect_data (fun w _ w' => disk_grows w w')).
  - exact disk_grows_sequential.
  - intros m. apply disk_grows_same. reflexivity.
  - intros tier division page. apply disk_grows_same.
    intros w0. apply make_api_call_files.
  - intros summoner_id. apply disk_grows_same. intros w0. apply get_puuid_files.
  - intros puuid count. apply disk_grows_same. intros w0.
    unfold get_matches. unfold mbind, M_bind.
    pose proof (make_api_call_files (MatchIdsByPuuid puuid count) w0) as Hf.
    destruct (make_api_call _ _) as [[v|e|] w1]; exact Hf.
  - exact disk_grows_save_match.
  - exact disk_grows_save_state.
  - apply disk_grows_same. reflexivity.
Qed.

(** ** The paths of the archive *)











(** ** The checkpoint on disk *)

Lemma no_state_writes_saved_nothing added :
  Forall no_state_write added -> saved_states added = [].
Proof.
  induction 1 as [|e added He _ IH]; [reflexivity|].
  destruct e as [| | | | |[]| | |]; try contradiction; exact IH.
Qed.

Lemma inner_no_state_write e : inner_event e -> no_state_write e.
Proof. destruct e as [| | | | |[]| | |]; simpl; tauto. Qed.

Lemma transport_no_state_write e : transport_event e -> no_state_write e.
Proof. intros He. apply inner_no_state_write, transport_inner, He. Qed.

Lemma checkpoint_on_disk_sequential :
  sequential (fun w _ w' => checkpoint_on_disk w w').
Proof.
  split.
  - intros w. exists []. rewrite app_nil_r. split; [reflexivity|].
    split; [discriminate|reflexivity].
  - intros w1 w2 w3 _ (a1 & Ht1 & Hlast1 & Hnone1) (a2 & Ht2 & Hlast2 & Hnone2).
    exists (a1 ++ a2). split; [rewrite Ht2, Ht1, app_assoc; reflexivity|].
    rewrite saved_states_app. split.
    + intros state Hlast.
      destruct (saved_states a2) as [|s2 rest2] eqn:Hs2.
      * rewrite app_nil_r in Hlast. specialize (Hlast1 state Hlast).
        rewrite Hnone2; [exact Hlast1|reflexivity|rewrite Hlast1; eauto].
      * apply Hlast2. rewrite last_app_cons in Hlast. exact Hlast.
    + intros Hnil Hsome. apply app_eq_nil in Hnil as [Hn1 Hn2].
      rewrite Hnone2; [apply Hnone1; assumption|exact Hn2|].
      rewrite Hnone1; assumption.
  - auto.
Qed.

(** A computation that writes no checkpoint and leaves an existing
    checkpoint file alone. *)
Lemma checkpoint_on_disk_quiet {A} (m : M A) :
  (forall w, is_Some (files w !! STATE_FILE) ->
             files (snd (m w)) !! STATE_FILE = files w !! STATE_FILE) ->
  keeps no_state_write m ->
  satisfies (fun w _ w' => checkpoint_on_disk w w') m.
Proof.
  intros Hfile Hquiet w. destruct (Hquiet w) as [_ (added & Ht & HP)].
  exists added. split; [exact Ht|].
  rewrite (no_state_writes_saved_nothing _ HP).
  split; [discriminate|]. intros _. apply Hfile.
Qed.

Lemma checkpoint_on_disk_same {A} (m : M A) :
  (forall w, files (snd (m w)) = files w) ->
  keeps no_state_write m ->
  satisfies (fun w _ w' => checkpoint_on_disk w w') m.
Proof.
  intros Hfiles. apply checkpoint_on_disk_quiet. intros w _. rewrite Hfiles. reflexivity.
Qed.

Lemma collect_data_checkpoint_on_disk quota :
  satisfies (fun w _ w' => checkpoint_on_disk w w') (collect_data quota).
Proof.
  apply (satisfies_collect_data (fun w _ w' => checkpoint_on_disk w w')).
  - exact checkpoint_on_disk_sequential.
  - intros m. apply checkpoint_on_disk_same; [reflexivity|apply keeps_emit; exact I].
  - intros tier division page. apply checkpoint_on_disk_same.
    + intros w0. apply make_api_call_files.
    + apply keeps_make_api_call; [exact I|exact transport_no_state_write].
  - intros summoner_id. apply checkpoint_on_disk_same.
    + intros w0. apply get_puuid_files.
    + eapply keeps_weaken; [exact inner_no_state_write|apply keeps_get_puuid].
  - intros puuid count. apply checkpoint_on_disk_same.
    + intros w0. unfold get_matches. unfold mbind, M_bind.
      pose proof (make_api_call_files (MatchIdsByPuuid puuid count) w0) as Hf.
      destruct (make_api_call _ _) as [[v|e|] w1]; exact Hf.
    + eapply keeps_weaken; [exact inner_no_state_write|apply keeps_get_matches].
  - intros match_id tier division. apply checkpoint_on_disk_quiet.
    + intros w0 Hsome.
      destruct (save_match_files match_id tier division w0) as [->|(Hnew & data & ->)];
        [reflexivity|].
      rewrite lookup_insert_ne by (apply not_eq_sym, state_file_not_index).
      apply lookup_insert_ne. intros Heq. rewrite <- Heq, Hnew in Hsome.
      destruct Hsome as [? [=]].
    + eapply keeps_weaken; [exact inner_no_state_write|apply keeps_save_match].
  - intros state w0. exists [EWrite StateWrite STATE_FILE state].
    split; [reflexivity|]. split; [|discriminate].
    intros state' [= <-]. apply lookup_insert_eq.
  - apply checkpoint_on_disk_same; [reflexivity|apply keeps_sleep; exact I].
Qed.

(** X20. At the end of a run, however it ends, the checkpoint file holds
    the last checkpoint the run has written, and [load_state] in a later
    run reads exactly that; a run that has written no checkpoint leaves
    an existing checkpoint file as it was. *)
Theorem state_file_holds_the_last_checkpoint (matches_per_tier : Z) (w : World) :
  exists added,
    trace (snd (collect_data matches_per_tier w)) = trace w ++ added /\
    (forall state, last (saved_states added) = Some state ->
       load_state (snd (collect_data matches_per_tier w))
       = (Ret state, snd (collect_data matches_per_tier w))) /\
    (saved_states added = [] -> is_Some (files w !! STATE_FILE) ->
     files (snd (collect_data matches_per_tier w)) !! STATE_FILE
     = files w !! STATE_FILE).
Proof.
  destruct (collect_data_checkpoint_on_disk matches_per_tier w)
    as (added & Ht & Hlast & Hnone).
  exists added. split; [exact Ht|]. split; [|exact Hnone].
  intros state Hstate. rewrite load_state_run, (Hlast state Hstate). reflexivity.
Qed.

(** ** The limiter and the requests *)

Lemma limiter_marks_app a b : limiter_marks (a ++ b) = limiter_marks a ++ limiter_marks b.
Proof. apply omap_app. Qed.

Lemma rounds_add n m : rounds (n + m) = rounds n ++ rounds m.
Proof. induction n as [|n IH]; [reflexivity|]. simpl. rewrite IH. reflexivity. Qed.

Lemma unmarked_events_no_marks added : Forall unmarked added -> limiter_marks added = [].
Proof.
  induction 1 as [|e added He _ IH]; [reflexivity|].
  destruct e; try contradiction; exact IH.
Qed.

Lemma log_event_unmarked e : log_event e -> unmarked e.
Proof. destruct e; simpl; tauto. Qed.

Lemma requests_follow_limiter_sequential : sequential requests_follow_limiter.
Proof.
  split.
  - intros w. exists [], 0%nat. rewrite app_nil_r. split; [reflexivity|left; reflexivity].
  - intros w1 w2 w3 ok (a1 & n1 & Ht1 & H1) (a2 & n2 & Ht2 & H2).
    destruct H1 as [H1|[Hok _]]; [|discriminate].
    exists (a1 ++ a2), (n1 + n2)%nat.
    split; [rewrite Ht2, Ht1, app_assoc; reflexivity|].
    rewrite limiter_marks_app, H1, rounds_add.
    destruct H2 as [->|[-> ->]]; [left; reflexivity|].
    right. split; [reflexivity|]. rewrite app_assoc. reflexivity.
  - intros w1 w2 (added & n & Ht & [H|[Hok _]]); [|discriminate].
    exists added, n. split; [exact Ht|left; exact H].
Qed.

(** A computation that neither passes the limiter nor sends a request. *)
Lemma requests_follow_limiter_quiet {A} (m : M A) :
  keeps unmarked m -> satisfies requests_follow_limiter m.
Proof.
  intros Hquiet w. destruct (Hquiet w) as [_ (added & Ht & HP)].
  exists added, 0%nat. split; [exact Ht|].
  left. apply unmarked_events_no_marks, HP.
Qed.

Lemma after_admit_marks w :
  exists added, trace (after_admit w) = trace w ++ added /\ limiter_marks added = [true].
Proof.
  unfold after_admit. destruct (Nat.leb REQUEST_LIMIT _); cbn [trace];
    eexists; (split; [reflexivity|]); reflexivity.
Qed.

(** One response is handled without passing the limiter or sending
    anything. *)
Lemma attempt_marks o w :
  exists a w' added,
    try_except (handle_response o)
      (fun e => emit (ELog (LogApiError e));; mret (Return JNull)) w = (Ret a, w') /\
    trace w' = trace w ++ added /\ limiter_marks added = [].
Proof.
  destruct (slept_on_or_final o) as [(seconds & Hthr)|(v & Hfinal)].
  - rewrite (attempt_slept_on _ _ _ Hthr). eexists _, _, _.
    split; [reflexivity|]. split; reflexivity.
  - destruct (attempt_final o v w Hfinal) as (added & -> & Hlog).
    eexists _, _, added. split; [reflexivity|]. split; [reflexivity|].
    apply unmarked_events_no_marks.
    eapply Forall_impl; [exact Hlog|exact log_event_unmarked].
Qed.

Lemma api_loop_marks req script : forall w,
  requests_follow_limiter w (returned (fst (api_loop script req w)))
    (snd (api_loop script req w)).
Proof.
  induction script as [|o script IH]; intros w.
  - rewrite api_loop_nil. cbn [fst snd returned].
    destruct (after_admit_marks w) as (d0 & Ht0 & Hm0).
    exists d0, 0%nat. split; [exact Ht0|]. right. split; [reflexivity|exact Hm0].
  - rewrite api_loop_cons. cbv zeta.
    destruct (after_admit_marks w) as (d0 & Ht0 & Hm0).
    set (w1 := set_trace _ _).
    destruct (attempt_marks o w1) as (a & w2 & d2 & -> & Ht2 & Hm2).
    assert (Hstep : requests_follow_limiter w true w2).
    { exists (d0 ++ [EGet req] ++ d2), 1%nat. split.
      - rewrite Ht2. subst w1. cbn [trace set_trace set_network].
        rewrite Ht0, <- !app_assoc. reflexivity.
      - left. rewrite !limiter_marks_app, Hm0, Hm2. reflexivity. }
    destruct a as [|v]; [|exact Hstep].
    eapply (sequential_trans _ requests_follow_limiter_sequential); [exact Hstep|apply IH].
Qed.

Lemma make_api_call_marks req : satisfies requests_follow_limiter (make_api_call req).
Proof.
  unfold make_api_call.
  apply (satisfies_bind _ requests_follow_limiter_sequential).
  { apply requests_follow_limiter_quiet, keeps_emit. exact I. }
  intros _. apply (satisfies_bind _ requests_follow_limiter_sequential).
  { apply satisfies_gets, requests_follow_limiter_sequential. }
  intros script w. apply api_loop_marks.
Qed.

Lemma get_puuid_marks summoner_id :
  satisfies requests_follow_limiter (get_puuid summoner_id).
Proof.
  pose proof requests_follow_limiter_sequential as HS.
  unfold get_puuid.
  apply (satisfies_bind _ HS); [apply satisfies_lift, HS|intros key].
  apply (satisfies_bind _ HS); [apply satisfies_gets, HS|intros [puuid|]];
    [apply satisfies_ret, HS|].
  apply (satisfies_bind _ HS); [apply make_api_call_marks|intros data].
  apply (satisfies_bind _ HS);
    [destruct (truthy data); [apply satisfies_lift, HS|apply satisfies_ret, HS]
    |intros puuid].
  apply (satisfies_bind _ HS); [|intros _; apply satisfies_ret, HS].
  apply requests_follow_limiter_quiet, keeps_modify. intros w. split; reflexivity.
Qed.

Lemma get_matches_marks puuid count :
  satisfies requests_follow_limiter (get_matches puuid count).
Proof.
  pose proof requests_follow_limiter_sequential as HS.
  unfold get_matches.
  apply (satisfies_bind _ HS); [apply make_api_call_marks|intros r].
  apply satisfies_ret, HS.
Qed.

Lemma save_match_marks match_id tier division :
  satisfies requests_follow_limiter (save_match match_id tier division).
Proof.
  pose proof requests_follow_limiter_sequential as HS.
  unfold save_match.
  apply (satisfies_bind _ HS);
    [apply requests_follow_limiter_quiet, keeps_emit; exact I|intros _].
  apply (satisfies_bind _ HS); [apply satisfies_gets, HS|intros [|]];
    [apply satisfies_ret, HS|].
  apply (satisfies_bind _ HS); [apply make_api_call_marks|intros data].
  destruct (truthy data); [|apply satisfies_ret, HS].
  apply (satisfies_bind _ HS);
    [apply requests_follow_limiter_quiet, keeps_write_json; exact I|intros _].
  apply (satisfies_bind _ HS); [|intros _].
  { apply requests_follow_limiter_quiet. unfold save_match_id_csv.
    apply keeps_bind; [apply keeps_gets|intros file_exists].
    apply keeps_bind; [|intros _; apply keeps_append_row; exact I].
    destruct (negb file_exists); [apply keeps_append_row; exact I|apply keeps_ret]. }
  apply (satisfies_bind _ HS);
    [apply requests_follow_limiter_quiet, keeps_emit; exact I|intros _].
  apply satisfies_ret, HS.
Qed.

(** X21. Passes through [rate_limit_sleep] and HTTP requests alternate,
    the limiter first, in every call of [make_api_call] and over a whole
    run, whatever the servers answer: no request is sent without a pass
    through the limiter of its own.  (A computation that has not
    returned may have passed the limiter for a request it has not sent.) *)
Theorem every_request_passes_the_limiter (matches_per_tier : Z) :
  (forall req w,
     exists added n,
       trace (snd (make_api_call req w)) = trace w ++ added /\
       (limiter_marks added = rounds n \/
        (returned (fst (make_api_call req w)) = false /\
         limiter_marks added = rounds n ++ [true]))) /\
  (forall w,
     exists added n,
       trace (snd (collect_data matches_per_tier w)) = trace w ++ added /\
       (limiter_marks added = rounds n \/
        (returned (fst (collect_data matches_per_tier w)) = false /\
         limiter_marks added = rounds n ++ [true]))).
Proof.
  split; [exact make_api_call_marks|].
  change (satisfies requests_follow_limiter (collect_data matches_per_tier)).
  apply satisfies_collect_data.
  - exact requests_follow_limiter_sequential.
  - intros m. apply requests_follow_limiter_quiet, keeps_emit. exact I.
  - intros tier division page. apply make_api_call_marks.
  - exact get_puuid_marks.
  - exact get_matches_marks.
  - exact save_match_marks.
  - intros state. apply requests_follow_limiter_quiet, keeps_write_json. exact I.
  - apply requests_follow_limiter_quiet, keeps_sleep. exact I.
Qed.

(** ** Match lists and downloads *)

Lemma match_listings_app a b : match_listings (a ++ b) = match_listings a ++ match_listings b.
Proof. apply omap_app. Qed.

Lemma match_downloads_app a b :
  match_downloads (a ++ b) = match_downloads a ++ match_downloads b.
Proof. apply omap_app. Qed.

Lemma no_match_calls added :
  Forall no_match_call added -> match_listings added = [] /\ match_downloads added = [].
Proof.
  induction 1 as [|e added He _ IH]; [split; reflexivity|].
  destruct e as [| |[]| | | | | |]; try contradiction; exact IH.
Qed.

Lemma transport_no_match_call e : transport_event e -> no_match_call e.
Proof. destruct e as [| |[]| | | | | |]; simpl; tauto. Qed.

Lemma keeps_no_match_call_get_puuid summoner_id :
  keeps no_match_call (get_puuid summoner_id).
Proof.
  unfold get_puuid.
  apply keeps_bind; [apply keeps_lift|intros key].
  apply keeps_bind; [apply keeps_gets|intros [puuid|]]; [apply keeps_ret|].
  apply keeps_bind;
    [apply keeps_make_api_call; [exact I|exact transport_no_match_call]|intros data].
  apply keeps_bind;
    [destruct (truthy data); [apply keeps_lift|apply keeps_ret]|intros puuid].
  apply keeps_bind; [|intros _; apply keeps_ret].
  apply keeps_modify. intros w. split; reflexivity.
Qed.

(** [matches[:5]] has at most five elements to go through. *)
Lemma first_five_at_most matches first5 ids :
  py_slice_to 5 matches = Ret first5 -> py_iter first5 = Ret ids ->
  (length ids <= 5)%nat.
Proof.
  destruct matches as [| | |text|items|fields]; try discriminate; intros [= <-] [= <-].
  - unfold chars_of. rewrite length_map, list_ascii_of_string_of_list_ascii.
    rewrite length_take. lia.
  - rewrite length_take. lia.
Qed.

(** [save_match] asks for the details of its match at most once, and
    for no match list. *)
Lemma save_match_downloads match_id tier division w r w' :
  save_match match_id tier division w = (r, w') ->
  exists added,
    trace w' = trace w ++ added /\
    match_listings added = [] /\ (length (match_downloads added) <= 1)%nat.
Proof.
  unfold save_match.
  unfold mbind at 1, M_bind at 1, emit at 1, modify at 1.
  set (w0 := set_trace _ w).
  unfold mbind at 1, M_bind at 1, path_exists at 1, gets at 1.
  destruct (bool_decide _).
  { intros [= <- <-]. exists [EMakedirs (match_folder tier division)].
    split; [reflexivity|]. split; [reflexivity|]. simpl. lia. }
  intros Hrun.
  destruct (make_api_call_frame (MatchDetail match_id) w0)
    as (r1 & w1 & Hcall & _ & _ & (added1 & Ht1 & HP1) & _).
  destruct (no_match_calls added1
              ltac:(eapply Forall_impl; [exact HP1|exact transport_no_match_call]))
    as [Hl1 Hd1].
  set (head := [EMakedirs (match_folder tier division); ECall (MatchDetail match_id)]).
  assert (Ht01 : trace w1 = trace w ++ head ++ added1).
  { rewrite Ht1. subst w0 head. cbn [trace set_trace]. rewrite <- app_assoc. reflexivity. }
  assert (Hstop : forall tail, trace w' = trace w1 ++ tail -> Forall no_match_call tail ->
            exists added,
              trace w' = trace w ++ added /\
              match_listings added = [] /\ (length (match_downloads added) <= 1)%nat).
  { intros tail Ht HP. destruct (no_match_calls tail HP) as [Hl Hd].
    exists (head ++ added1 ++ tail).
    split; [rewrite Ht, Ht01, <- !app_assoc; reflexivity|].
    rewrite !match_listings_app, !match_downloads_app, Hl1, Hd1, Hl, Hd.
    split; [reflexivity|]. simpl. lia. }
  apply bind_inv in Hrun as [(data & w1' & Hget & Hrun)|[(e & Hget & ->)|[Hget ->]]];
    rewrite Hcall in Hget; injection Hget as -> <-.
  2,3: apply (Hstop []); [rewrite app_nil_r; reflexivity|constructor].
  destruct (truthy data).
  2:{ injection Hrun as <- <-.
      apply (Hstop []); [rewrite app_nil_r; reflexivity|constructor]. }
  assert (Hrest : keeps no_match_call
            (write_json MatchWrite
               (path_join (path_join (path_join MATCHES_DIR (lower tier)) division)
                  (py_str match_id +:+ ".json")) data;;
             save_match_id_csv match_id tier division;;
             emit (ELog (LogSaved match_id tier division));; mret true)).
  { apply keeps_bind; [apply keeps_write_json; exact I|intros _].
    apply keeps_bind; [|intros _].
    { unfold save_match_id_csv.
      apply keeps_bind; [apply keeps_gets|intros file_exists].
      apply keeps_bind; [|intros _; apply keeps_append_row; exact I].
      destruct (negb file_exists); [apply keeps_append_row; exact I|apply keeps_ret]. }
    apply keeps_bind; [apply keeps_emit; exact I|intros _; apply keeps_ret]. }
  specialize (Hrest w1). rewrite Hrun in Hrest. cbn [snd] in Hrest.
  destruct Hrest as [_ (tail & Ht & HP)]. apply (Hstop tail); assumption.
Qed.

Lemma for_matches_downloads tier division quota ids : forall collected done w r w',
  for_matches tier division quota ids collected done w = (r, w') ->
  exists added,
    trace w' = trace w ++ added /\
    match_listings added = [] /\
    (length (match_downloads added) <= length ids)%nat.
Proof.
  induction ids as [|match_id rest IH]; intros collected done w r w' Hrun.
  { injection Hrun as <- <-. exists []. rewrite app_nil_r. repeat split. simpl. lia. }
  cbn [for_matches] in Hrun.
  destruct (quota <=? collected).
  { injection Hrun as <- <-. exists []. rewrite app_nil_r. repeat split. simpl. lia. }
  destruct (save_match match_id tier division w) as [r1 w1] eqn:Hsave.
  destruct (save_match_downloads _ _ _ _ _ _ Hsave) as (added1 & Ht1 & Hl1 & Hd1).
  apply bind_inv in Hrun as [(saved & w1' & Hs & Hrun)|[(e & Hs & ->)|[Hs ->]]];
    rewrite Hsave in Hs; injection Hs as -> <-.
  2,3: exists added1; (split; [exact Ht1|]); (split; [exact Hl1|]);
       cbn [length]; lia.
  assert (Hnext : exists w2 log,
            for_matches tier division quota rest
              (if saved then collected + 1 else collected) done w2 = (r, w') /\
            trace w2 = trace w1 ++ log /\
            match_listings log = [] /\ match_downloads log = []).
  { destruct saved.
    - unfold mbind at 1, M_bind at 1, emit at 1, modify at 1 in Hrun.
      eexists _, [_]. split; [exact Hrun|]. repeat split.
    - exists w1, []. rewrite app_nil_r. repeat split. exact Hrun. }
  destruct Hnext as (w2 & log & Hrun' & Ht2 & Hl2 & Hd2).
  destruct (IH _ _ _ _ _ Hrun') as (added3 & Ht3 & Hl3 & Hd3).
  exists (added1 ++ log ++ added3).
  split; [rewrite Ht3, Ht2, Ht1, <- !app_assoc; reflexivity|].
  rewrite !match_listings_app, !match_downloads_app, Hl1, Hl2, Hl3, Hd2.
  split; [reflexivity|]. rewrite !length_app. cbn [length]. lia.
Qed.

Lemma for_players_downloads tier division quota players : forall collected done w r w',
  for_players tier division quota players collected done w = (r, w') ->
  exists added,
    trace w' = trace w ++ added /\
    (length (match_downloads added) <= 5 * length (match_listings added))%nat.
Proof.
  induction players as [|player rest IH]; intros collected done w r w' Hrun.
  { injection Hrun as <- <-. exists []. rewrite app_nil_r. split; [reflexivity|].
    simpl. lia. }
  cbn [for_players] in Hrun.
  destruct (quota <=? collected).
  { injection Hrun as <- <-. exists []. rewrite app_nil_r. split; [reflexivity|].
    simpl. lia. }
  assert (Hstop : forall added, trace w' = trace w ++ added ->
            match_downloads added = [] ->
            exists added,
              trace w' = trace w ++ added /\
              (length (match_downloads added) <= 5 * length (match_listings added))%nat).
  { intros added Ht Hd. exists added. split; [exact Ht|]. rewrite Hd. simpl. lia. }
  apply bind_inv in Hrun as [(summoner_id & w0 & Hid & Hrun)|[(e & Hid & ->)|[Hid ->]]];
    unfold lift in Hid; injection Hid as Hid <-.
  2,3: apply (Hstop []); [rewrite app_nil_r; reflexivity|reflexivity].
  pose proof (keeps_no_match_call_get_puuid summoner_id w) as Hpuuid.
  apply bind_inv in Hrun as [(puuid & w1 & Hget & Hrun)|[(e & Hget & ->)|[Hget ->]]];
    rewrite Hget in Hpuuid; cbn [snd] in Hpuuid;
    destruct Hpuuid as [_ (added1 & Ht1 & HP1)];
    destruct (no_match_calls _ HP1) as [Hl1 Hd1].
  2,3: apply (Hstop added1); assumption.
  destruct (negb (truthy puuid)).
  { destruct (IH _ _ _ _ _ Hrun) as (added2 & Ht2 & Hle2).
    exists (added1 ++ added2).
    split; [rewrite Ht2, Ht1, <- app_assoc; reflexivity|].
    rewrite match_listings_app, match_downloads_app, Hl1, Hd1. exact Hle2. }
  unfold get_matches in Hrun. rewrite bind_assoc in Hrun.
  destruct (make_api_call_frame (MatchIdsByPuuid puuid 10) w1)
    as (r2 & w2 & Hcall & _ & _ & (added2 & Ht2 & HP2) & _).
  destruct (no_match_calls added2
              ltac:(eapply Forall_impl; [exact HP2|exact transport_no_match_call]))
    as [Hl2 Hd2].
  set (listed := added1 ++ ECall (MatchIdsByPuuid puuid 10) :: added2).
  assert (Ht12 : trace w2 = trace w ++ listed).
  { rewrite Ht2, Ht1. subst listed. rewrite <- app_assoc. reflexivity. }
  assert (Hl12 : match_listings listed = [puuid]).
  { subst listed. change (ECall ?c :: added2) with ([ECall c] ++ added2).
    rewrite !match_listings_app, Hl1, Hl2. reflexivity. }
  assert (Hd12 : match_downloads listed = []).
  { subst listed. change (ECall ?c :: added2) with ([ECall c] ++ added2).
    rewrite !match_downloads_app, Hd1, Hd2. reflexivity. }
  clearbody listed.
  apply bind_inv in Hrun as [(answer & w2' & Hm & Hrun)|[(e & Hm & ->)|[Hm ->]]];
    rewrite Hcall in Hm; injection Hm as -> <-.
  2,3: apply (Hstop listed); assumption.
  unfold mbind at 1, M_bind at 1, mret at 1, M_ret at 1 in Hrun.
  apply bind_inv in Hrun as [(first5 & w2' & Hslice & Hrun)|[(e & Hslice & ->)|[Hslice ->]]];
    unfold lift in Hslice; injection Hslice as Hslice <-.
  2,3: apply (Hstop listed); assumption.
  apply bind_inv in Hrun as [(ids & w2' & Hiter & Hrun)|[(e & Hiter & ->)|[Hiter ->]]];
    unfold lift in Hiter; injection Hiter as Hiter <-.
  2,3: apply (Hstop listed); assumption.
  pose proof (first_five_at_most _ _ _ Hslice Hiter) as Hfive.
  destruct (for_matches tier division quota ids collected done w2) as [r3 w3] eqn:Hfor.
  destruct (for_matches_downloads _ _ _ _ _ _ _ _ _ Hfor) as (added3 & Ht3 & Hl3 & Hd3).
  apply bind_inv in Hrun as [([c3 d3] & w3' & Hf & Hrun)|[(e & Hf & ->)|[Hf ->]]];
    rewrite Hfor in Hf; injection Hf as -> <-.
  2,3: exists (listed ++ added3);
       (split; [rewrite Ht3, Ht12, <- app_assoc; reflexivity|]);
       rewrite match_listings_app, match_downloads_app, Hl12, Hd12, Hl3;
       cbn [length app]; lia.
  destruct (IH _ _ _ _ _ Hrun) as (added4 & Ht4 & Hle4).
  exists ((listed ++ added3) ++ added4).
  split; [rewrite Ht4, Ht3, Ht12, <- !app_assoc; reflexivity|].
  rewrite !match_listings_app, !match_downloads_app, Hl12, Hd12, Hl3.
  rewrite !length_app. cbn [length app]. lia.
Qed.

Lemma while_pages_downloads tier division quota fuel :
  forall page collected done state w r w',
    while_pages fuel tier division quota page collected done state w = (r, w') ->
    exists added,
      trace w' = trace w ++ added /\
      (length (match_downloads added) <= 5 * length (match_listings added))%nat.
Proof.
  induction fuel as [|fuel IH]; intros page collected done state w r w' Hrun.
  { injection Hrun as <- <-. exists []. rewrite app_nil_r. split; [reflexivity|].
    simpl. lia. }
  cbn [while_pages] in Hrun.
  destruct ((collected <? quota) && negb done).
  2:{ injection Hrun as <- <-. exists []. rewrite app_nil_r. split; [reflexivity|].
      simpl. lia. }
  assert (Hstop : forall added, trace w' = trace w ++ added ->
            (length (match_downloads added) <= 5 * length (match_listings added))%nat ->
            exists added,
              trace w' = trace w ++ added /\
              (length (match_downloads added) <= 5 * length (match_listings added))%nat).
  { intros added Ht Hle. exists added. split; assumption. }
  unfold get_players in Hrun.
  assert (Hcall : keeps no_match_call (make_api_call (LeagueEntries tier division page)))
    by (apply keeps_make_api_call; [exact I|exact transport_no_match_call]).
  specialize (Hcall w).
  apply bind_inv in Hrun as [(players & w1 & Hget & Hrun)|[(e & Hget & ->)|[Hget ->]]];
    rewrite Hget in Hcall; cbn [snd] in Hcall;
    destruct Hcall as [_ (added1 & Ht1 & HP1)];
    destruct (no_match_calls _ HP1) as [Hl1 Hd1].
  2,3: apply (Hstop added1); [exact Ht1|rewrite Hd1; simpl; lia].
  destruct (negb (truthy players)).
  { injection Hrun as <- <-. apply (Hstop added1); [exact Ht1|rewrite Hd1; simpl; lia]. }
  apply bind_inv in Hrun as [(items & w1' & Hiter & Hrun)|[(e & Hiter & ->)|[Hiter ->]]];
    unfold lift in Hiter; injection Hiter as Hiter <-.
  2,3: apply (Hstop added1); [exact Ht1|rewrite Hd1; simpl; lia].
  destruct (for_players tier division quota items collected done w1) as [r2 w2] eqn:Hfor.
  destruct (for_players_downloads _ _ _ _ _ _ _ _ _ Hfor) as (added2 & Ht2 & Hle2).
  assert (Ht12 : trace w2 = trace w ++ (added1 ++ added2))
    by (rewrite Ht2, Ht1, <- app_assoc; reflexivity).
  assert (Hle12 : (length (match_downloads (added1 ++ added2))
                   <= 5 * length (match_listings (added1 ++ added2)))%nat).
  { rewrite match_listings_app, match_downloads_app, Hl1, Hd1. exact Hle2. }
  apply bind_inv in Hrun as [([c2 d2] & w2' & Hf & Hrun)|[(e & Hf & ->)|[Hf ->]]];
    rewrite Hfor in Hf; injection Hf as -> <-.
  2,3: apply (Hstop (added1 ++ added2)); assumption.
  apply bind_inv in Hrun as [(state1 & w2' & Hset & Hrun)|[(e & Hset & ->)|[Hset ->]]];
    unfold lift in Hset; injection Hset as Hset <-.
  2,3: apply (Hstop (added1 ++ added2)); assumption.
  unfold save_state, write_json in Hrun.
  unfold mbind at 1, M_bind at 1 in Hrun.
  unfold mbind at 1, M_bind at 1, emit at 1, modify at 1 in Hrun.
  unfold modify at 1 in Hrun.
  set (w3 := set_files _ _) in Hrun.
  set (sofar := (added1 ++ added2) ++ [EWrite StateWrite STATE_FILE state1]).
  assert (Ht3 : trace w3 = trace w ++ sofar).
  { subst w3 sofar. cbn [trace set_files set_trace]. rewrite Ht12, <- !app_assoc.
    reflexivity. }
  assert (Hle3 : (length (match_downloads sofar) <= 5 * length (match_listings sofar))%nat).
  { subst sofar. rewrite match_listings_app, match_downloads_app.
    change (match_listings [EWrite ?a ?b ?c]) with (@nil json).
    change (match_downloads [EWrite ?a ?b ?c]) with (@nil json).
    rewrite !app_nil_r. exact Hle12. }
  clearbody w3 sofar.
  apply bind_inv in Hrun as [(page' & w3' & Hadd & Hrun)|[(e & Hadd & ->)|[Hadd ->]]];
    unfold lift in Hadd; injection Hadd as Hadd <-.
  2,3: apply (Hstop sofar); assumption.
  unfold sleep in Hrun. cbn [Z.ltb Z.compare] in Hrun.
  unfold mbind at 1, M_bind at 1 in Hrun.
  unfold mbind at 1, M_bind at 1, emit at 1, modify at 1 in Hrun.
  unfold modify at 1 in Hrun.
  destruct (IH _ _ _ _ _ _ _ Hrun) as (added5 & Ht5 & Hle5).
  exists (sofar ++ [ESleep PageSleep 500000] ++ added5).
  split.
  { rewrite Ht5. cbn [trace set_clock set_trace]. rewrite Ht3, <- !app_assoc.
    reflexivity. }
  rewrite !match_listings_app, !match_downloads_app.
  change (match_listings [ESleep ?a ?b]) with (@nil json).
  change (match_downloads [ESleep ?a ?b]) with (@nil json).
  rewrite !length_app. cbn [length app]. lia.
Qed.

Lemma process_bucket_downloads tier division quota state w :
  exists added,
    trace (snd (process_bucket tier division quota state w)) = trace w ++ added /\
    (length (match_downloads added) <= 5 * length (match_listings added))%nat.
Proof.
  destruct (process_bucket tier division quota state w) as [r w'] eqn:Hrun.
  cbn [snd]. unfold process_bucket in Hrun.
  unfold mbind at 1, M_bind at 1, emit at 1, modify at 1 in Hrun.
  set (w0 := set_trace _ w) in Hrun.
  assert (Hstop : w' = w0 ->
            exists added,
              trace w' = trace w ++ added /\
              (length (match_downloads added) <= 5 * length (match_listings added))%nat).
  { intros ->. exists [ELog (LogProcessing tier division)].
    split; [reflexivity|]. simpl. lia. }
  apply bind_inv in Hrun as [(by_tier & w1 & Htier & Hrun)|[(e & Htier & ->)|[Htier ->]]];
    unfold lift in Htier; injection Htier as Htier <-.
  2,3: apply Hstop; reflexivity.
  apply bind_inv in Hrun as [(page & w1 & Hpage & Hrun)|[(e & Hpage & ->)|[Hpage ->]]];
    unfold lift in Hpage; injection Hpage as Hpage <-.
  2,3: apply Hstop; reflexivity.
  unfold mbind at 1, M_bind at 1, gets at 1 in Hrun.
  destruct (while_pages_downloads _ _ _ _ _ _ _ _ _ _ _ Hrun) as (added & Ht & Hle).
  exists (ELog (LogProcessing tier division) :: added).
  split; [rewrite Ht; subst w0; cbn [trace set_trace]; rewrite <- app_assoc; reflexivity|].
  exact Hle.
Qed.

Lemma run_plan_downloads quota plan : forall state w,
  exists added,
    trace (snd (run_plan quota plan (fun _ => mret tt) state w)) = trace w ++ added /\
    (length (match_downloads added) <= 5 * length (match_listings added))%nat.
Proof.
  induction plan as [|[tier division] plan IH]; intros state w.
  { exists []. rewrite app_nil_r. split; [reflexivity|]. simpl. lia. }
  destruct (process_bucket_downloads tier division quota state w) as (added1 & Ht1 & Hle1).
  cbn [run_plan]. unfold mbind at 1, M_bind at 1.
  destruct (process_bucket tier division quota state w) as [[state1|e|] w1];
    cbn [snd] in Ht1 |- *.
  2,3: exists added1; split; assumption.
  destruct (is_diamond_I tier division).
  - exists (added1 ++ [ELog LogFinishedDiamondI]).
    split; [simpl; rewrite Ht1, <- app_assoc; reflexivity|].
    rewrite match_listings_app, match_downloads_app.
    change (match_listings [ELog ?m]) with (@nil json).
    change (match_downloads [ELog ?m]) with (@nil json).
    rewrite !app_nil_r. exact Hle1.
  - destruct (IH state1 w1) as (added2 & Ht2 & Hle2).
    exists (added1 ++ added2).
    split; [rewrite Ht2, Ht1, <- app_assoc; reflexivity|].
    rewrite match_listings_app, match_downloads_app, !length_app. lia.
Qed.

(** X22. Over a whole run, whatever the servers answer and however the
    run ends, the matches whose details are asked for are at most five
    for every match list asked for: of the ten ids a list may hold only
    the first five are gone through. *)
Theorem at_most_five_downloads_per_match_list (matches_per_tier : Z) (w : World) :
  exists added,
    trace (snd (collect_data matches_per_tier w)) = trace w ++ added /\
    (length (match_downloads added) <= 5 * length (match_listings added))%nat.
Proof.
  unfold collect_data. unfold mbind at 1, M_bind at 1.
  rewrite load_state_run.
  destruct (match files w !! STATE_FILE with
            | Some [CJson state] => Ret state
            | Some _ => Raise JSONDecodeError
            | None => Ret (JObj [])
            end) as [state|e|].
  2,3: exists []; rewrite app_nil_r; (split; [reflexivity|]); simpl; lia.
  rewrite for_tiers_flat. apply run_plan_downloads.
Qed.

(** ** After the quota *)

Lemma matches_saved_nonneg added : 0 <= matches_saved added.
Proof. unfold matches_saved. lia. Qed.

Lemma quiet_after_quota_app quota collected a1 a2 :
  quiet_after_quota quota collected a1 ->
  quiet_after_quota quota (collected + matches_saved a1) a2 ->
  quiet_after_quota quota collected (a1 ++ a2).
Proof.
  intros H1 H2 before after Heq Hq.
  apply app_eq_inv in Heq as [(k & -> & ->)|(k & -> & ->)].
  - rewrite api_calls_app. rewrite (H1 before k eq_refl Hq). simpl.
    apply (H2 [] a2 eq_refl). rewrite matches_saved_app.
    pose proof (matches_saved_nonneg k). change (matches_saved []) with 0. lia.
  - apply (H2 k after eq_refl). rewrite matches_saved_app in Hq. lia.
Qed.

Lemma quiet_after_quota_no_calls quota collected added :
  api_calls added = [] -> quiet_after_quota quota collected added.
Proof.
  intros Hnone before after -> _. rewrite api_calls_app in Hnone.
  apply app_eq_nil in Hnone as [_ Hnone]. exact Hnone.
Qed.

Lemma quiet_after_quota_below quota collected added :
  collected < quota -> matches_saved added = 0 ->
  quiet_after_quota quota collected added.
Proof.
  intros Hlt Hzero before after -> Hq. rewrite matches_saved_app in Hzero.
  pose proof (matches_saved_nonneg before). pose proof (matches_saved_nonneg after). lia.
Qed.

(** What [save_match] adds: first the events up to the answer to the
    detail call, which write no match file, then the events that store
    the match, which make no call. *)
Lemma save_match_shape match_id tier division w r w' :
  save_match match_id tier division w = (r, w') ->
  exists before after,
    trace w' = trace w ++ before ++ after /\
    matches_saved before = 0 /\ api_calls after = [] /\
    matches_saved after = match r with Ret true => 1 | _ => 0 end.
Proof.
  unfold save_match.
  unfold mbind at 1, M_bind at 1, emit at 1, modify at 1.
  set (w0 := set_trace _ w).
  unfold mbind at 1, M_bind at 1, path_exists at 1, gets at 1.
  destruct (bool_decide _).
  { intros [= <- <-]. exists [EMakedirs (match_folder tier division)], [].
    repeat split. }
  intros Hrun.
  destruct (make_api_call_frame (MatchDetail match_id) w0)
    as (r1 & w1 & Hcall & _ & _ & (added1 & Ht1 & HP1) & _).
  set (before := EMakedirs (match_folder tier division)
                   :: ECall (MatchDetail match_id) :: added1).
  assert (Ht01 : trace w1 = trace w ++ before).
  { rewrite Ht1. subst w0 before. cbn [trace set_trace]. rewrite <- app_assoc. reflexivity. }
  assert (Hb : matches_saved before = 0).
  { subst before. change (EMakedirs ?p :: ECall ?c :: added1)
      with ([EMakedirs p; ECall c] ++ added1).
    rewrite matches_saved_app.
    rewrite (matches_saved_none added1)
      by (eapply Forall_impl; [exact HP1|exact transport_no_match_write]).
    reflexivity. }
  clearbody before.
  apply bind_inv in Hrun as [(data & w1' & Hget & Hrun)|[(e & Hget & ->)|[Hget ->]]];
    rewrite Hcall in Hget; injection Hget as -> <-.
  2,3: exists before, []; rewrite app_nil_r; repeat split; assumption.
  destruct (truthy data).
  2:{ injection Hrun as <- <-. exists before, []. rewrite app_nil_r.
      repeat split; assumption. }
  unfold write_json in Hrun.
  unfold mbind at 1, M_bind at 1 in Hrun.
  unfold mbind at 1, M_bind at 1, emit at 1, modify at 1 in Hrun.
  unfold modify at 1 in Hrun.
  set (w2 := set_files _ _) in Hrun.
  assert (Ht2 : trace w2 = trace w1 ++
                  [EWrite MatchWrite (match_file match_id tier division) data])
    by reflexivity.
  clearbody w2.
  assert (Hindex : keeps inner_event (save_match_id_csv match_id tier division)).
  { unfold save_match_id_csv.
    apply keeps_bind; [apply keeps_gets|intros file_exists].
    apply keeps_bind; [|intros _; apply keeps_append_row; exact I].
    destruct (negb file_exists); [apply keeps_append_row; exact I|apply keeps_ret]. }
  pose proof (keeps_no_write_index match_id tier division w2) as Hnowrite.
  destruct (save_match_id_csv_run match_id tier division w2) as (w3 & Hcsv & _).
  rewrite Hcsv in Hnowrite. cbn [snd] in Hnowrite.
  destruct Hnowrite as [_ (added3 & Ht3 & HP3)].
  assert (Hcalls3 : api_calls added3 = []).
  { assert (Hrows : keeps (fun e => match e with ECall _ => False | _ => True end)
                      (save_match_id_csv match_id tier division)).
    { unfold save_match_id_csv.
      apply keeps_bind; [apply keeps_gets|intros file_exists].
      apply keeps_bind; [|intros _; apply keeps_append_row; exact I].
      destruct (negb file_exists); [apply keeps_append_row; exact I|apply keeps_ret]. }
    specialize (Hrows w2). rewrite Hcsv in Hrows. cbn [snd] in Hrows.
    destruct Hrows as [_ (added3' & Ht3' & HP3')].
    rewrite Ht3 in Ht3'. apply app_inv_head in Ht3'. subst added3'.
    clear -HP3'. induction HP3' as [|e l He _ IH]; [reflexivity|].
    destruct e; try contradiction; exact IH. }
  unfold mbind at 1, M_bind at 1 in Hrun. rewrite Hcsv in Hrun.
  unfold mbind at 1, M_bind at 1, emit at 1, modify at 1 in Hrun.
  injection Hrun as <- <-.
  exists before, ([EWrite MatchWrite (match_file match_id tier division) data]
                  ++ added3 ++ [ELog (LogSaved match_id tier division)]).
  split.
  { cbn [trace set_trace]. rewrite Ht3, Ht2, Ht01, <- !app_assoc. reflexivity. }
  split; [exact Hb|]. split.
  - rewrite !api_calls_app, Hcalls3. reflexivity.
  - rewrite !matches_saved_app, (matches_saved_none _ HP3). reflexivity.
Qed.

Lemma save_match_quiet_after quota collected match_id tier division w r w' :
  collected < quota ->
  save_match match_id tier division w = (r, w') ->
  exists added,
    trace w' = trace w ++ added /\
    quiet_after_quota quota collected added /\
    matches_saved added = match r with Ret true => 1 | _ => 0 end.
Proof.
  intros Hlt Hrun.
  destruct (save_match_shape _ _ _ _ _ _ Hrun) as (before & after & Ht & Hb & Ha & Hs).
  exists (before ++ after). split; [exact Ht|]. split.
  - apply quiet_after_quota_app.
    + apply quiet_after_quota_below; assumption.
    + apply quiet_after_quota_no_calls, Ha.
  - rewrite matches_saved_app, Hb, Hs. reflexivity.
Qed.

Lemma for_matches_quiet_after tier division quota ids : forall collected done w r w',
  for_matches tier division quota ids collected done w = (r, w') ->
  exists added,
    trace w' = trace w ++ added /\
    quiet_after_quota quota collected added /\
    forall c d, r = Ret (c, d) -> c = collected + matches_saved added.
Proof.
  induction ids as [|match_id rest IH]; intros collected done w r w' Hrun.
  { injection Hrun as <- <-. exists []. rewrite app_nil_r. split; [reflexivity|].
    split; [apply quiet_after_quota_no_calls; reflexivity|].
    intros c d [= <- _]. change (matches_saved []) with 0. lia. }
  cbn [for_matches] in Hrun.
  destruct (quota <=? collected) eqn:Hfull.
  { injection Hrun as <- <-. exists []. rewrite app_nil_r. split; [reflexivity|].
    split; [apply quiet_after_quota_no_calls; reflexivity|].
    intros c d [= <- _]. change (matches_saved []) with 0. lia. }
  apply Z.leb_gt in Hfull.
  destruct (save_match match_id tier division w) as [r1 w1] eqn:Hsave.
  destruct (save_match_quiet_after quota collected _ _ _ _ _ _ Hfull Hsave)
    as (added1 & Ht1 & Hq1 & Hc1).
  apply bind_inv in Hrun as [(saved & w1' & Hs & Hrun)|[(e & Hs & ->)|[Hs ->]]];
    rewrite Hsave in Hs; injection Hs as -> <-.
  2,3: exists added1; (split; [exact Ht1|]); (split; [exact Hq1|discriminate]).
  destruct saved.
  - unfold mbind at 1, M_bind at 1, emit at 1, modify at 1 in Hrun.
    destruct (IH _ _ _ _ _ Hrun) as (added2 & Ht2 & Hq2 & Hret2).
    exists (added1 ++ [ELog (LogCollected (collected + 1) quota tier division)] ++ added2).
    split; [rewrite Ht2; cbn [trace set_trace]; rewrite Ht1, <- !app_assoc; reflexivity|].
    split.
    + apply quiet_after_quota_app; [exact Hq1|]. rewrite Hc1.
      apply quiet_after_quota_app; [apply quiet_after_quota_no_calls; reflexivity|].
      change (matches_saved [ELog ?m]) with 0. rewrite Z.add_0_r. exact Hq2.
    + intros c d Hret. rewrite (Hret2 c d Hret), !matches_saved_app, Hc1.
      change (matches_saved [ELog ?m]) with 0. lia.
  - destruct (IH _ _ _ _ _ Hrun) as (added2 & Ht2 & Hq2 & Hret2).
    exists (added1 ++ added2).
    split; [rewrite Ht2, Ht1, <- app_assoc; reflexivity|]. split.
    + apply quiet_after_quota_app; [exact Hq1|]. rewrite Hc1, Z.add_0_r. exact Hq2.
    + intros c d Hret. rewrite (Hret2 c d Hret), matches_saved_app, Hc1. lia.
Qed.

Lemma for_players_quiet_after tier division quota players : forall collected done w r w',
  for_players tier division quota players collected done w = (r, w') ->
  exists added,
    trace w' = trace w ++ added /\
    quiet_after_quota quota collected added /\
    forall c d, r = Ret (c, d) -> c = collected + matches_saved added.
Proof.
  induction players as [|player rest IH]; intros collected done w r w' Hrun.
  { injection Hrun as <- <-. exists []. rewrite app_nil_r. split; [reflexivity|].
    split; [apply quiet_after_quota_no_calls; reflexivity|].
    intros c d [= <- _]. change (matches_saved []) with 0. lia. }
  cbn [for_players] in Hrun.
  destruct (quota <=? collected) eqn:Hfull.
  { injection Hrun as <- <-. exists []. rewrite app_nil_r. split; [reflexivity|].
    split; [apply quiet_after_quota_no_calls; reflexivity|].
    intros c d [= <- _]. change (matches_saved []) with 0. lia. }
  apply Z.leb_gt in Hfull.
  assert (Hstop : forall added, trace w' = trace w ++ added ->
            Forall no_match_write added -> (forall c d, r <> Ret (c, d)) ->
            exists added,
              trace w' = trace w ++ added /\
              quiet_after_quota quota collected added /\
              forall c d, r = Ret (c, d) -> c = collected + matches_saved added).
  { intros added Ht HP Hr. exists added. split; [exact Ht|]. split.
    - apply quiet_after_quota_below; [exact Hfull|apply matches_saved_none, HP].
    - intros c d Hret. destruct (Hr c d Hret). }
  apply bind_inv in Hrun as [(summoner_id & w0 & Hid & Hrun)|[(e & Hid & ->)|[Hid ->]]];
    unfold lift in Hid; injection Hid as Hid <-.
  2,3: apply (Hstop []); [rewrite app_nil_r; reflexivity|constructor|discriminate].
  pose proof (keeps_no_write_get_puuid summoner_id w) as Hpuuid.
  apply bind_inv in Hrun as [(puuid & w1 & Hget & Hrun)|[(e & Hget & ->)|[Hget ->]]];
    rewrite Hget in Hpuuid; cbn [snd] in Hpuuid;
    destruct Hpuuid as [_ (added1 & Ht1 & HP1)].
  2,3: apply (Hstop added1); [exact Ht1|exact HP1|discriminate].
  pose proof (matches_saved_none _ HP1) as Hs1.
  destruct (negb (truthy puuid)).
  { destruct (IH _ _ _ _ _ Hrun) as (added2 & Ht2 & Hq2 & Hret2).
    exists (added1 ++ added2).
    split; [rewrite Ht2, Ht1, <- app_assoc; reflexivity|]. split.
    - apply quiet_after_quota_app;
        [apply quiet_after_quota_below; assumption|].
      rewrite Hs1, Z.add_0_r. exact Hq2.
    - intros c d Hret. rewrite (Hret2 c d Hret), matches_saved_app, Hs1. lia. }
  pose proof (keeps_no_write_get_matches puuid 10 w1) as Hmatches.
  apply bind_inv in Hrun as [(matches & w2 & Hm & Hrun)|[(e & Hm & ->)|[Hm ->]]];
    rewrite Hm in Hmatches; cbn [snd] in Hmatches;
    destruct Hmatches as [_ (added2 & Ht2 & HP2)].
  2,3: apply (Hstop (added1 ++ added2));
       [rewrite Ht2, Ht1, <- app_assoc; reflexivity
       |apply Forall_app; split; assumption|discriminate].
  assert (Ht12 : trace w2 = trace w ++ (added1 ++ added2))
    by (rewrite Ht2, Ht1, <- app_assoc; reflexivity).
  assert (HP12 : Forall no_match_write (added1 ++ added2))
    by (apply Forall_app; split; assumption).
  pose proof (matches_saved_none _ HP12) as Hs12.
  apply bind_inv in Hrun as [(first5 & w2' & Hslice & Hrun)|[(e & Hslice & ->)|[Hslice ->]]];
    unfold lift in Hslice; injection Hslice as Hslice <-.
  2,3: apply (Hstop (added1 ++ added2)); [exact Ht12|exact HP12|discriminate].
  apply bind_inv in Hrun as [(ids & w2' & Hiter & Hrun)|[(e & Hiter & ->)|[Hiter ->]]];
    unfold lift in Hiter; injection Hiter as Hiter <-.
  2,3: apply (Hstop (added1 ++ added2)); [exact Ht12|exact HP12|discriminate].
  destruct (for_matches tier division quota ids collected done w2) as [r3 w3] eqn:Hfor.
  destruct (for_matches_quiet_after _ _ _ _ _ _ _ _ _ Hfor) as (added3 & Ht3 & Hq3 & Hret3).
  assert (Hq123 : quiet_after_quota quota collected ((added1 ++ added2) ++ added3)).
  { apply quiet_after_quota_app; [apply quiet_after_quota_below; assumption|].
    rewrite Hs12, Z.add_0_r. exact Hq3. }
  apply bind_inv in Hrun as [([c3 d3] & w3' & Hf & Hrun)|[(e & Hf & ->)|[Hf ->]]];
    rewrite Hfor in Hf; injection Hf as -> <-.
  2,3: exists ((added1 ++ added2) ++ added3);
       (split; [rewrite Ht3, Ht12, <- app_assoc; reflexivity|]);
       (split; [exact Hq123|discriminate]).
  specialize (Hret3 c3 d3 eq_refl).
  destruct (IH _ _ _ _ _ Hrun) as (added4 & Ht4 & Hq4 & Hret4).
  exists (((added1 ++ added2) ++ added3) ++ added4).
  split; [rewrite Ht4, Ht3, Ht12, <- !app_assoc; reflexivity|]. split.
  - apply quiet_after_quota_app; [exact Hq123|].
    rewrite matches_saved_app, Hs12, Z.add_0_l, <- Hret3. exact Hq4.
  - intros c d Hret. rewrite (Hret4 c d Hret), Hret3.
    rewrite (matches_saved_app (_ ++ added3)), (matches_saved_app (added1 ++ added2)), Hs12.
    lia.
Qed.

Lemma while_pages_quiet_after tier division quota fuel :
  forall page collected done state w r w',
    while_pages fuel tier division quota page collected done state w = (r, w') ->
    exists added,
      trace w' = trace w ++ added /\ quiet_after_quota quota collected added.
Proof.
  induction fuel as [|fuel IH]; intros page collected done state w r w' Hrun.
  { injection Hrun as <- <-. exists []. rewrite app_nil_r. split; [reflexivity|].
    apply quiet_after_quota_no_calls. reflexivity. }
  cbn [while_pages] in Hrun.
  destruct ((collected <? quota) && negb done) eqn:Hcond.
  2:{ injection Hrun as <- <-. exists []. rewrite app_nil_r. split; [reflexivity|].
      apply quiet_after_quota_no_calls. reflexivity. }
  apply andb_true_iff in Hcond as [Hlt _]. apply Z.ltb_lt in Hlt.
  assert (Hstop : forall added, trace w' = trace w ++ added ->
            Forall no_match_write added ->
            exists added,
              trace w' = trace w ++ added /\ quiet_after_quota quota collected added).
  { intros added Ht HP. exists added. split; [exact Ht|].
    apply quiet_after_quota_below; [exact Hlt|apply matches_saved_none, HP]. }
  unfold get_players in Hrun.
  pose proof (keeps_no_write_api_call (LeagueEntries tier division page) w) as Hcall.
  apply bind_inv in Hrun as [(players & w1 & Hget & Hrun)|[(e & Hget & ->)|[Hget ->]]];
    rewrite Hget in Hcall; cbn [snd] in Hcall;
    destruct Hcall as [_ (added1 & Ht1 & HP1)].
  2,3: apply (Hstop added1); assumption.
  pose proof (matches_saved_none _ HP1) as Hs1.
  destruct (negb (truthy players)).
  { injection Hrun as <- <-. apply (Hstop added1); assumption. }
  apply bind_inv in Hrun as [(items & w1' & Hiter & Hrun)|[(e & Hiter & ->)|[Hiter ->]]];
    unfold lift in Hiter; injection Hiter as Hiter <-.
  2,3: apply (Hstop added1); assumption.
  destruct (for_players tier division quota items collected done w1) as [r2 w2] eqn:Hfor.
  destruct (for_players_quiet_after _ _ _ _ _ _ _ _ _ Hfor) as (added2 & Ht2 & Hq2 & Hret2).
  assert (Ht12 : trace w2 = trace w ++ (added1 ++ added2))
    by (rewrite Ht2, Ht1, <- app_assoc; reflexivity).
  assert (Hq12 : quiet_after_quota quota collected (added1 ++ added2)).
  { apply quiet_after_quota_app; [apply quiet_after_quota_below; assumption|].
    rewrite Hs1, Z.add_0_r. exact Hq2. }
  apply bind_inv in Hrun as [([c2 d2] & w2' & Hf & Hrun)|[(e & Hf & ->)|[Hf ->]]];
    rewrite Hfor in Hf; injection Hf as -> <-.
  2,3: exists (added1 ++ added2); split; assumption.
  specialize (Hret2 c2 d2 eq_refl).
  apply bind_inv in Hrun as [(state1 & w2' & Hset & Hrun)|[(e & Hset & ->)|[Hset ->]]];
    unfold lift in Hset; injection Hset as Hset <-.
  2,3: exists (added1 ++ added2); split; assumption.
  unfold save_state, write_json in Hrun.
  unfold mbind at 1, M_bind at 1 in Hrun.
  unfold mbind at 1, M_bind at 1, emit at 1, modify at 1 in Hrun.
  unfold modify at 1 in Hrun.
  set (w3 := set_files _ _) in Hrun.
  set (sofar := (added1 ++ added2) ++ [EWrite StateWrite STATE_FILE state1]).
  assert (Ht3 : trace w3 = trace w ++ sofar).
  { subst w3 sofar. cbn [trace set_files set_trace]. rewrite Ht12, <- !app_assoc.
    reflexivity. }
  assert (Hs3 : matches_saved sofar = matches_saved added2).
  { subst sofar. rewrite !matches_saved_app, Hs1.
    change (matches_saved [EWrite StateWrite ?p ?v]) with 0. lia. }
  assert (Hq3 : quiet_after_quota quota collected sofar).
  { subst sofar. apply quiet_after_quota_app; [exact Hq12|].
    apply quiet_after_quota_no_calls. reflexivity. }
  clearbody w3 sofar.
  apply bind_inv in Hrun as [(page' & w3' & Hadd & Hrun)|[(e & Hadd & ->)|[Hadd ->]]];
    unfold lift in Hadd; injection Hadd as Hadd <-.
  2,3: exists sofar; split; assumption.
  unfold sleep in Hrun. cbn [Z.ltb Z.compare] in Hrun.
  unfold mbind at 1, M_bind at 1 in Hrun.
  unfold mbind at 1, M_bind at 1, emit at 1, modify at 1 in Hrun.
  unfold modify at 1 in Hrun.
  destruct (IH _ _ _ _ _ _ _ Hrun) as (added5 & Ht5 & Hq5).
  exists (sofar ++ [ESleep PageSleep 500000] ++ added5).
  split.
  { rewrite Ht5. cbn [trace set_clock set_trace]. rewrite Ht3, <- !app_assoc.
    reflexivity. }
  apply quiet_after_quota_app; [exact Hq3|].
  apply quiet_after_quota_app; [apply quiet_after_quota_no_calls; reflexivity|].
  change (matches_saved [ESleep ?a ?b]) with 0.
  rewrite Hs3, Z.add_0_r, <- Hret2. exact Hq5.
Qed.

(** X23. In the processing of a bucket, whatever the servers answer:
    from the moment [matches_per_tier] match files have been written, no
    further API call is made for the bucket, neither a download nor a
    lookup nor a listing; with a quota of zero or less, none at all. *)
Theorem no_request_after_the_quota_is_reached
    (tier division : string) (matches_per_tier : Z) (state : json) (w : World) :
  exists added,
    trace (snd (process_bucket tier division matches_per_tier state w))
    = trace w ++ added /\
    forall before after,
      added = before ++ after ->
      matches_per_tier <= matches_saved before ->
      api_calls after = [].
Proof.
  destruct (process_bucket tier division matches_per_tier state w) as [r w'] eqn:Hrun.
  cbn [snd]. unfold process_bucket in Hrun.
  unfold mbind at 1, M_bind at 1, emit at 1, modify at 1 in Hrun.
  set (w0 := set_trace _ w) in Hrun.
  assert (Hstop : w' = w0 ->
            exists added,
              trace w' = trace w ++ added /\
              forall before after,
                added = before ++ after ->
                matches_per_tier <= matches_saved before ->
                api_calls after = []).
  { intros ->. exists [ELog (LogProcessing tier division)].
    split; [reflexivity|]. intros before after Heq _.
    assert (Hnone : api_calls (before ++ after) = []) by (rewrite <- Heq; reflexivity).
    rewrite api_calls_app in Hnone. apply app_eq_nil in Hnone as [_ Hnone]. exact Hnone. }
  apply bind_inv in Hrun as [(by_tier & w1 & Htier & Hrun)|[(e & Htier & ->)|[Htier ->]]];
    unfold lift in Htier; injection Htier as Htier <-.
  2,3: apply Hstop; reflexivity.
  apply bind_inv in Hrun as [(page & w1 & Hpage & Hrun)|[(e & Hpage & ->)|[Hpage ->]]];
    unfold lift in Hpage; injection Hpage as Hpage <-.
  2,3: apply Hstop; reflexivity.
  unfold mbind at 1, M_bind at 1, gets at 1 in Hrun.
  destruct (while_pages_quiet_after _ _ _ _ _ _ _ _ _ _ _ Hrun) as (added & Ht & Hq).
  exists ([ELog (LogProcessing tier division)] ++ added).
  split; [rewrite Ht; subst w0; cbn [trace set_trace]; rewrite <- app_assoc; reflexivity|].
  assert (Hall : quiet_after_quota matches_per_tier 0
                   ([ELog (LogProcessing tier division)] ++ added)).
  { apply quiet_after_quota_app; [apply quiet_after_quota_no_calls; reflexivity|].
    exact Hq. }
  intros before after Heq Hle. apply (Hall before after Heq). lia.
Qed.

End Scraper.

(** * Concrete runs *)

(** ** C3 *)

(** C3 on a burst of 101 calls at the same instant. *)
Lemma rate_limiter_window_witness :
  exists log w',
    admit_calls (repeat 0 101) (fresh_world []) = (Ret log, w') /\
    length log = 101%nat /\
    forall first call,
      log !! 0%nat = Some first -> log !! REQUEST_LIMIT = Some call ->
      fst first + WINDOW <= snd call.
Proof.
  destruct (rate_limiter_window (repeat 0 101) (fresh_world []) eq_refl)
    as (log & w' & Hrun & Hlen & Hburst & _).
  - apply Forall_forall. intros gap Hgap.
    apply list_elem_of_In, repeat_spec in Hgap. lia.
  - exists log, w'. split; [exact Hrun|]. split; [exact Hlen|exact Hburst].
Defined.

(** 101 calls at instant 0: the first 100 return at once, the last one
    after the 120 seconds of the window. *)
Example burst_of_101_calls :
  fst (admit_calls (repeat 0 101) (fresh_world []))
  = Ret (repeat (0, 0) 100 ++ [(0, 120000000)]).
Proof. vm_compute. reflexivity. Qed.

(** 150 calls, one every 1.5 seconds (80 in any window of 120 seconds):
    every call returns at the instant it is made. *)
Example steady_calls_never_sleep :
  match fst (admit_calls (repeat 1500000 150) (fresh_world [])) with
  | Ret log => forallb (fun call => fst call =? snd call) log
  | _ => false
  end = true.
Proof. vm_compute. reflexivity. Qed.

(** ** C2 *)

(** C2 on two 429 responses, one without header and one asking for 3
    seconds, followed by a 200. *)
Lemma make_api_call_retries_witness :
  exists w' added,
    make_api_call (MatchDetail (JStr "NA1_1"))
      (fresh_world [Response 429 None None; Response 429 (Some "3") None;
                    ok sample_match])
    = (Ret sample_match, w') /\
    network w' = [] /\
    trace w' = [] ++ ECall (MatchDetail (JStr "NA1_1")) :: added /\
    throttle_sleeps added = map (fun s => s * MICROS) [10; 3] /\
    admissions added = 3%nat /\
    http_requests added = repeat (MatchDetail (JStr "NA1_1")) 3.
Proof.
  apply (make_api_call_retries_until_success
           (MatchDetail (JStr "NA1_1"))
           [Response 429 None None; Response 429 (Some "3") None]
           [10; 3] (ok sample_match) []).
  - repeat constructor.
    + exists None, None. repeat split; vm_compute; discriminate.
    + exists (Some "3"), None. repeat split; vm_compute; discriminate.
  - reflexivity.
  - left. exists 200, None. repeat split; lia.
Defined.

(** C2 as stated fails here.  A 429 whose [Retry-After] is an HTTP date,
    which [int] cannot read: the call gives up with [None] without
    sleeping, and the good response that would have followed is never
    asked for. *)
Lemma unparseable_retry_after_is_not_retried :
  let w := fresh_world [Response 429 (Some "Wed, 21 Oct 2015 07:28:00 GMT") None;
                        ok sample_match] in
  let run := make_api_call (MatchDetail (JStr "NA1_1")) w in
  retry_after_seconds (Some "Wed, 21 Oct 2015 07:28:00 GMT") = None /\
  fst run = Ret JNull /\
  throttle_sleeps (trace (snd run)) = [] /\
  network (snd run) = [ok sample_match].
Proof. vm_compute. repeat split. Qed.

(** A 429 that asks for more seconds than [time.sleep] takes: the 429
    is logged, [time.sleep] raises, and the call returns [None] without
    sleeping and without asking again. *)
Example huge_retry_after_is_not_slept_on :
  let w := fresh_world [Response 429 (Some "10000000000") None; ok sample_match] in
  let run := make_api_call (MatchDetail (JStr "NA1_1")) w in
  fst run = Ret JNull /\
  network (snd run) = [ok sample_match] /\
  clock (snd run) = 0 /\
  trace (snd run) =
    [ECall (MatchDetail (JStr "NA1_1")); EAdmit; EGet (MatchDetail (JStr "NA1_1"));
     ELog (Log429 10000000000); ELog (LogApiError OverflowError)].
Proof. vm_compute. repeat split. Qed.

(** ** C7 *)

(** C7 on a lookup that is answered at once: the second call changes
    nothing. *)
Lemma get_puuid_looks_up_once_witness :
  exists w1 added,
    get_puuid (JStr "s1") (fresh_world [ok (JObj [("puuid", JStr "p1")])])
    = (Ret (JStr "p1"), w1) /\
    trace w1 = [] ++ added /\
    api_calls added = [SummonerById (JStr "s1")] /\
    get_puuid (JStr "s1") w1 = (Ret (JStr "p1"), w1).
Proof.
  destruct (get_puuid_looks_up_once (JStr "s1") (Some (inr "s1")) [] []
              (ok (JObj [("puuid", JStr "p1")])) (JObj [("puuid", JStr "p1")]) []
              (fresh_world [ok (JObj [("puuid", JStr "p1")])]))
    as (w1 & added & Hrun & Ht & Hcalls & _ & Hcache & _ & Hagain).
  - reflexivity.
  - apply lookup_empty.
  - constructor.
  - reflexivity.
  - intros _. eexists. reflexivity.
  - reflexivity.
  - exists w1, added. split; [exact Hrun|]. split; [exact Ht|].
    split; [exact Hcalls|]. apply Hagain. rewrite Hcache. apply lookup_insert_eq.
Defined.

(** C7 as stated fails here.  The lookup of [s1] is answered with a JSON
    list: [data.get] raises [AttributeError], nothing is cached, and the
    second call with the same id makes a second lookup. *)
Lemma get_puuid_asks_again_after_a_list_answer :
  let w := fresh_world [ok (JArr [JNum 1]); ok (JObj [("puuid", JStr "p1")])] in
  let first := get_puuid (JStr "s1") w in
  let second := get_puuid (JStr "s1") (snd first) in
  fst first = Raise AttributeError /\
  puuid_cache (snd first) = ∅ /\
  fst second = Ret (JStr "p1") /\
  api_calls (trace (snd second))
  = [SummonerById (JStr "s1"); SummonerById (JStr "s1")].
Proof. vm_compute. repeat split. Qed.

(** ** C8 *)

(** C8 on a first match stored on an empty disk: one file, the header
    row and one row. *)
Lemma save_match_stores_witness :
  exists w' added,
    save_match example_base_dir example_repr (JStr "NA1_1") "IRON" "I"
      (fresh_world [ok sample_match])
    = (Ret true, w') /\
    trace w' = [] ++ added /\
    file_writes added
    = [(match_file example_base_dir example_repr (JStr "NA1_1") "IRON" "I",
        sample_match)] /\
    csv_rows added = [csv_header; [JStr "NA1_1"; JStr "IRON"; JStr "I"]].
Proof.
  destruct (save_match_stores_or_leaves_no_trace example_base_dir example_repr
              (JStr "NA1_1") "IRON" "I" [] [] (ok sample_match) sample_match []
              (fresh_world [ok sample_match]))
    as (_ & w' & added & Hrun & Ht & Hthen).
  - unfold TIERS. set_solver.
  - unfold DIVISIONS. set_solver.
  - split; [reflexivity|]. split; [reflexivity|]. vm_compute. lia.
  - apply lookup_empty.
  - constructor.
  - reflexivity.
  - reflexivity.
  - exists w', added. split; [exact Hrun|]. split; [exact Ht|].
    change (truthy sample_match) with true in Hthen.
    destruct Hthen as (_ & Hwrites & Hrows). split; [exact Hwrites|exact Hrows].
Defined.

(** C8 as stated fails here.  A detail call that succeeds with an empty
    object: the call returns the payload, yet nothing is stored and
    [save_match] returns false. *)
Lemma empty_payload_is_not_stored :
  let w := fresh_world [ok (JObj [])] in
  let run := save_match example_base_dir example_repr (JStr "NA1_1") "IRON" "I" w in
  fst (make_api_call (MatchDetail (JStr "NA1_1")) w) = Ret (JObj []) /\
  fst run = Ret false /\
  files (snd run) = ∅ /\
  file_writes (trace (snd run)) = [] /\
  csv_rows (trace (snd run)) = [].
Proof. vm_compute. repeat split. Qed.

(** ** C1 *)

(** C1 on a match fetched at the first call. *)
Lemma save_match_idempotent_witness :
  exists w1 w2 added,
    save_match example_base_dir example_repr (JStr "NA1_1") "IRON" "I"
      (fresh_world [ok sample_match]) = (Ret true, w1) /\
    save_match example_base_dir example_repr (JStr "NA1_1") "IRON" "I" w1
    = (Ret false, w2) /\
    trace w2 = [] ++ added /\
    api_calls added = [MatchDetail (JStr "NA1_1")] /\
    file_writes added
    = [(match_file example_base_dir example_repr (JStr "NA1_1") "IRON" "I",
        sample_match)].
Proof.
  assert (Hbucket : "IRON" ∈ TIERS /\ "I" ∈ DIVISIONS /\
                     names_a_file example_repr (JStr "NA1_1")).
  { split; [unfold TIERS; set_solver|]. split; [unfold DIVISIONS; set_solver|].
    split; [reflexivity|]. split; [reflexivity|]. vm_compute. lia. }
  destruct Hbucket as (Htier & Hdivision & Hname).
  destruct (proj2 (proj2 (save_match_idempotent example_base_dir example_repr
                            (JStr "NA1_1") "IRON" "I" Htier Hdivision Hname))
              [] [] (ok sample_match) sample_match []
              (fresh_world [ok sample_match]))
    as (w1 & w2 & added & H1 & H2 & _ & _ & Ht & Hcalls & _ & Hwrites & _).
  - apply lookup_empty.
  - constructor.
  - reflexivity.
  - reflexivity.
  - reflexivity.
  - exists w1, w2, added. repeat split; assumption.
Defined.

(** C1 as stated fails here.  The first call meets a connection
    failure, the second a good response: two API calls in all, and it is
    the second call that returns true and writes the file. *)
Lemma save_match_refetches_after_failure :
  let w := fresh_world [ConnectionFailed; ok sample_match] in
  let first := save_match example_base_dir example_repr (JStr "NA1_1") "IRON" "I" w in
  let second :=
    save_match example_base_dir example_repr (JStr "NA1_1") "IRON" "I" (snd first) in
  fst first = Ret false /\
  file_writes (trace (snd first)) = [] /\
  fst second = Ret true /\
  api_calls (trace (snd second))
  = [MatchDetail (JStr "NA1_1"); MatchDetail (JStr "NA1_1")] /\
  length (file_writes (trace (snd second))) = 1%nat.
Proof. vm_compute. repeat split. Qed.

(** ** C10 and C9 *)

(** C10 with a key set and the module run as [__main__]. *)
Lemma module_stops_at_int_input_witness :
  module_body example_base_dir example_repr (Some "RGAPI-example") true
    (fresh_world (repeat ConnectionFailed 28))
  = (Raise TypeError,
     set_trace [EPrint "Input desired number of matches per tier: "]
       (fresh_world (repeat ConnectionFailed 28))).
Proof.
  apply (module_stops_at_int_input example_base_dir example_repr "RGAPI-example" true
           (fresh_world (repeat ConnectionFailed 28))).
  discriminate.
Defined.

(** C9.  The run of the script with the credential set: the prompt is
    printed, nothing is read, no request is made, and the script ends
    in the [TypeError] of [int(input)], so no number typed at the prompt
    becomes the quota; the same world lets [collect_data 100], the call
    under the [__main__] guard, run to its end. *)
Example prompt_is_never_read :
  let w := fresh_world (repeat ConnectionFailed 28) in
  let run := module_body example_base_dir example_repr (Some "RGAPI-example") true w in
  fst run = Raise TypeError /\
  api_calls (trace (snd run)) = [] /\
  network (snd run) = network w /\
  fst (collect_data example_base_dir example_repr 100 w) = Ret tt.
Proof. vm_compute. repeat split. Qed.

(** ** C5 *)

(** C5 on a run in which every listing call fails: no bucket meets its
    quota, all 28 are visited in order, and the run ends after Diamond I. *)
Lemma collect_data_bucket_order_witness :
  exists added,
    trace (snd (collect_data example_base_dir example_repr 100
                  (fresh_world (repeat ConnectionFailed 28)))) = [] ++ added /\
    buckets_processed added = specified_order /\
    last added = Some (ELog LogFinishedDiamondI).
Proof.
  destruct (collect_data_bucket_order example_base_dir example_repr 100
              (fresh_world (repeat ConnectionFailed 28)))
    as (added & Ht & _ & Hret).
  exists added. split; [exact Ht|].
  destruct Hret as (Horder & _ & Hlast); [vm_compute; reflexivity|].
  split; [exact Horder|exact Hlast].
Defined.

(** ** C4 *)

(** C4 on a checkpoint file that holds page 7 for Silver II, and a
    server on which every listing fails: the run returns, and the first
    listing it has asked of Silver II is page 7. *)
Lemma collect_data_resumes_witness :
  exists added,
    trace (snd (collect_data example_base_dir example_repr 100
                  (world_with_state silver_II_at_7 (repeat ConnectionFailed 28))))
    = [] ++ added /\
    head (listing_pages "SILVER" "II" added) = Some (JNum 7).
Proof.
  destruct (collect_data_resumes_from_checkpoint example_base_dir example_repr 100
              "SILVER" "II" (JNum 7)
              (world_with_state silver_II_at_7 (repeat ConnectionFailed 28)))
    as (_ & added & Ht & _ & _ & Hpositive).
  - right. exists silver_II_at_7. split; [apply lookup_insert_eq|reflexivity].
  - exists added. split; [exact Ht|].
    apply (proj2 (Hpositive ltac:(lia))); [vm_compute; reflexivity|].
    apply list_elem_of_In. vm_compute. tauto.
Defined.

(** With the checkpoint of Silver II at 7 every other bucket is first
    asked for page 1 and Silver II for page 7. *)
Example resumed_run_lists_page_7 :
  let run := collect_data example_base_dir example_repr 100
               (world_with_state silver_II_at_7 (repeat ConnectionFailed 28)) in
  listing_pages "SILVER" "II" (trace (snd run)) = [JNum 7] /\
  listing_pages "SILVER" "I" (trace (snd run)) = [JNum 1] /\
  listing_pages "GOLD" "II" (trace (snd run)) = [JNum 1].
Proof. vm_compute. repeat split. Qed.

(** ** C6 *)


(** The same run, evaluated: the quota is met on page 1, the checkpoint
    is written all the same, and the bucket returns without listing
    page 2. *)
Example checkpoint_is_written_when_the_quota_is_met :
  let run := process_bucket example_base_dir example_repr "IRON" "I" 1 (JObj [])
               (fresh_world [ok sample_players; ok (JObj [("puuid", JStr "p1")]);
                             ok (JArr [JStr "NA1_1"]); ok sample_match]) in
  fst run = Ret (JObj [("IRON", JObj [("I", JNum 1)])]) /\
  matches_saved (trace (snd run)) = 1 /\
  page_events (trace (snd run))
  = [Listed "IRON" "I" (JNum 1); Saved (JObj [("IRON", JObj [("I", JNum 1)])])] /\
  last (trace (snd run)) = Some (ESleep PageSleep 500000) /\
  files (snd run) !! STATE_FILE example_base_dir
  = Some [CJson (JObj [("IRON", JObj [("I", JNum 1)])])].
Proof. vm_compute. repeat split. Qed.

(** A page on which nothing is collected (the lookup of its one player
    fails) is followed by the checkpoint as well. *)
Example checkpoint_is_written_when_nothing_is_collected :
  let run := process_bucket example_base_dir example_repr "IRON" "I" 100 (JObj [])
               (fresh_world [ok sample_players; ConnectionFailed; ok (JArr [])]) in
  matches_saved (trace (snd run)) = 0 /\
  saved_states (trace (snd run)) = [JObj [("IRON", JObj [("I", JNum 1)])]] /\
  listing_pages "IRON" "I" (trace (snd run)) = [JNum 1; JNum 2].
Proof. vm_compute. repeat split. Qed.


(** * Concrete runs of the further properties *)

(** ** The rate limiter *)

(** 250 calls without pause on a fresh limiter: the list stays sorted
    and bounded and no call waits longer than one window. *)
Lemma limiter_list_stays_bounded_witness :
  exists log w',
    admit_calls (repeat 0 250) (fresh_world []) = (Ret log, w') /\
    limiter_ok w' /\
    (length (request_timestamps w') <= S REQUEST_LIMIT)%nat /\
    Forall (fun call => fst call <= snd call <= fst call + WINDOW) log.
Proof.
  apply (limiter_list_stays_bounded (repeat 0 250) (fresh_world [])).
  - split; [constructor|]. split; [constructor|]. left. simpl. lia.
  - apply Forall_forall. intros gap Hgap.
    apply list_elem_of_In, repeat_spec in Hgap. lia.
Defined.

(** 302 calls without pause: 100 return at once, 101 after one window,
    101 after two. *)
Lemma sustained_burst_witness :
  exists log w',
    admit_calls (replicate (REQUEST_LIMIT + 2 * S REQUEST_LIMIT) 0) (fresh_world [])
    = (Ret log, w') /\
    map snd log =
      replicate 100 0 ++ replicate 101 120000000 ++ replicate 101 240000000.
Proof.
  destruct (sustained_burst_releases_one_more_per_window 2 (fresh_world []) eq_refl)
    as (log & w' & Hrun & Hlog).
  exists log, w'. split; [exact Hrun|]. rewrite Hlog. vm_compute. reflexivity.
Defined.

(** The same burst, evaluated: the call numbered 101 and the hundred
    calls after it all return at second 120, the next at second 240. *)
Example burst_of_202_calls :
  match fst (admit_calls (repeat 0 202) (fresh_world [])) with
  | Ret log => map snd log
  | _ => []
  end = repeat 0 100 ++ repeat 120000000 101 ++ [240000000].
Proof. vm_compute. reflexivity. Qed.

(** ** The API client *)

(** A 429 without header, then a 503: the call sleeps ten seconds, asks
    again, logs the HTTP error and returns [None]; the response after
    the 503 is not asked for. *)
Lemma make_api_call_failure_witness :
  exists w' added,
    make_api_call (MatchDetail (JStr "NA1_1"))
      (fresh_world [Response 429 None None; Response 503 None None; ok sample_match])
    = (Ret JNull, w') /\
    network w' = [ok sample_match] /\
    trace w' = [] ++ ECall (MatchDetail (JStr "NA1_1")) :: added /\
    last added = Some (ELog (LogApiError HTTPError)) /\
    http_requests added = [MatchDetail (JStr "NA1_1"); MatchDetail (JStr "NA1_1")].
Proof.
  destruct (make_api_call_turns_failure_into_none (MatchDetail (JStr "NA1_1"))
              [Response 429 None None] [10] (Response 503 None None) HTTPError
              [ok sample_match]
              (fresh_world [Response 429 None None; Response 503 None None;
                            ok sample_match]))
    as (w' & added & Hrun & Hnet & _ & _ & Ht & Hlast & Hgets).
  - repeat constructor. exists None, None.
    split; [reflexivity|]. split; [reflexivity|split; vm_compute; discriminate].
  - reflexivity.
  - reflexivity.
  - exists w', added. repeat split; assumption.
Defined.

(** A 429 that asks for a negative number of seconds: the 429 is
    logged, [time.sleep] raises, and the call returns [None] without
    asking again. *)
Example negative_retry_after_is_not_retried :
  let w := fresh_world [Response 429 (Some "-1") None; ok sample_match] in
  let run := make_api_call (MatchDetail (JStr "NA1_1")) w in
  fst run = Ret JNull /\
  network (snd run) = [ok sample_match] /\
  trace (snd run) =
    [ECall (MatchDetail (JStr "NA1_1")); EAdmit; EGet (MatchDetail (JStr "NA1_1"));
     ELog (Log429 (-1)); ELog (LogApiError ValueError)].
Proof. vm_compute. repeat split. Qed.

(** [Retry-After: 7], then a 200. *)
Lemma make_api_call_header_witness :
  exists w' added,
    make_api_call (MatchDetail (JStr "NA1_1"))
      (fresh_world [Response 429 (Some "7") None; ok sample_match])
    = (Ret sample_match, w') /\
    network w' = [] /\
    trace w' = [] ++ ECall (MatchDetail (JStr "NA1_1")) :: added /\
    throttle_sleeps added = [7 * MICROS] /\
    http_requests added = [MatchDetail (JStr "NA1_1"); MatchDetail (JStr "NA1_1")].
Proof.
  apply (make_api_call_sleeps_the_seconds_of_the_header (MatchDetail (JStr "NA1_1"))
           7 None (ok sample_match) sample_match []
           (fresh_world [Response 429 (Some "7") None; ok sample_match])).
  - split; vm_compute; discriminate.
  - exists 200, None. split; [reflexivity|]. split; lia.
  - reflexivity.
Defined.

(** ** The match index *)

(** Two matches recorded on an empty disk: header, then the two lines. *)
Lemma index_witness :
  exists w',
    record_all example_base_dir
      [(JStr "NA1_1", "IRON", "I"); (JStr "NA1_2", "IRON", "II")] (fresh_world [])
    = (Ret tt, w') /\
    files w' !! CSV_FILE example_base_dir =
      Some [CRow csv_header;
            CRow [JStr "NA1_1"; JStr "IRON"; JStr "I"];
            CRow [JStr "NA1_2"; JStr "IRON"; JStr "II"]].
Proof.
  destruct (index_gets_one_header_and_one_line_per_match example_base_dir
              [(JStr "NA1_1", "IRON", "I"); (JStr "NA1_2", "IRON", "II")]
              (fresh_world []))
    as (w' & Hrun & Hcsv & _).
  - discriminate.
  - exists w'. split; [exact Hrun|]. exact Hcsv.
Defined.

(** ** The PUUID lookup *)

(** A lookup answered with a list: [AttributeError], nothing cached. *)
Lemma get_puuid_list_answer_witness :
  exists w' added,
    get_puuid (JStr "s1") (fresh_world [ok (JArr [JNum 1])])
    = (Raise AttributeError, w') /\
    puuid_cache w' = ∅ /\ files w' = ∅ /\ network w' = [] /\
    trace w' = [] ++ added /\
    api_calls added = [SummonerById (JStr "s1")].
Proof.
  apply (proj2 (get_puuid_raises_on_what_it_cannot_handle (JStr "s1"))
           (Some (inr "s1")) [] [] (ok (JArr [JNum 1])) (JArr [JNum 1]) []
           (fresh_world [ok (JArr [JNum 1])])).
  - reflexivity.
  - apply lookup_empty.
  - constructor.
  - reflexivity.
  - reflexivity.
  - discriminate.
  - reflexivity.
Defined.

(** ** Pages *)

(** Iron I with a quota of 5 on a connection that breaks. *)
Lemma empty_page_witness :
  exists w' added,
    process_bucket example_base_dir example_repr "IRON" "I" 5 (JObj [])
      (fresh_world [ConnectionFailed])
    = (Ret (JObj []), w') /\
    files w' = ∅ /\ puuid_cache w' = ∅ /\ network w' = [] /\
    trace w' = [] ++ added /\
    api_calls added = [LeagueEntries "IRON" "I" (JNum 1)] /\
    file_writes added = [].
Proof.
  apply (empty_page_ends_the_bucket example_base_dir example_repr "IRON" "I" 5
           (JObj []) (JNum 1) [] [] ConnectionFailed JNull []
           (fresh_world [ConnectionFailed])).
  - lia.
  - reflexivity.
  - constructor.
  - reflexivity.
  - reflexivity.
  - reflexivity.
Defined.

(** A listing whose entries carry a ["puuid"] but no ["summonerId"]. *)
Lemma malformed_player_witness :
  exists w' added,
    process_bucket example_base_dir example_repr "IRON" "I" 5 (JObj [])
      (fresh_world [ok (JArr [JObj [("puuid", JStr "p1")]])])
    = (Raise KeyError, w') /\
    files w' = ∅ /\ puuid_cache w' = ∅ /\ network w' = [] /\
    trace w' = [] ++ added /\
    api_calls added = [LeagueEntries "IRON" "I" (JNum 1)] /\
    file_writes added = [].
Proof.
  apply (malformed_player_aborts_before_the_checkpoint example_base_dir example_repr
           "IRON" "I" 5 (JObj []) (JNum 1) [] []
           (ok (JArr [JObj [("puuid", JStr "p1")]]))
           (JArr [JObj [("puuid", JStr "p1")]]) (JObj [("puuid", JStr "p1")]) []
           KeyError []
           (fresh_world [ok (JArr [JObj [("puuid", JStr "p1")]])])).
  - lia.
  - reflexivity.
  - constructor.
  - reflexivity.
  - reflexivity.
  - reflexivity.
  - reflexivity.
Defined.

(** ** Runs that collect nothing *)

(** A first run with a quota of zero. *)
Lemma collect_data_without_quota_witness :
  collect_data example_base_dir example_repr 0 (fresh_world [ok sample_players]) =
  (Ret tt,
   set_trace ([] ++ map processing specified_order ++ [ELog LogFinishedDiamondI])
     (fresh_world [ok sample_players])).
Proof.
  apply (collect_data_without_quota_only_logs example_base_dir example_repr 0
           (fresh_world [ok sample_players])).
  - lia.
  - left. apply lookup_empty.
Defined.

(** A state file that holds a JSON list. *)
Lemma collect_data_list_state_witness :
  collect_data example_base_dir example_repr 100
    (world_with_state (JArr []) [ok sample_players]) =
  (Raise AttributeError,
   set_trace ([] ++ [ELog (LogProcessing "IRON" "I")])
     (world_with_state (JArr []) [ok sample_players])).
Proof.
  apply (collect_data_stops_on_a_state_that_is_no_mapping example_base_dir example_repr
           100 (JArr []) (world_with_state (JArr []) [ok sample_players])).
  - apply lookup_insert_eq.
  - left. discriminate.
Defined.

(** Thirty connection failures: 28 are used, one per bucket. *)
Lemma dead_server_witness :
  exists w' added,
    collect_data example_base_dir example_repr 100
      (fresh_world (repeat ConnectionFailed 30)) = (Ret tt, w') /\
    files w' = ∅ /\
    network w' = [ConnectionFailed; ConnectionFailed] /\
    trace w' = [] ++ added /\
    api_calls added = map (fun b => LeagueEntries b.1 b.2 (JNum 1)) specified_order /\
    file_writes added = [].
Proof.
  apply (dead_server_costs_one_request_per_bucket example_base_dir example_repr 100
           (fresh_world (repeat ConnectionFailed 30))).
  - lia.
  - apply lookup_empty.
  - apply Forall_forall. intros o Ho.
    apply list_elem_of_In, repeat_spec in Ho. subst o.
    exists RequestException. reflexivity.
  - simpl. lia.
Defined.

(** ** The archive *)


(** Ids that do not name a file: one with a separator, one with a NUL,
    one of 251 bytes. *)
Example ids_that_name_no_file :
  has_sep (py_str example_repr (JStr "a/b") +:+ ".json") = true /\
  has_nul (py_str example_repr (JStr (String "000" "b")) +:+ ".json") = true /\
  utf8_length (py_str example_repr (JStr (string_of_list_ascii (repeat "a"%char 251)))
               +:+ ".json") = 256%nat.
Proof. vm_compute. repeat split. Qed.

(** An id with a separator is another matter: [./NA1_1] and [NA1_1]
    are two paths to one file. *)
Example match_id_with_separator_collides :
  match_file example_base_dir example_repr (JStr "./NA1_1") "GOLD" "II"
  = "/home/ec2-user/riftoracle/data-collection/matches/gold/II/./NA1_1.json" /\
  resolve (match_file example_base_dir example_repr (JStr "./NA1_1") "GOLD" "II")
  = resolve (match_file example_base_dir example_repr (JStr "NA1_1") "GOLD" "II") /\
  resolve (match_file example_base_dir example_repr (JStr "../III/NA1_1") "GOLD" "II")
  = resolve (match_file example_base_dir example_repr (JStr "NA1_1") "GOLD" "III").
Proof. vm_compute. repeat split. Qed.

(** The same id in two buckets, and two ids in one bucket, are archived
    in different files. *)
Example match_files_differ :
  match_file example_base_dir example_repr (JStr "NA1_1") "GOLD" "II"
  = "/home/ec2-user/riftoracle/data-collection/matches/gold/II/NA1_1.json" /\
  match_file example_base_dir example_repr (JStr "NA1_1") "GOLD" "III"
  = "/home/ec2-user/riftoracle/data-collection/matches/gold/III/NA1_1.json" /\
  match_file example_base_dir example_repr (JStr "NA1_2") "GOLD" "II"
  = "/home/ec2-user/riftoracle/data-collection/matches/gold/II/NA1_2.json".
Proof. vm_compute. repeat split. Qed.

(** ** A run that meets the same summoner twice *)

(** Page 1 of Iron I lists the summoner [s1] twice; the summoner has no
    matches; all further listings fail.  The run asks for the matches
    twice and looks the summoner up once. *)
Example summoner_listed_twice_is_looked_up_once :
  let players := JArr [JObj [("summonerId", JStr "s1")];
                       JObj [("summonerId", JStr "s1")]] in
  let script := [ok players; ok (JObj [("puuid", JStr "p1")]);
                 ok (JArr []); ok (JArr [])] ++ repeat ConnectionFailed 28 in
  let run := collect_data example_base_dir example_repr 1 (fresh_world script) in
  fst run = Ret tt /\
  summoner_lookups (trace (snd run)) = [JStr "s1"] /\
  api_calls (trace (snd run)) !! 1%nat = Some (SummonerById (JStr "s1")) /\
  api_calls (trace (snd run)) !! 2%nat = Some (MatchIdsByPuuid (JStr "p1") 10) /\
  api_calls (trace (snd run)) !! 3%nat = Some (MatchIdsByPuuid (JStr "p1") 10) /\
  saved_states (trace (snd run)) = [JObj [("IRON", JObj [("I", JNum 1)])]] /\
  network (snd run) = [].
Proof. vm_compute. repeat split. Qed.

(** ** A run that downloads matches *)

(** Page 1 of Iron I lists one summoner with seven matches, the quota
    is 10: the first five are downloaded and archived, the other two are
    not asked for; the limiter was passed once for each of the 36
    requests of the run. *)
Example seven_matches_listed_five_downloaded :
  let ids := map (fun n => JStr (pretty n)) [1; 2; 3; 4; 5; 6; 7] in
  let script := [ok sample_players; ok (JObj [("puuid", JStr "p1")]); ok (JArr ids)]
                ++ repeat (ok sample_match) 5 ++ repeat ConnectionFailed 28 in
  let run := collect_data example_base_dir example_repr 10 (fresh_world script) in
  fst run = Ret tt /\
  match_listings (trace (snd run)) = [JStr "p1"] /\
  match_downloads (trace (snd run)) = take 5 ids /\
  matches_saved (trace (snd run)) = 5 /\
  limiter_marks (trace (snd run)) = rounds 36 /\
  network (snd run) = [].
Proof. vm_compute. repeat split. Qed.
